(** * build-contrib.js: merged contribution calendar, verified model

    A shallow embedding of [scripts/build-contrib.js] (and of its richer
    variant, whose [renderSVG] also receives the raw counts and the totals;
    its definitions carry the suffix [_counts], everything else is shared).

    - A JavaScript [Date] is its time value: milliseconds since the epoch, a
      [Z].  Mutating methods ([setDate]) become functions returning the new
      time value; [new Date(d)] is the identity on time values.  The script
      only ever mutates a fresh copy ([new Date(from)], [new Date(fromDate)],
      [new Date(today)], [new Date(start)]), so the module-level [today] and
      [fromDate] keep their values throughout a run.
    - Local time is given by the time zone of the host, [LocalTZA] of
      ECMA-262: the offset in force at an instant, or at a local time.  The
      zones used below are [fixedOffset], whose offset never changes, and
      [America_New_York], which has daylight-saving time; statements that
      hold only without transitions are stated for [fixedOffset].  Time
      values are assumed to stay inside the range ECMAScript can represent,
      so no [Date] is invalid.
    - A JavaScript object used as a dictionary from strings to numbers is a
      [gmap string Z].  Counts are integers far below 2^53, so
      floating-point arithmetic on them is exact and [Z] models it.  The
      object that [mergeCalendars] updates is read with [base[date]], which
      also finds what every object inherits from [Object.prototype], and may
      then be given a string: it is a [gmap string value] of own properties,
      read with [get_property] and written with [set_property].
    - [throw] / rejected promises are the left injection of a sum type.
    - [process.env] is a [gmap string string]; a value that is a string or
      [undefined] is an [option string].  Strings are sequences of octets
      (UTF-8), which is what [encodeURIComponent] escapes.
    - What a fetcher sends is the record of the arguments of [fetch]; what it
      receives is an argument of the model.  So is the way the host answers
      the calls that write the output ([FileSystem]). *)

From Stdlib Require Import ZArith Lia String Ascii List.
From stdpp Require Import base numbers option list strings sorting gmap pretty.

Local Open Scope Z_scope.

(** ** ECMAScript date arithmetic (ECMA-262, "Time Values and Time Range") *)

Definition msPerDay : Z := 86400000.
Definition msPerHour : Z := 3600000.
Definition msPerMinute : Z := 60000.
Definition msPerSecond : Z := 1000.

Definition Day (t : Z) : Z := t / msPerDay.
Definition TimeWithinDay (t : Z) : Z := t mod msPerDay.
Definition WeekDay (t : Z) : Z := (Day t + 4) mod 7.

(** Proleptic Gregorian calendar: day number since 1970-01-01 to
    (year, month 1..12, day of month), by 400-year eras starting on 1 March. *)
Definition civil_from_days (z0 : Z) : Z * Z * Z :=
  let z := z0 + 719468 in
  let era := z / 146097 in
  let doe := z - era * 146097 in
  let yoe := (doe - doe / 1460 + doe / 36524 - doe / 146096) / 365 in
  let doy := doe - (365 * yoe + yoe / 4 - yoe / 100) in
  let mp := (5 * doy + 2) / 153 in
  let d := doy - (153 * mp + 2) / 5 + 1 in
  let m := if mp <? 10 then mp + 3 else mp - 9 in
  (yoe + era * 400 + (if m <=? 2 then 1 else 0), m, d).

(** The inverse direction: day number of a (year, month 1..12, day). *)
Definition days_from_civil (y0 m d : Z) : Z :=
  let y := y0 - (if m <=? 2 then 1 else 0) in
  let era := y / 400 in
  let yoe := y - era * 400 in
  let doy := (153 * (if 2 <? m then m - 3 else m + 9) + 2) / 5 + d - 1 in
  let doe := yoe * 365 + yoe / 4 - yoe / 100 + doy in
  era * 146097 + doe - 719468.

Definition YearFromTime (t : Z) : Z := (civil_from_days (Day t)).1.1.
(** Months are numbered 0..11 in ECMAScript. *)
Definition MonthFromTime (t : Z) : Z := (civil_from_days (Day t)).1.2 - 1.
Definition DateFromTime (t : Z) : Z := (civil_from_days (Day t)).2.
Definition HourFromTime (t : Z) : Z := (t / msPerHour) mod 24.
Definition MinFromTime (t : Z) : Z := (t / msPerMinute) mod 60.
Definition SecFromTime (t : Z) : Z := (t / msPerSecond) mod 60.
Definition msFromTime (t : Z) : Z := t mod msPerSecond.

(** [MakeDay year month date]: the day number of the first of the month,
    plus [date - 1]; [month] may lie outside 0..11 and carries into the year. *)
Definition MakeDay (year month date : Z) : Z :=
  let ym := year + month / 12 in
  let mn := month mod 12 in
  days_from_civil ym (mn + 1) 1 + date - 1.

Definition MakeDate (day time : Z) : Z := day * msPerDay + time.

(** ECMA-262 defines the year, month and date of a time value through the
    day number of the first day of a year, the length of a year and two
    tables over the day within the year; [civil_from_days] is checked
    against these definitions below. *)
Definition DayFromYear (y : Z) : Z :=
  365 * (y - 1970) + (y - 1969) / 4 - (y - 1901) / 100 + (y - 1601) / 400.

Definition DaysInYear (y : Z) : Z :=
  if negb (y mod 4 =? 0) then 365
  else if negb (y mod 100 =? 0) then 366
  else if negb (y mod 400 =? 0) then 365 else 366.

Definition InLeapYear (y : Z) : Z := DaysInYear y - 365.

Definition DayWithinYear (t : Z) : Z := Day t - DayFromYear (YearFromTime t).

Definition month_of_day_within_year (dwy leap : Z) : Z :=
  if dwy <? 31 then 0 else if dwy <? 59 + leap then 1 else if dwy <? 90 + leap then 2
  else if dwy <? 120 + leap then 3 else if dwy <? 151 + leap then 4
  else if dwy <? 181 + leap then 5 else if dwy <? 212 + leap then 6
  else if dwy <? 243 + leap then 7 else if dwy <? 273 + leap then 8
  else if dwy <? 304 + leap then 9 else if dwy <? 334 + leap then 10 else 11.

Definition date_of_day_within_year (dwy leap : Z) : Z :=
  match month_of_day_within_year dwy leap with
  | 0 => dwy + 1 | 1 => dwy - 30 | 2 => dwy - 58 - leap | 3 => dwy - 89 - leap
  | 4 => dwy - 119 - leap | 5 => dwy - 150 - leap | 6 => dwy - 180 - leap
  | 7 => dwy - 211 - leap | 8 => dwy - 242 - leap | 9 => dwy - 272 - leap
  | 10 => dwy - 303 - leap | _ => dwy - 333 - leap
  end.

(** ** [Date.prototype] methods used by the script *)

(** The time zone of the host, as ECMA-262 sees it: [LocalTZA t isUTC] is the
    offset of local time from UTC in milliseconds, in force at the instant
    [t] when [isUTC] is true, and at the local time [t] when it is false (a
    local time that a transition skips or repeats is read with the offset in
    force before the transition). *)
Definition TimeZone : Type := Z → bool → Z.

(** A zone whose offset never changes. *)
Definition fixedOffset (offset : Z) : TimeZone := λ _ _, offset.

(** The day number of the first Sunday of month [m] (1..12) of year [y]. *)
Definition first_sunday (y m : Z) : Z :=
  let d := days_from_civil y m 1 in
  d + (- (d + 4)) mod 7.

(** America/New_York under the rules in force since 2007: daylight-saving
    time, four hours behind UTC, from 02:00 standard time on the second
    Sunday of March to 02:00 daylight time on the first Sunday of November;
    standard time, five hours behind UTC, for the rest of the year. *)
Definition America_New_York : TimeZone := λ t isUTC,
  let year := YearFromTime t in
  (* the wall-clock times at which the clocks are moved *)
  let spring := (first_sunday year 3 + 7) * msPerDay + 2 * msPerHour in
  let autumn := first_sunday year 11 * msPerDay + 2 * msPerHour in
  let daylight :=
    if isUTC then (spring + 5 * msPerHour <=? t) && (t <? autumn + 4 * msPerHour)
    else (spring + msPerHour <=? t) && (t <? autumn) in
  if daylight then -4 * msPerHour else -5 * msPerHour.

Section DateMethods.
Variable LocalTZA : TimeZone.

Definition LocalTime (t : Z) : Z := t + LocalTZA t true.
Definition UTC (t : Z) : Z := t - LocalTZA t false.

(** [d.getDate()]: day of the month, in local time. *)
Definition getDate (d : Z) : Z := DateFromTime (LocalTime d).

(** [d.setDate(dt)]: the time value [d] holds afterwards. *)
Definition setDate (d dt : Z) : Z :=
  let t := LocalTime d in
  let newDate :=
    MakeDate (MakeDay (YearFromTime t) (MonthFromTime t) dt) (TimeWithinDay t) in
  UTC newDate.
End DateMethods.

(** [d.getUTCDay()]: 0 is Sunday, 6 is Saturday. *)
Definition getUTCDay (d : Z) : Z := WeekDay d.

(** Decimal digits, zero padded. *)
Definition digit (n : Z) : ascii := ascii_of_N (48 + Z.to_N (n mod 10)).

Definition pad2 (n : Z) : string :=
  String (digit (n / 10)) (String (digit n) EmptyString).

Definition pad3 (n : Z) : string := String (digit (n / 100)) (pad2 n).

Definition pad4 (n : Z) : string := String (digit (n / 1000)) (pad3 n).

Definition pad6 (n : Z) : string :=
  String (digit (n / 100000)) (String (digit (n / 10000)) (pad4 n)).

(** Years 0..9999 print with four digits, all others in the expanded form
    with a sign and six digits. *)
Definition isoYear (y : Z) : string :=
  if (0 <=? y) && (y <=? 9999) then pad4 y
  else (if y <? 0 then "-" else "+") +:+ pad6 (Z.abs y).

(** [d.toISOString()]: YYYY-MM-DDTHH:mm:ss.sssZ, in UTC. *)
Definition toISOString (d : Z) : string :=
  isoYear (YearFromTime d) +:+ "-" +:+ pad2 (MonthFromTime d + 1) +:+ "-"
    +:+ pad2 (DateFromTime d) +:+ "T" +:+ pad2 (HourFromTime d) +:+ ":"
    +:+ pad2 (MinFromTime d) +:+ ":" +:+ pad2 (SecFromTime d) +:+ "."
    +:+ pad3 (msFromTime d) +:+ "Z".

(** [s.slice(0, n)] for [0 <= n]. *)
Definition slice0 (n : nat) (s : string) : string := substring 0 n s.

(** [const iso = (d) => d.toISOString().slice(0, 10)] *)
Definition iso (d : Z) : string := slice0 10 (toISOString d).

(** ** JavaScript values, objects, arrays and control flow *)

(** Thrown values: the script throws [Error]; [res.json()] rejects with a
    [SyntaxError]; [fetch] rejects with a [TypeError]. *)
Inductive exn : Type :=
  | Error (message : string)
  | SyntaxError (message : string)
  | TypeError (message : string).

#[global] Instance exn_ret : MRet (sum exn) := λ A x, inr x.
#[global] Instance exn_bind : MBind (sum exn) :=
  λ A B f x, match x with inl e => inl e | inr a => f a end.

(** [Object.entries(o)] and [Object.values(o)], in the order of the map's
    own enumeration.  The script does not depend on the order in which the
    properties are enumerated: it only sorts the values or folds an update
    over the entries that commutes as long as the counts stay numbers (lemmas
    [computeLevels_any_order] and [mergeCalendars_any_order]). *)
Definition Object_entries (o : gmap string Z) : list (string * Z) := map_to_list o.
Definition Object_values (o : gmap string Z) : list Z := (map_to_list o).*2.

(** [arr.sort(cmp)]: [a] may be placed before [b] when [cmp a b <= 0]. *)
Definition precedes (cmp : Z → Z → Z) : relation Z := λ a b, cmp a b <= 0.

#[global] Instance precedes_dec cmp a b : Decision (precedes cmp a b).
Proof. unfold precedes. apply _. Defined.

Definition Array_sort (cmp : Z → Z → Z) (arr : list Z) : list Z :=
  merge_sort (precedes cmp) arr.

(** [arr[i]]: [None] is [undefined]. *)
Definition array_get {A} (arr : list A) (i : Z) : option A :=
  if i <? 0 then None else arr !! Z.to_nat i.

(** Relational operators against a possibly [undefined] number:
    [undefined] converts to NaN and every comparison with NaN is false. *)
Definition js_le (v : Z) (q : option Z) : bool :=
  match q with Some x => v <=? x | None => false end.
Definition js_gt (v : Z) (q : option Z) : bool :=
  match q with Some x => x <? v | None => false end.

(** [Math.ceil(a / b)] for integers [a] and [0 < b] below 2^53. *)
Definition Math_ceil_div (a b : Z) : Z := - ((- a) / b).

(** [Math.floor(n * p)] for a fraction [p = num / den] that is exact in
    binary floating point (0.25, 0.5, 0.75). *)
Definition Math_floor_mul (n num den : Z) : Z := (n * num) / den.

(** [s.includes(sub)] *)
Fixpoint includes (sub s : string) : bool :=
  String.prefix sub s || match s with EmptyString => false | String _ s' => includes sub s' end.

(** [while (cond) body]: [None] when the fuel runs out before the condition
    turns false. *)
Fixpoint while_loop {S : Type} (fuel : nat) (cond : S → bool) (body : S → S) (s : S)
    : option S :=
  match fuel with
  | O => None
  | S fuel' => if cond s then while_loop fuel' cond body (body s) else Some s
  end.

(** [for (let i = lo; i < lo + n; i++) body], threading the state. *)
Fixpoint for_loop {S : Type} (n : nat) (i : Z) (body : Z → S → S) (s : S) : S :=
  match n with
  | O => s
  | S n' => for_loop n' (i + 1) body (body i s)
  end.

Definition for_range {S : Type} (lo hi : Z) (body : Z → S → S) (s : S) : S :=
  for_loop (Z.to_nat (hi - lo)) lo body s.

(** The double quote character, for the attribute values of the SVG text. *)
Definition dq : string := String (ascii_of_N 34) EmptyString.
Definition nl : string := String (ascii_of_N 10) EmptyString.
Definition attr (name value : string) : string := name +:+ "=" +:+ dq +:+ value +:+ dq.

(** ** Configuration read at start-up *)

(** [ToBoolean] of a value that is a string or [undefined] ([None]): only a
    non-empty string is truthy. *)
Definition truthy (x : option string) : bool :=
  match x with Some s => negb (String.eqb s "") | None => false end.

(** [a || b] *)
Definition js_or (a b : option string) : option string := if truthy a then a else b.

(** [`${x}`] for a string or [undefined]. *)
Definition template (x : option string) : string := default "undefined" x.

(** [process.env] is a map from names to strings; [process.env.NAME] is
    [undefined] when the variable is not set. *)
Definition GH_USERNAME (env : gmap string string) : option string := env !! "GH_USERNAME".

Definition GH_TOKEN (env : gmap string string) : option string :=
  js_or (js_or (env !! "GH_PAT") (env !! "GITHUB_TOKEN")) (Some "").

Definition GITLAB_USERNAME (env : gmap string string) : option string :=
  env !! "GITLAB_USERNAME".

(** The variant with totals fixes both user names. *)
Definition GH_USERNAME_counts : option string := Some "yannklein".
Definition GITLAB_USERNAME_counts : option string := Some "yannklein".

(** The two guards at the top of the script: [Some (message, code)] when the
    script prints [message] with [console.error] and leaves with
    [process.exit(code)]. *)
Definition check_config (GH_USERNAME GITLAB_USERNAME GH_TOKEN : option string)
    : option (string * Z) :=
  if negb (truthy GH_USERNAME) || negb (truthy GITLAB_USERNAME) then
    Some ("Missing GH_USERNAME or GITLAB_USERNAME env vars.", 1)
  else if negb (truthy GH_TOKEN) then
    Some ("Missing GitHub token (GH_PAT / GITHUB_TOKEN). Aborting to avoid 403.", 1)
  else None.

(** ** Remote calendar fetchers *)

(** What [fetch] resolves to: status line, body text, and the body parsed as
    JSON at the shape the endpoint documents ([res.json()] rejects with a
    [SyntaxError] on a malformed body). *)
Record Response (J : Type) : Type := mkResponse {
  ok : bool;
  status : Z;
  text : string;
  json : exn + J
}.
Arguments mkResponse {J} _ _ _ _.
Arguments ok {J} _.
Arguments status {J} _.
Arguments text {J} _.
Arguments json {J} _.

Record ContributionDay : Type := mkDay { date : string; contributionCount : Z }.
Record Week : Type := mkWeek { contributionDays : list ContributionDay }.

(** [fetchGitHubCalendar]: the argument is what the single POST to the
    GraphQL endpoint settles to.  The parsed body is the [weeks] array found
    by the optional chain, [None] when a link of the chain is missing.  A
    [date] is of the GraphQL scalar [Date], YYYY-MM-DD, and so never the
    name of an inherited property: [out[d.date]] reads own properties. *)
Definition fetchGitHubCalendar (reply : exn + Response (option (list Week)))
    : exn + gmap string Z :=
  res ← reply;
  if negb (ok res) then
    let text := text res in
    inl (Error ("GitHub GraphQL error: " +:+ pretty (status res) +:+ " " +:+ text))
  else
    json ← json res;
    let weeks := default [] json in
    mret (foldl (λ out w,
            foldl (λ out d,
                     <[date d := default 0 (out !! date d) + contributionCount d]> out)
                  out (contributionDays w))
          ∅ weeks).

(** [fetchGitLabCalendar]: the argument is what the GET of
    [calendar.json] settles to; a [null] body ([None]) becomes [{}]. *)
Definition fetchGitLabCalendar (reply : exn + Response (option (gmap string Z)))
    : exn + gmap string Z :=
  res ← reply;
  if negb (ok res) then
    let text := text res in
    inl (Error ("GitLab calendar error: " +:+ pretty (status res) +:+ " " +:+ text))
  else
    json ← json res;
    mret (default ∅ json).

(** *** The requests the fetchers send *)

(** The arguments of [fetch]: the [body] is the object handed to
    [JSON.stringify], [None] when the call passes no options. *)
Record Variables : Type := mkVariables {
  var_login : option string;
  var_from : string;
  var_to : string
}.

Record GraphQLBody : Type := mkBody {
  query : string;
  variables : Variables
}.

Record Request : Type := mkRequest {
  req_url : string;
  req_method : string;
  req_headers : gmap string string;
  req_body : option GraphQLBody
}.

Definition graphql_query : string :=
  nl +:+ "      query($login: String!, $from: DateTime!, $to: DateTime!) {" +:+ nl
    +:+ "        user(login: $login) {" +:+ nl
    +:+ "          contributionsCollection(from: $from, to: $to) {" +:+ nl
    +:+ "            contributionCalendar {" +:+ nl
    +:+ "              weeks {" +:+ nl
    +:+ "                contributionDays {" +:+ nl
    +:+ "                  date" +:+ nl
    +:+ "                  contributionCount" +:+ nl
    +:+ "                }" +:+ nl
    +:+ "              }" +:+ nl
    +:+ "            }" +:+ nl
    +:+ "          }" +:+ nl
    +:+ "        }" +:+ nl
    +:+ "      }" +:+ nl
    +:+ "    ".

(** The request of [fetchGitHubCalendar(username)]; [fromDate] and [today]
    are the module-level dates. *)
Definition github_request (GH_TOKEN : option string) (fromDate today : Z)
    (username : option string) : Request :=
  let body :=
    {| query := graphql_query;
       variables := {| var_login := username;
                       var_from := toISOString fromDate;
                       var_to := toISOString today |} |} in
  {| req_url := "https://api.github.com/graphql";
     req_method := "POST";
     req_headers :=
       <["Content-Type" := "application/json"]>
         (if truthy GH_TOKEN then {["Authorization" := "Bearer " +:+ template GH_TOKEN]}
          else ∅);
     req_body := Some body |}.

(** [encodeURIComponent] on a well-formed string given by its UTF-8 octets:
    letters, digits and the marks [- _ . ! ~ * ' ( )] stay, every other octet
    becomes [%XX] in upper-case hexadecimal. *)
Definition uri_unreserved (c : ascii) : bool :=
  let n := N_of_ascii c in
  ((65 <=? n) && (n <=? 90) || (97 <=? n) && (n <=? 122) || (48 <=? n) && (n <=? 57)
   || bool_decide (c ∈ ["-"; "_"; "."; "!"; "~"; "*"; "'"; "("; ")"]%char))%N.

Definition hex_digit (n : N) : ascii :=
  (if n <? 10 then ascii_of_N (48 + n) else ascii_of_N (55 + n))%N.

Definition percent_encode (c : ascii) : string :=
  let n := N_of_ascii c in
  String "%" (String (hex_digit (n / 16)) (String (hex_digit (n mod 16)) EmptyString)).

Fixpoint encodeURIComponent (s : string) : string :=
  match s with
  | EmptyString => EmptyString
  | String c s' =>
      (if uri_unreserved c then String c EmptyString else percent_encode c)
        +:+ encodeURIComponent s'
  end.

(** The request of [fetchGitLabCalendar(username)]. *)
Definition gitlab_url (username : option string) : string :=
  "https://gitlab.com/users/" +:+ encodeURIComponent (template username) +:+ "/calendar.json".

Definition gitlab_request (username : option string) : Request :=
  let url := gitlab_url username in
  {| req_url := url; req_method := "GET"; req_headers := ∅; req_body := None |}.

(** [Promise.all([a, b])]: fulfilled with both values, or rejected with the
    reason of the promise that rejects first; [a_first] tells which of two
    rejections comes first. *)
Definition Promise_all {A B : Type} (a_first : bool) (a : exn + A) (b : exn + B)
    : exn + (A * B) :=
  match a, b with
  | inr x, inr y => inr (x, y)
  | inl e, inr _ => inl e
  | inr _, inl e => inl e
  | inl ea, inl eb => inl (if a_first then ea else eb)
  end.

(** ** Merge and classify *)

(** What a property of the merged object can hold: a number, or the string
    that [+=] makes of a value that is not a number. *)
Inductive value : Type :=
  | Num (n : Z)
  | Str (s : string).

(** The properties that an object created by [{}] inherits from
    [Object.prototype], each with the string its value converts to under
    [+] in Node.js: the source text of a built-in method, and
    [[object Object]] for the prototype itself, which [__proto__] returns. *)
Definition Object_prototype (name : string) : option string :=
  if bool_decide (name ∈ ["__defineGetter__"; "__defineSetter__"; "hasOwnProperty";
                          "__lookupGetter__"; "__lookupSetter__"; "isPrototypeOf";
                          "propertyIsEnumerable"; "toString"; "valueOf";
                          "toLocaleString"])
  then Some ("function " +:+ name +:+ "() { [native code] }")
  else if String.eqb name "constructor" then Some "function Object() { [native code] }"
  else if String.eqb name "__proto__" then Some "[object Object]"
  else None.

(** [o[name]]: the own property, else the inherited one, which stands here
    as the string it converts to under [+], the one operation the script
    applies to it besides the comparison with [undefined]; [None] is
    [undefined]. *)
Definition get_property (o : gmap string value) (name : string) : option value :=
  match o !! name with
  | Some v => Some v
  | None => Str <$> Object_prototype name
  end.

(** [o[name] = v] for a number or string [v]: an own property is updated or
    created, except that without an own property of that name the inherited
    setter of [__proto__] is called, which ignores a value that is neither
    an object nor [null]. *)
Definition set_property (o : gmap string value) (name : string) (v : value)
    : gmap string value :=
  if String.eqb name "__proto__" && bool_decide (o !! name = None) then o
  else <[name := v]> o.

(** [v + cnt] for a number [cnt]: addition of numbers, concatenation when
    [v] is a string. *)
Definition js_add (v : value) (cnt : Z) : value :=
  match v with
  | Num n => Num (n + cnt)
  | Str s => Str (s +:+ pretty cnt)
  end.

(** One iteration of either loop of [mergeCalendars]:
    [if (base[date] !== undefined) base[date] += cnt]. *)
Definition merge_entry (base : gmap string value) (e : string * Z) : gmap string value :=
  let '(date, cnt) := e in
  match get_property base date with
  | Some b => set_property base date (js_add b cnt)
  | None => base
  end.

Definition mergeCalendars (base : gmap string value) (gh gl : gmap string Z)
    : gmap string value :=
  let base := foldl merge_entry base (Object_entries gh) in
  let base := foldl merge_entry base (Object_entries gl) in
  base.

(** The object as a map of numbers, when every property holds one.  The
    stages after the merge are modelled for numbers only. *)
Definition as_number (v : value) : option Z :=
  match v with Num n => Some n | Str _ => None end.

Definition numbers (o : gmap string value) : option (gmap string Z) :=
  if decide (map_Forall (λ _ v, is_Some (as_number v)) o) then Some (omap as_number o)
  else None.

(** The body of the loop of [computeLevels]: four [if] statements in
    sequence, each overwriting [lvl]. *)
Definition level (q1 q2 q3 : option Z) (v : Z) : Z :=
  let lvl := 0 in
  let lvl := if (0 <? v) && js_le v q1 then 1 else lvl in
  let lvl := if js_gt v q1 && js_le v q2 then 2 else lvl in
  let lvl := if js_gt v q2 && js_le v q3 then 3 else lvl in
  let lvl := if js_gt v q3 then 4 else lvl in
  lvl.

Definition computeLevels (values : gmap string Z) : gmap string Z :=
  let arr := Array_sort (λ a b, a - b) (Object_values values) in
  let q := λ num den, array_get arr (Math_floor_mul (Z.of_nat (length arr) - 1) num den) in
  let q1 := q 1 4 in
  let q2 := q 1 2 in
  let q3 := q 3 4 in
  foldl (λ levels '(k, v), <[k := level q1 q2 q3 v]> levels) ∅ (Object_entries values).

(** [sum] of the richer driver:
    [Object.values(obj).reduce((a, b) => a + (b || 0), 0)]. *)
Definition sum (obj : gmap string Z) : Z :=
  foldl (λ a b, a + b) 0 (Object_values obj).

Record Totals : Type := mkTotals { gh : Z; gl : Z; total : Z }.

(** ** The run: date range, rendering, driver *)

(** [path.join(...)] of node:path on a POSIX host: the non-empty arguments
    joined by [/], then normalised: empty and [.] segments are dropped and a
    [..] segment removes the segment before it (none is left before the root
    of an absolute path). *)
Fixpoint split_path (segment : string) (s : string) : list string :=
  match s with
  | EmptyString => [segment]
  | String c s' =>
      if Ascii.eqb c "/" then segment :: split_path "" s'
      else split_path (segment +:+ String c EmptyString) s'
  end.

Definition normalize_segments (isAbsolute : bool) (segments : list string) : list string :=
  foldl (λ res seg,
           if String.eqb seg "" || String.eqb seg "." then res
           else if String.eqb seg ".." then
             match last res with
             | Some prev =>
                 if String.eqb prev ".." then res ++ [seg] else removelast res
             | None => if isAbsolute then res else [seg]
             end
           else res ++ [seg])
        [] segments.

Definition join_with (sep : string) (l : list string) : string :=
  match l with
  | [] => ""
  | s :: l => foldl (λ acc x, acc +:+ sep +:+ x) s l
  end.

Definition path_normalize (path : string) : string :=
  if String.eqb path "" then "."
  else
    let isAbsolute := String.prefix "/" path in
    let trailingSeparator := String.eqb (substring (String.length path - 1)%nat 1 path) "/" in
    let path := join_with "/" (normalize_segments isAbsolute (split_path "" path)) in
    if String.eqb path "" then
      if isAbsolute then "/" else if trailingSeparator then "./" else "."
    else
      let path := if trailingSeparator then path +:+ "/" else path in
      if isAbsolute then "/" +:+ path else path.

Definition path_join (args : list string) : string :=
  match filter (λ arg, arg ≠ "") args with
  | [] => "."
  | joined => path_normalize (join_with "/" joined)
  end.

(** How the host answers the calls between the rendering and the message:
    [process.cwd()], [fs.mkdirSync(dir, { recursive: true })] and
    [fs.writeFileSync(outPath, svg, "utf8")].  All three return, or one of
    them throws (the working directory is gone, no permission, a full disk,
    a file where the directory should be).  When [process.cwd] or
    [mkdirSync] throws, the file is as it was; when [writeFileSync] throws,
    [remains] is what the failed call leaves of the file. *)
Inductive FileSystem : Type :=
  | Written
  | ThrowsBeforeWrite (e : exn)
  | WriteThrows (e : exn) (remains : option string).

Section Run.
(** The time zone of the host and the time value of [new Date()], read once
    at start-up. *)
Variable tz : TimeZone.
Variable today : Z.
(** What [process.cwd()] returns. *)
Variable cwd : string.

Definition fromDate : Z :=
  let fromDate := today in
  setDate tz fromDate (getDate tz today - 364).

(** [dateRangeMap]: the loop state is the cursor [d] and the map. *)
Definition dateRangeMap (fuel : nat) (from to : Z) : option (gmap string Z) :=
  let map : gmap string Z := ∅ in
  let d := from in
  st ← while_loop fuel
        (λ '(d, _), d <=? to)
        (λ '(d, map), let map := <[iso d := 0]> map in
                      let d := setDate tz d (getDate tz d + 1) in
                      (d, map))
        (d, map);
  Some st.2.

Definition palette : list string :=
  ["#ebedf0"; "#c6e48b"; "#7bc96f"; "#239a3b"; "#196127"].

(** Locals of [renderSVG], the same in both variants. *)
Definition cell : Z := 10.
Definition gap : Z := 2.
Definition headerH : Z := 26.

Definition grid_start : Z :=
  let start := fromDate in
  let weekday := getUTCDay start in
  setDate tz start (getDate tz start - weekday).

Definition grid_end : Z :=
  let end_ := today in
  let endShift := 6 - getUTCDay end_ in
  setDate tz end_ (getDate tz end_ + endShift).

Definition weeks : Z :=
  Math_ceil_div (grid_end - grid_start) (1000 * 60 * 60 * 24 * 7) + 1.

Definition width : Z := weeks * (cell + gap) + gap.

(** [levels[key] ?? 0] *)
Definition lookup_or_0 (m : gmap string Z) (key : string) : Z := default 0 (m !! key).

(** [`${fill}`] for a palette entry that may be [undefined]. *)
Definition show_fill (fill : option string) : string := default "undefined" fill.

(** *** [renderSVG(levels)] of scripts/build-contrib.js *)

Definition rect (x y : Z) (fill : option string) (key : string) (lvl : Z) : string :=
  "<rect " +:+ attr "x" (pretty x) +:+ " " +:+ attr "y" (pretty y) +:+ " "
    +:+ attr "width" (pretty cell) +:+ " " +:+ attr "height" (pretty cell)
    +:+ " " +:+ attr "rx" "2" +:+ " " +:+ attr "ry" "2" +:+ " "
    +:+ attr "fill" (show_fill fill) +:+ ">" +:+ nl
    +:+ "        <title>" +:+ key +:+ ": " +:+ pretty lvl +:+ "</title>" +:+ nl
    +:+ "      </rect>".

(** Body of the inner loop; the state is [(rects, cursor)]. *)
Definition render_cell (levels : gmap string Z) (w d : Z) (st : string * Z)
    : string * Z :=
  let '(rects, cursor) := st in
  let key := iso cursor in
  let lvl := lookup_or_0 levels key in
  let x := gap + w * (cell + gap) in
  let y := gap + d * (cell + gap) in
  let fill := array_get palette lvl in
  let rects := rects +:+ rect x y fill key lvl in
  let cursor := setDate tz cursor (getDate tz cursor + 1) in
  (rects, cursor).

Definition render_rects (levels : gmap string Z) : string :=
  let rects := "" in
  let cursor := grid_start in
  (for_range 0 weeks (λ w st, for_range 0 7 (λ d st, render_cell levels w d st) st)
     (rects, cursor)).1.

Definition svg_open (width height : Z) : string :=
  "<?xml " +:+ attr "version" "1.0" +:+ " " +:+ attr "encoding" "UTF-8" +:+ "?>" +:+ nl
    +:+ "<svg " +:+ attr "width" (pretty width) +:+ " " +:+ attr "height" (pretty height)
    +:+ " " +:+ attr "viewBox" ("0 0 " +:+ pretty width +:+ " " +:+ pretty height)
    +:+ " " +:+ attr "xmlns" "http://www.w3.org/2000/svg" +:+ " " +:+ attr "role" "img"
    +:+ " " +:+ attr "aria-label" "Combined contributions" +:+ ">" +:+ nl
    +:+ "  <title>Combined GitHub + GitLab Contributions (last 365 days)</title>" +:+ nl
    +:+ "  <rect " +:+ attr "width" "100%" +:+ " " +:+ attr "height" "100%" +:+ " "
    +:+ attr "fill" "#fff" +:+ "/>" +:+ nl.

Definition renderSVG (levels : gmap string Z) : string :=
  let height := 7 * (cell + gap) + gap in
  let rects := render_rects levels in
  svg_open width height +:+ "  " +:+ rects +:+ nl +:+ "</svg>".

(** *** [renderSVG(levels, counts, totals)] of the variant with totals
    (the second copy of the script, whose driver also sums the counts) *)

Definition rect_counts (x y : Z) (fill : option string) (key : string) (cnt : Z)
    : string :=
  "<rect " +:+ attr "x" (pretty x) +:+ " " +:+ attr "y" (pretty y) +:+ " "
    +:+ attr "width" (pretty cell) +:+ " " +:+ attr "height" (pretty cell)
    +:+ " " +:+ attr "rx" "2" +:+ " " +:+ attr "ry" "2" +:+ " "
    +:+ attr "fill" (show_fill fill) +:+ ">" +:+ nl
    +:+ "        <title>" +:+ key +:+ ": " +:+ pretty cnt +:+ " contribution"
    +:+ (if cnt =? 1 then "" else "s") +:+ "</title>" +:+ nl
    +:+ "      </rect>".

Definition render_cell_counts (levels counts : gmap string Z) (w d : Z)
    (st : string * Z) : string * Z :=
  let '(rects, cursor) := st in
  let key := iso cursor in
  let lvl := lookup_or_0 levels key in
  let cnt := lookup_or_0 counts key in
  let x := gap + w * (cell + gap) in
  let y := headerH + gap + d * (cell + gap) in
  let fill := array_get palette lvl in
  let rects := rects +:+ rect_counts x y fill key cnt in
  let cursor := setDate tz cursor (getDate tz cursor + 1) in
  (rects, cursor).

Definition render_rects_counts (levels counts : gmap string Z) : string :=
  let rects := "" in
  let cursor := grid_start in
  (for_range 0 weeks
     (λ w st, for_range 0 7 (λ d st, render_cell_counts levels counts w d st) st)
     (rects, cursor)).1.

Definition font_family : string :=
  "system-ui,-apple-system,Segoe UI,Roboto,Ubuntu,Cantarell,Noto Sans,sans-serif".

(** The two text labels above the grid. *)
Definition svg_labels (totals : Totals) : string :=
  let label := "Total: " +:+ pretty (total totals) +:+ " (GH " +:+ pretty (gh totals)
                 +:+ " • GL " +:+ pretty (gl totals) +:+ ")" in
  let dateRange := iso fromDate +:+ " → " +:+ iso today in
  "  <text " +:+ attr "x" (pretty gap) +:+ " " +:+ attr "y" "16" +:+ " "
    +:+ attr "font-family" font_family +:+ " " +:+ attr "font-size" "12" +:+ " "
    +:+ attr "fill" "#24292f" +:+ ">" +:+ label +:+ "</text>" +:+ nl
    +:+ "  <text " +:+ attr "x" (pretty (width - gap)) +:+ " " +:+ attr "y" "16" +:+ " "
    +:+ attr "text-anchor" "end" +:+ " " +:+ attr "font-family" font_family +:+ " "
    +:+ attr "font-size" "11" +:+ " " +:+ attr "fill" "#57606a" +:+ ">" +:+ dateRange
    +:+ "</text>" +:+ nl.

Definition renderSVG_counts (levels counts : gmap string Z) (totals : Totals) : string :=
  let height := headerH + 7 * (cell + gap) + gap in
  let rects := render_rects_counts levels counts in
  svg_open width height +:+ svg_labels totals +:+ "  " +:+ rects +:+ nl +:+ "</svg>".

(** *** The driver *)

(** What a run leaves behind: the exit status, what went to the error and
    output streams, and the contents of public/contrib.svg ([None]: the
    file does not exist). *)
Record Outcome : Type := mkOutcome {
  exitCode : Z;
  stderr : list exn;
  stdout : list string;
  contrib_svg : option string
}.

Definition outPath : string := path_join [cwd; "public"; "contrib.svg"].

(** The [try] block up to the rendered document: [inl e] when it throws
    [e].  [None] when the merged object holds a string (see [merge_entry]):
    such a run is outside the model, which has [computeLevels] and the
    renderers for numbers only (with a value that is not a number in the
    array, the comparator of the sort is not consistent and ECMA-262 leaves
    the resulting order to the implementation). *)
Definition pipeline (base : gmap string Z)
    (gh_reply : exn + Response (option (list Week)))
    (gl_reply : exn + Response (option (gmap string Z)))
    (gh_first : bool) : option (exn + string) :=
  match Promise_all gh_first (fetchGitHubCalendar gh_reply)
                             (fetchGitLabCalendar gl_reply) with
  | inl e => Some (inl e)
  | inr (gh, gl) =>
      merged ← numbers (mergeCalendars (Num <$> base) gh gl);
      let levels := computeLevels merged in
      let svg := renderSVG levels in
      Some (inr svg)
  end.

Definition pipeline_counts (base : gmap string Z)
    (gh_reply : exn + Response (option (list Week)))
    (gl_reply : exn + Response (option (gmap string Z)))
    (gh_first : bool) : option (exn + string) :=
  match Promise_all gh_first (fetchGitHubCalendar gh_reply)
                             (fetchGitLabCalendar gl_reply) with
  | inl e => Some (inl e)
  | inr (ghMap, glMap) =>
      merged ← numbers (mergeCalendars (Num <$> base) ghMap glMap);
      let levels := computeLevels merged in
      let totals := {| gh := sum ghMap; gl := sum glMap; total := sum merged |} in
      let svg := renderSVG_counts levels merged totals in
      Some (inr svg)
  end.

(** The last statements of the [try] block and the [catch] clause;
    [file0] is public/contrib.svg before the run.  An error thrown by the
    pipeline or by one of the calls to the host is logged and the process
    exits with status 1; [console.log] is reached only when all of them
    return. *)
Definition finish (fs : FileSystem) (file0 : option string) (attempt : exn + string)
    : Outcome :=
  match attempt with
  | inr svg =>
      match fs with
      | Written =>
          {| exitCode := 0; stderr := []; stdout := ["Wrote " +:+ outPath];
             contrib_svg := Some svg |}
      | ThrowsBeforeWrite e =>
          {| exitCode := 1; stderr := [e]; stdout := []; contrib_svg := file0 |}
      | WriteThrows e remains =>
          {| exitCode := 1; stderr := [e]; stdout := []; contrib_svg := remains |}
      end
  | inl e =>
      {| exitCode := 1; stderr := [e]; stdout := []; contrib_svg := file0 |}
  end.

(** The async IIFE of scripts/build-contrib.js; [None] when the run is
    outside the model: [fuel] does not suffice for the loop of
    [dateRangeMap], or the merged object holds a string. *)
Definition main (fuel : nat) (fs : FileSystem) (file0 : option string)
    (gh_reply : exn + Response (option (list Week)))
    (gl_reply : exn + Response (option (gmap string Z)))
    (gh_first : bool) : option Outcome :=
  base ← dateRangeMap fuel fromDate today;
  attempt ← pipeline base gh_reply gl_reply gh_first;
  Some (finish fs file0 attempt).

(** The async IIFE of the variant with totals. *)
Definition main_counts (fuel : nat) (fs : FileSystem) (file0 : option string)
    (gh_reply : exn + Response (option (list Week)))
    (gl_reply : exn + Response (option (gmap string Z)))
    (gh_first : bool) : option Outcome :=
  base ← dateRangeMap fuel fromDate today;
  attempt ← pipeline_counts base gh_reply gl_reply gh_first;
  Some (finish fs file0 attempt).
End Run.

(** *** The whole script: the guards, then the driver

    A run either stops at a guard, having printed [message] and left with
    [process.exit(code)] before any request is sent or file touched, or goes
    on to the driver. *)
Inductive ScriptResult : Type :=
  | Aborted (message : string) (code : Z)
  | Completed (o : Outcome).

Definition script (env : gmap string string) (tz : TimeZone) (today : Z) (cwd : string)
    (fuel : nat) (fs : FileSystem) (file0 : option string)
    (gh_reply : exn + Response (option (list Week)))
    (gl_reply : exn + Response (option (gmap string Z)))
    (gh_first : bool) : option ScriptResult :=
  match check_config (GH_USERNAME env) (GITLAB_USERNAME env) (GH_TOKEN env) with
  | Some (message, code) => Some (Aborted message code)
  | None => Completed <$> main tz today cwd fuel fs file0 gh_reply gl_reply gh_first
  end.

Definition script_counts (env : gmap string string) (tz : TimeZone) (today : Z)
    (cwd : string) (fuel : nat) (fs : FileSystem) (file0 : option string)
    (gh_reply : exn + Response (option (list Week)))
    (gl_reply : exn + Response (option (gmap string Z)))
    (gh_first : bool) : option ScriptResult :=
  match check_config GH_USERNAME_counts GITLAB_USERNAME_counts (GH_TOKEN env) with
  | Some (message, code) => Some (Aborted message code)
  | None => Completed <$> main_counts tz today cwd fuel fs file0 gh_reply gl_reply gh_first
  end.

(** ** Vocabulary of the statements *)

(** The first ten characters of [toISOString], from the civil date. *)
Definition isoDate (y m d : Z) : string :=
  if (0 <=? y) && (y <=? 9999) then pad4 y +:+ "-" +:+ pad2 m +:+ "-" +:+ pad2 d
  else (if y <? 0 then "-" else "+") +:+ pad6 (Z.abs y) +:+ "-" +:+ pad2 m.

(** The calendar date string of day number [n] (days since 1970-01-01). *)
Definition isoDay (n : Z) : string := iso (n * msPerDay).

(** The consecutive calendar dates from day [first] through day [last]. *)
Definition calendar_dates (first last : Z) : gset string :=
  list_to_set (isoDay <$> seqZ first (last - first + 1)).

(** The array [arr] of [computeLevels]. *)
Definition sorted_values (values : gmap string Z) : list Z :=
  Array_sort (λ a b, a - b) (Object_values values).

Definition concat_strings (l : list string) : string := foldr String.append "" l.

(** The grid of the renderers: column [w], row [d], and the date, rectangle
    and tooltip of each cell when the cursor advances by 24 hours per cell,
    as it does in a zone with a fixed offset. *)
Definition cell_date (tz : TimeZone) (today w d : Z) : Z :=
  grid_start tz today + (7 * w + d) * msPerDay.

Definition grid_cells (tz : TimeZone) (today : Z) : list (Z * Z) :=
  w ← seqZ 0 (weeks tz today); d ← seqZ 0 7; [(w, d)].

Definition cell_rect (tz : TimeZone) (today : Z) (levels : gmap string Z) (c : Z * Z)
    : string :=
  let '(w, d) := c in
  let key := iso (cell_date tz today w d) in
  let lvl := lookup_or_0 levels key in
  rect (gap + w * (cell + gap)) (gap + d * (cell + gap)) (array_get palette lvl) key lvl.

Definition cell_rect_counts (tz : TimeZone) (today : Z) (levels counts : gmap string Z)
    (c : Z * Z) : string :=
  let '(w, d) := c in
  let key := iso (cell_date tz today w d) in
  let lvl := lookup_or_0 levels key in
  let cnt := lookup_or_0 counts key in
  rect_counts (gap + w * (cell + gap)) (headerH + gap + d * (cell + gap))
              (array_get palette lvl) key cnt.

(** The time-of-day part of [toISOString]. *)
Definition isoTime (t : Z) : string :=
  "T" +:+ pad2 (HourFromTime t) +:+ ":" +:+ pad2 (MinFromTime t) +:+ ":"
    +:+ pad2 (SecFromTime t) +:+ "." +:+ pad3 (msFromTime t) +:+ "Z".

(** The entries of a source for the dates of the base. *)
Definition within (base src : gmap string Z) : gmap string Z :=
  filter (λ kv, is_Some (base !! kv.1)) src.

(** A source none of whose keys is the name of a property that objects
    inherit from [Object.prototype]; a source whose keys are calendar dates
    is one. *)
Definition plain_keys (src : gmap string Z) : Prop :=
  ∀ date, date ∈ dom src → Object_prototype date = None.

(** What a property holding [v] holds after a loop of [mergeCalendars] over
    a source that has [c] for its date ([None]: the source lacks the date). *)
Definition add_count (c : option Z) (v : value) : value := from_option (js_add v) v c.

(** The base with each count increased by what the two sources hold for its
    date. *)
Definition merged_counts (base gh gl : gmap string Z) : gmap string Z :=
  map_imap (λ date b, Some (b + default 0 (gh !! date) + default 0 (gl !! date))) base.



(** An environment variable that is set to a non-empty string. *)
Definition provided (x : option string) : Prop := ∃ s, x = Some s ∧ s ≠ "".

(** A character that may stand in an encoded path segment. *)
Definition url_char (c : ascii) : Prop := uri_unreserved c = true ∨ c = "%"%char.

(** Concrete inputs for the examples below. *)
Definition sample_today : Z := 1709210096789.

(** 2027-11-03T23:30:00Z, which is 19:30 of that day in New York. *)
Definition new_york_evening : Z := 1825284600000.

Definition sample_counts : gmap string Z :=
  <["2024-02-26" := 0]> (<["2024-02-27" := 3]> (<["2024-02-28" := 1]>
    (<["2024-02-29" := 7]> ∅))).

Definition sample_base : gmap string Z :=
  <["2024-02-28" := 0]> (<["2024-02-29" := 0]> ∅).

Definition sample_gh : gmap string Z :=
  <["2024-02-28" := 2]> (<["2023-01-25" := 9]> ∅).

Definition sample_gl : gmap string Z :=
  <["2024-02-28" := 1]> (<["2024-02-29" := 4]> ∅).

Definition reply_403 : exn + Response (option (list Week)) :=
  inr (mkResponse false 403 "Forbidden" (inr None)).

Definition reply_500 : exn + Response (option (gmap string Z)) :=
  inr (mkResponse false 500 "Internal Server Error" (inr None)).

Definition reply_gitlab_ok : exn + Response (option (gmap string Z)) :=
  inr (mkResponse true 200 "{}" (inr (Some ∅))).

Definition sample_env : gmap string string :=
  <["GH_USERNAME" := "octocat"]> (<["GITLAB_USERNAME" := "tanuki"]>
    (<["GH_PAT" := ""]> (<["GITHUB_TOKEN" := "s3cret"]> ∅))).

Definition sample_weeks : list Week :=
  [mkWeek [mkDay "2024-02-28" 2; mkDay "2024-02-29" 1]; mkWeek [mkDay "2024-02-28" 3]].

Definition reply_github_ok : exn + Response (option (list Week)) :=
  inr (mkResponse true 200 "" (inr (Some sample_weeks))).

Ltac divmod := Z.to_euclidean_division_equations; lia.

(** * Properties *)

(** ** The calendar *)

Example iso_epoch : iso 0 = "1970-01-01".
Proof. reflexivity. Qed.

Example iso_leap_day : iso sample_today = "2024-02-29".
Proof. vm_compute. reflexivity. Qed.

Example toISOString_leap_day :
  toISOString sample_today = "2024-02-29T12:34:56.789Z".
Proof. vm_compute. reflexivity. Qed.

Example iso_before_epoch : iso (-1) = "1969-12-31".
Proof. vm_compute. reflexivity. Qed.

Example iso_expanded_year : toISOString 253402300800000 = "+010000-01-01T00:00:00.000Z".
Proof. vm_compute. reflexivity. Qed.

Section Civil.
Variable z : Z.
Let era := (z + 719468) / 146097.
Let doe := z + 719468 - era * 146097.
Let yoe := (doe - doe / 1460 + doe / 36524 - doe / 146096) / 365.
Let doy := doe - (365 * yoe + yoe / 4 - yoe / 100).
Let mp := (5 * doy + 2) / 153.

Lemma doe_range : 0 <= doe <= 146096.
Proof. subst doe era. divmod. Qed.

Lemma yoe_range : 0 <= yoe <= 399.
Proof. pose proof doe_range. subst yoe. divmod. Qed.

Lemma doy_range : 0 <= doy <= 365.
Proof. pose proof doe_range. subst doy yoe. divmod. Qed.

Lemma mp_range : 0 <= mp <= 11.
Proof. pose proof doy_range. subst mp. divmod. Qed.

Lemma civil_from_days_eq :
  civil_from_days z =
    (yoe + era * 400 + (if mp <? 10 then 0 else 1),
     (if mp <? 10 then mp + 3 else mp - 9),
     doy - (153 * mp + 2) / 5 + 1).
Proof.
  unfold civil_from_days. cbv zeta. fold era. fold doe. fold yoe. fold doy. fold mp.
  pose proof mp_range.
  destruct (Z.ltb_spec mp 10); repeat f_equal;
    match goal with |- context [?a <=? 2] => destruct (Z.leb_spec a 2) end; lia.
Qed.

Lemma civil_month_range : 1 <= (civil_from_days z).1.2 <= 12.
Proof.
  rewrite civil_from_days_eq. cbn [fst snd]. pose proof mp_range.
  destruct (Z.ltb_spec mp 10); lia.
Qed.

Lemma civil_day_range : 1 <= (civil_from_days z).2 <= 31.
Proof.
  rewrite civil_from_days_eq. cbn [fst snd]. pose proof doy_range.
  subst mp. divmod.
Qed.

(** [days_from_civil] undoes [civil_from_days], whatever day of the month
    is asked for: the day number is linear in the day of the month. *)
Lemma days_from_civil_from_days (dt : Z) :
  days_from_civil (civil_from_days z).1.1 (civil_from_days z).1.2 dt
  = z + (dt - (civil_from_days z).2).
Proof.
  rewrite civil_from_days_eq. cbn [fst snd].
  pose proof yoe_range as Hyoe. pose proof mp_range as Hmp.
  unfold days_from_civil. cbv zeta.
  set (m := if mp <? 10 then mp + 3 else mp - 9).
  assert (Hm : (if m <=? 2 then 1 else 0) = (if mp <? 10 then 0 else 1)).
  { subst m. destruct (Z.ltb_spec mp 10);
      match goal with |- context [?a <=? 2] => destruct (Z.leb_spec a 2) end; lia. }
  assert (Hmp' : (if 2 <? m then m - 3 else m + 9) = mp).
  { subst m. destruct (Z.ltb_spec mp 10);
      match goal with |- context [2 <? ?a] => destruct (Z.ltb_spec 2 a) end; lia. }
  rewrite Hm, Hmp'.
  replace (yoe + era * 400 + (if mp <? 10 then 0 else 1) - (if mp <? 10 then 0 else 1))
    with (yoe + era * 400) by lia.
  assert (Hera : (yoe + era * 400) / 400 = era) by divmod.
  rewrite Hera.
  replace (yoe + era * 400 - era * 400) with yoe by lia.
  subst doy doe. lia.
Qed.

(** Years 0000 to 9999 are the days from 0000-01-01 to 9999-12-31. *)
Lemma year_of_day_bounds :
  (0 <= (civil_from_days z).1.1 <-> -719528 <= z) ∧
  ((civil_from_days z).1.1 <= 9999 <-> z <= 2932896).
Proof.
  rewrite civil_from_days_eq. cbn [fst snd].
  pose proof doe_range as Hdoe. pose proof yoe_range as Hyoe.
  pose proof doy_range as Hdoy. pose proof mp_range as Hmp.
  assert (Hz : z = era * 146097 + doe - 719468) by (subst doe; lia).
  assert (Hd : doe = 365 * yoe + yoe / 4 - yoe / 100 + doy) by (subst doy; lia).
  clearbody doy doe era.
  destruct (Z.ltb_spec mp 10); subst mp; (split; split; intros; divmod).
Qed.
End Civil.

(** *** Agreement with the definitions of ECMA-262 *)

Lemma DayFromYear_succ y : DayFromYear (y + 1) = DayFromYear y + DaysInYear y.
Proof.
  unfold DayFromYear, DaysInYear.
  repeat match goal with |- context [?a =? ?b] => destruct (Z.eqb_spec a b) end; cbn; divmod.
Qed.

Lemma InLeapYear_range y : 0 <= InLeapYear y <= 1.
Proof. unfold InLeapYear, DaysInYear. repeat case_match; lia. Qed.

Ltac civil_vars z era doe yoe doy mp :=
  pose proof (doe_range z) as Hdoe; pose proof (yoe_range z) as Hyoe;
  pose proof (doy_range z) as Hdoy; pose proof (mp_range z) as Hmp;
  cbv zeta in *;
  set (era := (z + 719468) / 146097) in *;
  set (doe := z + 719468 - era * 146097) in *;
  set (yoe := (doe - doe / 1460 + doe / 36524 - doe / 146096) / 365) in *;
  set (doy := doe - (365 * yoe + yoe / 4 - yoe / 100)) in *;
  set (mp := (5 * doy + 2) / 153) in *;
  assert (Hz : z = era * 146097 + doe - 719468) by (subst doe; lia);
  assert (Hd : doe = 365 * yoe + yoe / 4 - yoe / 100 + doy) by (subst doy; lia);
  assert (Hyoe_def : yoe = (doe - doe / 1460 + doe / 36524 - doe / 146096) / 365) by done;
  assert (Hmp_def : mp = (5 * doy + 2) / 153) by done;
  clearbody mp yoe doy doe era.

(** The year of a day is the year whose first day is the last one not after
    it: YearFromTime. *)
Lemma year_of_day_spec z :
  DayFromYear (civil_from_days z).1.1 <= z < DayFromYear ((civil_from_days z).1.1 + 1).
Proof.
  rewrite civil_from_days_eq. cbn [fst snd]. civil_vars z era doe yoe doy mp.
  unfold DayFromYear.
  destruct (Z.ltb_spec mp 10); split; divmod.
Qed.

(** The month and the day of the month are those of the tables of
    MonthFromTime and DateFromTime. *)
Lemma month_date_of_day_spec z :
  let y := (civil_from_days z).1.1 in
  let dwy := z - DayFromYear y in
  (civil_from_days z).1.2 - 1 = month_of_day_within_year dwy (InLeapYear y) ∧
  (civil_from_days z).2 = date_of_day_within_year dwy (InLeapYear y).
Proof.
  pose proof (year_of_day_spec z) as Hy. rewrite DayFromYear_succ in Hy. revert Hy.
  rewrite civil_from_days_eq. cbn [fst snd]. civil_vars z era doe yoe doy mp.
  set (y := yoe + era * 400 + (if mp <? 10 then 0 else 1)). intros Hy.
  assert (Hdwy : z - DayFromYear y = if mp <? 10 then doy + 59 + InLeapYear y else doy - 306).
  { subst y. unfold InLeapYear, DaysInYear, DayFromYear.
    destruct (Z.ltb_spec mp 10);
      repeat match goal with |- context [?a =? ?b] => destruct (Z.eqb_spec a b) end; cbn;
      divmod. }
  rewrite Hdwy.
  pose proof (InLeapYear_range y) as Hleap.
  assert (Hlast : (if mp <? 10 then doy + 59 + InLeapYear y else doy - 306)
                  < (if mp <? 10 then 365 + InLeapYear y else 59 + InLeapYear y)).
  { destruct (Z.ltb_spec mp 10); [rewrite <- Hdwy; unfold InLeapYear; lia|].
    subst y. unfold InLeapYear, DaysInYear.
    repeat match goal with |- context [?a =? ?b] => destruct (Z.eqb_spec a b) end; cbn;
      divmod. }
  clear Hdwy Hy. generalize dependent (InLeapYear y). intros leap Hleap Hlast.
  assert (Hmonth : month_of_day_within_year
                     (if mp <? 10 then doy + 59 + leap else doy - 306) leap
                   = (if mp <? 10 then mp + 3 else mp - 9) - 1).
  { unfold month_of_day_within_year.
    destruct (Z.ltb_spec mp 10);
      repeat match goal with |- context [?a <? ?b] => destruct (Z.ltb_spec a b) end;
      divmod. }
  split; [done|].
  unfold date_of_day_within_year. rewrite Hmonth.
  assert (Hcases : mp = 0 ∨ mp = 1 ∨ mp = 2 ∨ mp = 3 ∨ mp = 4 ∨ mp = 5 ∨ mp = 6 ∨ mp = 7
                   ∨ mp = 8 ∨ mp = 9 ∨ mp = 10 ∨ mp = 11) by lia.
  destruct Hcases as [E|[E|[E|[E|[E|[E|[E|[E|[E|[E|[E|E]]]]]]]]]]]; rewrite E in *;
    repeat (match goal with
            | |- context [match ?e with _ => _ end] =>
                let v := eval vm_compute in e in progress change e with v
            end; cbv iota);
    divmod.
Qed.

Lemma YearFromTime_spec t :
  DayFromYear (YearFromTime t) <= Day t < DayFromYear (YearFromTime t + 1).
Proof. apply year_of_day_spec. Qed.

Lemma MonthFromTime_spec t :
  MonthFromTime t = month_of_day_within_year (DayWithinYear t) (InLeapYear (YearFromTime t)).
Proof. apply month_date_of_day_spec. Qed.

Lemma DateFromTime_spec t :
  DateFromTime t = date_of_day_within_year (DayWithinYear t) (InLeapYear (YearFromTime t)).
Proof. apply month_date_of_day_spec. Qed.

(** The first day of month [m] of year [y] is mapped back to [(y, m, 1)]:
    [MakeDay] finds the day ECMA-262 asks for. *)
Lemma civil_from_days_first_of_month y m :
  1 <= m <= 12 -> civil_from_days (days_from_civil y m 1) = (y, m, 1).
Proof.
  intros Hm. unfold days_from_civil. cbv zeta.
  set (y' := y - (if m <=? 2 then 1 else 0)).
  set (mp' := if 2 <? m then m - 3 else m + 9).
  set (era' := y' / 400). set (yoe' := y' - era' * 400).
  set (doy' := (153 * mp' + 2) / 5 + 1 - 1).
  set (doe' := yoe' * 365 + yoe' / 4 - yoe' / 100 + doy').
  assert (Hyoe : 0 <= yoe' <= 399) by (subst yoe' era'; divmod).
  assert (Hmp : 0 <= mp' <= 11 ∧ m = (if mp' <? 10 then mp' + 3 else mp' - 9)
                ∧ (if m <=? 2 then 1 else 0) = (if mp' <? 10 then 0 else 1)).
  { subst mp'. destruct (Z.ltb_spec 2 m), (Z.leb_spec m 2); try lia;
      match goal with |- context [?a <? 10] => destruct (Z.ltb_spec a 10) end; lia. }
  destruct Hmp as (Hmp & Hm_eq & Hc).
  assert (Hdoy : 0 <= doy' <= 337 ∧ (5 * doy' + 2) / 153 = mp'
                 ∧ doy' - (153 * mp' + 2) / 5 + 1 = 1).
  { subst doy'. clearbody mp'.
    assert (Hcases : mp' = 0 ∨ mp' = 1 ∨ mp' = 2 ∨ mp' = 3 ∨ mp' = 4 ∨ mp' = 5 ∨ mp' = 6
                     ∨ mp' = 7 ∨ mp' = 8 ∨ mp' = 9 ∨ mp' = 10 ∨ mp' = 11) by lia.
    destruct Hcases as [E|[E|[E|[E|[E|[E|[E|[E|[E|[E|[E|E]]]]]]]]]]]; rewrite E;
      vm_compute; repeat split; congruence. }
  destruct Hdoy as (Hdoy & Hmp_eq & Hd_eq).
  assert (Hdoe : 0 <= doe' <= 146096) by (subst doe'; divmod).
  assert (Hyoe_eq : (doe' - doe' / 1460 + doe' / 36524 - doe' / 146096) / 365 = yoe').
  { subst doe'. clearbody doy' yoe'. divmod. }
  unfold civil_from_days. cbv zeta.
  replace (era' * 146097 + doe' - 719468 + 719468) with (doe' + era' * 146097) by lia.
  assert (Hera : (doe' + era' * 146097) / 146097 = era') by divmod.
  rewrite Hera. replace (doe' + era' * 146097 - era' * 146097) with doe' by lia.
  rewrite Hyoe_eq.
  replace (doe' - (365 * yoe' + yoe' / 4 - yoe' / 100)) with doy' by (subst doe'; lia).
  rewrite Hmp_eq, Hd_eq, <- Hm_eq, Hc.
  f_equal. f_equal. subst yoe' y'. rewrite <- Hc. lia.
Qed.

Lemma Day_add_days t k : Day (t + k * msPerDay) = Day t + k.
Proof. unfold Day, msPerDay. divmod. Qed.

Lemma Day_sub_days t k : Day (t - k * msPerDay) = Day t - k.
Proof. unfold Day, msPerDay. divmod. Qed.

Lemma Day_mul n : Day (n * msPerDay) = n.
Proof. unfold Day, msPerDay. divmod. Qed.

(** [MakeDay year month date], for a month index 0..11, is [date - 1] days
    after the day [t] with YearFromTime(t) = year, MonthFromTime(t) = month
    and DateFromTime(t) = 1. *)
Lemma MakeDay_spec year month date :
  0 <= month <= 11 ->
  let t := (MakeDay year month date - (date - 1)) * msPerDay in
  YearFromTime t = year ∧ MonthFromTime t = month ∧ DateFromTime t = 1.
Proof.
  intros Hm t. subst t. unfold MakeDay, YearFromTime, MonthFromTime, DateFromTime.
  cbv zeta. rewrite Day_mul.
  replace (month / 12) with 0 by divmod. replace (month mod 12) with month by divmod.
  replace (days_from_civil (year + 0) (month + 1) 1 + date - 1 - (date - 1))
    with (days_from_civil (year + 0) (month + 1) 1) by lia.
  rewrite civil_from_days_first_of_month by lia. cbn [fst snd]. lia.
Qed.

Lemma TimeWithinDay_sub_days t k : TimeWithinDay (t - k * msPerDay) = TimeWithinDay t.
Proof. unfold TimeWithinDay, msPerDay. divmod. Qed.

Lemma TimeWithinDay_range t : 0 <= TimeWithinDay t < msPerDay.
Proof. unfold TimeWithinDay, msPerDay. divmod. Qed.

Lemma Day_TimeWithinDay t : Day t * msPerDay + TimeWithinDay t = t.
Proof. unfold Day, TimeWithinDay, msPerDay. divmod. Qed.

Lemma MakeDay_of_time t dt :
  MakeDay (YearFromTime t) (MonthFromTime t) dt = Day t + (dt - DateFromTime t).
Proof.
  unfold MakeDay, YearFromTime, MonthFromTime, DateFromTime. cbv zeta.
  pose proof (civil_month_range (Day t)) as Hm.
  set (c := civil_from_days (Day t)) in *.
  replace ((c.1.2 - 1) / 12) with 0 by divmod.
  replace ((c.1.2 - 1) mod 12 + 1) with (c.1.2) by divmod.
  rewrite Z.add_0_r. subst c. rewrite days_from_civil_from_days. lia.
Qed.

(** New York around the two transitions of 2026: at 01:59 and 03:00 local
    time on 8 March (06:59Z and 07:00Z), and at 01:59 daylight time and
    01:00 standard time on 1 November (05:59Z and 06:00Z); a local time that
    the first transition skips or the second repeats is read with the offset
    before the transition. *)
Example America_New_York_sample :
  toISOString (LocalTime America_New_York 1772953140000) = "2026-03-08T01:59:00.000Z" ∧
  toISOString (LocalTime America_New_York 1772953200000) = "2026-03-08T03:00:00.000Z" ∧
  toISOString (LocalTime America_New_York 1793512740000) = "2026-11-01T01:59:00.000Z" ∧
  toISOString (LocalTime America_New_York 1793512800000) = "2026-11-01T01:00:00.000Z" ∧
  America_New_York (1772935200000 + 30 * msPerMinute) false = -5 * msPerHour ∧
  America_New_York (1793494800000 + 30 * msPerMinute) false = -4 * msPerHour ∧
  toISOString 1772935200000 = "2026-03-08T02:00:00.000Z" ∧
  toISOString 1793494800000 = "2026-11-01T01:00:00.000Z".
Proof. repeat split; vm_compute; reflexivity. Qed.

(** In New York a day of local time is not always 24 hours: the driver's
    [fromDate], 364 local days before 2027-11-03T23:30Z, is an hour more
    than 364 days back. *)
Example fromDate_New_York :
  getDate America_New_York new_york_evening = 3 ∧
  fromDate America_New_York new_york_evening
  = new_york_evening - 364 * msPerDay + msPerHour.
Proof. split; vm_compute; reflexivity. Qed.

(** [d.setDate(d.getDate() + k)] moves [d] by [k] whole days, whatever the
    (fixed) offset of local time. *)
Lemma setDate_getDate tz d k :
  setDate (fixedOffset tz) d (getDate (fixedOffset tz) d + k) = d + k * msPerDay.
Proof.
  unfold setDate, getDate, MakeDate, UTC, LocalTime, fixedOffset. cbv zeta.
  rewrite MakeDay_of_time.
  pose proof (Day_TimeWithinDay (d + tz)). lia.
Qed.

Lemma setDate_getDate_minus tz d k :
  setDate (fixedOffset tz) d (getDate (fixedOffset tz) d - k) = d - k * msPerDay.
Proof.
  replace (getDate (fixedOffset tz) d - k) with (getDate (fixedOffset tz) d + - k) by lia.
  rewrite setDate_getDate. lia.
Qed.

Lemma WeekDay_range t : 0 <= WeekDay t <= 6.
Proof. unfold WeekDay. divmod. Qed.

Lemma WeekDay_add_days t k : WeekDay (t + k * msPerDay) = (WeekDay t + k) mod 7.
Proof. unfold WeekDay. rewrite Day_add_days. divmod. Qed.

(** Going back by the week day reaches the Sunday on or before [t]. *)
Lemma sunday_on_or_before t :
  WeekDay (t - WeekDay t * msPerDay) = 0 ∧
  Day t - 6 <= Day (t - WeekDay t * msPerDay) <= Day t.
Proof.
  pose proof (WeekDay_range t) as Hr. rewrite Day_sub_days. split; [|lia].
  replace (t - WeekDay t * msPerDay) with (t + (- WeekDay t) * msPerDay) by lia.
  rewrite WeekDay_add_days.
  replace (WeekDay t + - WeekDay t) with 0 by lia. done.
Qed.

(** Going forward by six minus the week day reaches the Saturday on or
    after [t]. *)
Lemma saturday_on_or_after t :
  WeekDay (t + (6 - WeekDay t) * msPerDay) = 6 ∧
  Day t <= Day (t + (6 - WeekDay t) * msPerDay) <= Day t + 6.
Proof.
  pose proof (WeekDay_range t) as Hr.
  rewrite WeekDay_add_days, Day_add_days. split; [|lia].
  replace (WeekDay t + (6 - WeekDay t)) with 6 by lia. done.
Qed.

(** ** Date strings *)

Ltac abstract_digits :=
  repeat match goal with
         | |- context [digit ?x] => let c := fresh "c" in generalize (digit x); intros c
         end.

Lemma iso_isoDate t :
  iso t = isoDate (YearFromTime t) (MonthFromTime t + 1) (DateFromTime t).
Proof.
  unfold iso, toISOString, isoDate, isoYear.
  generalize (YearFromTime t) (MonthFromTime t + 1) (DateFromTime t)
             (HourFromTime t) (MinFromTime t) (SecFromTime t) (msFromTime t).
  intros y m d hh mm ss ms.
  destruct ((0 <=? y) && (y <=? 9999)); [|destruct (y <? 0)];
    unfold pad6, pad4, pad3, pad2; abstract_digits; reflexivity.
Qed.

(** The date string depends on the day number only. *)
Lemma iso_isoDay t : iso t = isoDay (Day t).
Proof.
  unfold isoDay. rewrite !iso_isoDate.
  unfold YearFromTime, MonthFromTime, DateFromTime. by rewrite Day_mul.
Qed.

Lemma digit_inj a b : digit a = digit b -> a mod 10 = b mod 10.
Proof.
  unfold digit. intros H. apply (f_equal N_of_ascii) in H.
  rewrite !N_ascii_embedding in H by divmod.
  divmod.
Qed.

Lemma date_string_inj y1 m1 d1 y2 m2 d2 :
  0 <= y1 < 10000 -> 0 <= y2 < 10000 -> 0 <= m1 < 100 -> 0 <= m2 < 100 ->
  0 <= d1 < 100 -> 0 <= d2 < 100 ->
  pad4 y1 +:+ "-" +:+ pad2 m1 +:+ "-" +:+ pad2 d1
    = pad4 y2 +:+ "-" +:+ pad2 m2 +:+ "-" +:+ pad2 d2 ->
  y1 = y2 ∧ m1 = m2 ∧ d1 = d2.
Proof.
  intros Hy1 Hy2 Hm1 Hm2 Hd1 Hd2 H.
  unfold pad4, pad3, pad2 in H. cbn [String.append] in H.
  injection H as Y1 Y2 Y3 Y4 M1 M2 D1 D2.
  apply digit_inj in Y1, Y2, Y3, Y4, M1, M2, D1, D2.
  repeat split; divmod.
Qed.

(** Within the years 0000 to 9999 distinct days have distinct strings. *)
Lemma isoDay_inj n1 n2 :
  -719528 <= n1 <= 2932896 -> -719528 <= n2 <= 2932896 -> isoDay n1 = isoDay n2 -> n1 = n2.
Proof.
  intros H1 H2. unfold isoDay. rewrite !iso_isoDate.
  unfold YearFromTime, MonthFromTime, DateFromTime. rewrite !Day_mul.
  pose proof (year_of_day_bounds n1) as [Hl1 Hu1].
  pose proof (year_of_day_bounds n2) as [Hl2 Hu2].
  pose proof (civil_month_range n1) as Hm1. pose proof (civil_month_range n2) as Hm2.
  pose proof (civil_day_range n1) as Hd1. pose proof (civil_day_range n2) as Hd2.
  pose proof (days_from_civil_from_days n1 (civil_from_days n1).2) as R1.
  pose proof (days_from_civil_from_days n2 (civil_from_days n2).2) as R2.
  revert Hl1 Hu1 Hl2 Hu2 Hm1 Hm2 Hd1 Hd2 R1 R2.
  generalize (civil_from_days n1) (civil_from_days n2).
  intros [[y1 m1] d1] [[y2 m2] d2]. cbn [fst snd].
  intros Hl1 Hu1 Hl2 Hu2 Hm1 Hm2 Hd1 Hd2 R1 R2 E. unfold isoDate in E.
  rewrite !(proj2 (andb_true_iff _ _)) in E by (split; apply Z.leb_le; lia).
  apply date_string_inj in E as (-> & Em & ->); try lia.
  assert (m1 = m2) as -> by lia. lia.
Qed.

Lemma calendar_dates_size first last :
  -719528 <= first -> last <= 2932896 -> first <= last + 1 ->
  size (calendar_dates first last) = Z.to_nat (last - first + 1).
Proof.
  intros Hlo Hhi Hle. unfold calendar_dates. rewrite size_list_to_set.
  - by rewrite length_fmap, length_seqZ.
  - apply NoDup_fmap_2_strong; [|apply NoDup_seqZ].
    intros n1 n2 H1%elem_of_seqZ H2%elem_of_seqZ. apply isoDay_inj; lia.
Qed.

Lemma year_lower t : 0 <= YearFromTime t <-> -719528 <= Day t.
Proof. unfold YearFromTime. apply year_of_day_bounds. Qed.

Lemma year_upper t : YearFromTime t <= 9999 <-> Day t <= 2932896.
Proof. unfold YearFromTime. apply year_of_day_bounds. Qed.

(** ** [computeLevels] *)

(** The comparator [(a, b) => a - b] orders numbers ascending. *)
Lemma precedes_minus a b : precedes (λ a b, a - b) a b <-> a <= b.
Proof. unfold precedes. lia. Qed.

#[local] Instance precedes_minus_total : Total (precedes (λ a b, a - b)).
Proof. intros a b. unfold precedes. lia. Qed.

#[local] Instance precedes_minus_trans : Transitive (precedes (λ a b, a - b)).
Proof. intros a b c. unfold precedes. lia. Qed.

Lemma Array_sort_sorted arr : StronglySorted Z.le (Array_sort (λ a b, a - b) arr).
Proof.
  unfold Array_sort.
  pose proof (StronglySorted_merge_sort (precedes (λ a b, a - b)) arr) as H.
  induction H as [|x l Hl IH Hx]; constructor; [done|].
  eapply Forall_impl; [exact Hx|]. intros y. apply precedes_minus.
Qed.

Lemma Array_sort_perm cmp arr : Array_sort cmp arr ≡ₚ arr.
Proof. apply merge_sort_Permutation. Qed.

Example Array_sort_example :
  Array_sort (λ a b, a - b) [5; 3; 9; 1; 0; 0; 2] = [0; 0; 1; 2; 3; 5; 9].
Proof. reflexivity. Qed.


(** [arr.sort((a, b) => a - b)] is the ascending arrangement of [arr],
    whatever algorithm the engine runs. *)
Lemma Array_sort_unique arr sorted :
  Sorted Z.le sorted -> sorted ≡ₚ arr -> sorted = Array_sort (λ a b, a - b) arr.
Proof.
  intros Hs Hp. apply (Sorted_unique Z.le); [done| |].
  - apply StronglySorted_Sorted, Array_sort_sorted.
  - by rewrite Hp, Array_sort_perm.
Qed.

Lemma Array_sort_proper arr1 arr2 :
  arr1 ≡ₚ arr2 -> Array_sort (λ a b, a - b) arr1 = Array_sort (λ a b, a - b) arr2.
Proof.
  intros Hp. apply Array_sort_unique.
  - apply StronglySorted_Sorted, Array_sort_sorted.
  - by rewrite Array_sort_perm.
Qed.

(** An enumeration [es] of the entries of [o], in any order. *)
Lemma entries_elem (o : gmap string Z) es k v :
  es ≡ₚ Object_entries o -> (k, v) ∈ es <-> o !! k = Some v.
Proof. intros ->. apply elem_of_map_to_list. Qed.

Lemma entries_NoDup (o : gmap string Z) es : es ≡ₚ Object_entries o -> NoDup es.*1.
Proof. intros ->. apply NoDup_fst_map_to_list. Qed.

(** The loop of [computeLevels] builds the map of the classified values,
    in whatever order the entries are enumerated. *)
Lemma foldl_insert_lookup_entries (f : Z -> Z) (o : gmap string Z) es k :
  es ≡ₚ Object_entries o ->
  foldl (λ (levels : gmap string Z) '(k, v), <[k := f v]> levels) ∅ es !! k = f <$> o !! k.
Proof.
  intros Hes. pose proof (entries_NoDup o es Hes) as Hnd.
  assert (Hin : ∀ v, (k, v) ∈ es <-> o !! k = Some v)
    by (intros v; by apply entries_elem).
  clear Hes. revert o Hnd Hin.
  induction es as [|[k' v'] l IH] using rev_ind; intros o Hnd Hin.
  - cbn. rewrite lookup_empty. destruct (o !! k) as [v|] eqn:E; [|done].
    exfalso. apply (elem_of_nil (k, v)). by apply Hin.
  - rewrite foldl_app. cbn [foldl].
    rewrite fmap_app in Hnd. apply NoDup_app in Hnd as (Hnd & Hfresh & _).
    destruct (decide (k' = k)) as [->|Hne].
    + rewrite lookup_insert_eq. rewrite (proj1 (Hin v')); [done|].
      apply elem_of_app. right. by apply list_elem_of_singleton.
    + rewrite lookup_insert_ne by done.
      apply IH; [done|]. intros v. rewrite <- Hin.
      rewrite elem_of_app, list_elem_of_singleton.
      split; [by left|]. intros [?|[=]]; [done|]. congruence.
Qed.

Lemma foldl_insert_lookup (f : Z -> Z) (o : gmap string Z) k :
  foldl (λ (levels : gmap string Z) '(k, v), <[k := f v]> levels) ∅ (Object_entries o) !! k
  = f <$> o !! k.
Proof. by apply foldl_insert_lookup_entries. Qed.

Lemma sorted_values_length values : length (sorted_values values) = size values.
Proof.
  unfold sorted_values. rewrite (Permutation_length (Array_sort_perm _ _)).
  unfold Object_values. rewrite length_fmap. apply length_map_to_list.
Qed.

Lemma computeLevels_lookup values k :
  computeLevels values !! k =
    level (array_get (sorted_values values) (Math_floor_mul (Z.of_nat (size values) - 1) 1 4))
          (array_get (sorted_values values) (Math_floor_mul (Z.of_nat (size values) - 1) 1 2))
          (array_get (sorted_values values) (Math_floor_mul (Z.of_nat (size values) - 1) 3 4))
      <$> values !! k.
Proof.
  unfold computeLevels. cbv zeta. rewrite foldl_insert_lookup.
  fold (sorted_values values). by rewrite sorted_values_length.
Qed.

(** The result does not depend on the order in which the engine enumerates
    the properties of [values]. *)
Lemma computeLevels_any_order values es :
  es ≡ₚ Object_entries values ->
  (let arr := Array_sort (λ a b, a - b) es.*2 in
   let q := λ num den, array_get arr (Math_floor_mul (Z.of_nat (length arr) - 1) num den) in
   let q1 := q 1 4 in
   let q2 := q 1 2 in
   let q3 := q 3 4 in
   foldl (λ (levels : gmap string Z) '(k, v), <[k := level q1 q2 q3 v]> levels) ∅ es)
  = computeLevels values.
Proof.
  intros Hes. cbv zeta.
  assert (Array_sort (λ a b, a - b) es.*2 = sorted_values values) as ->.
  { unfold sorted_values, Object_values. apply Array_sort_proper.
    by rewrite Hes. }
  apply map_eq. intros k.
  rewrite (foldl_insert_lookup_entries _ values es k Hes), computeLevels_lookup.
  by rewrite sorted_values_length.
Qed.

Lemma level_range q1 q2 q3 v : 0 <= level q1 q2 q3 v <= 4.
Proof. unfold level. repeat case_match; lia. Qed.


Lemma Object_values_elem values v :
  v ∈ Object_values values <-> ∃ k, values !! k = Some v.
Proof.
  unfold Object_values. rewrite list_elem_of_fmap. split.
  - intros ([k v'] & -> & Hin). exists k. by apply elem_of_map_to_list.
  - intros (k & Hk). exists (k, v). split; [done|]. by apply elem_of_map_to_list.
Qed.

Lemma quantile_lookup values num den :
  0 <= num <= den -> 0 < den -> (0 < size values)%nat ->
  ∃ q, array_get (sorted_values values)
         (Math_floor_mul (Z.of_nat (size values) - 1) num den) = Some q
       ∧ sorted_values values !! Z.to_nat ((Z.of_nat (size values) - 1) * num / den) = Some q
       ∧ ∃ k, values !! k = Some q.
Proof.
  intros Hnum Hden Hsz. unfold array_get, Math_floor_mul.
  set (n := Z.of_nat (size values)). assert (1 <= n) by lia.
  assert (0 <= (n - 1) * num / den <= n - 1) as Hidx.
  { split; [apply Z.div_pos; nia|]. apply Z.div_le_upper_bound; nia. }
  destruct (Z.ltb_spec ((n - 1) * num / den) 0); [lia|].
  destruct (sorted_values values !! Z.to_nat ((n - 1) * num / den)) as [q|] eqn:E.
  - exists q. repeat split; try done. apply Object_values_elem.
    rewrite <- (Array_sort_perm (λ a b, a - b)). eapply list_elem_of_lookup_2, E.
  - apply lookup_ge_None in E. rewrite sorted_values_length in E. lia.
Qed.




(** A decidable check of a property of all values, for concrete maps. *)
Lemma values_forallb (P : Z -> bool) (values : gmap string Z) :
  forallb P (Object_values values) = true -> ∀ k v, values !! k = Some v -> P v = true.
Proof.
  intros H k v Hk. rewrite forallb_forall in H. apply H.
  apply list_elem_of_In, Object_values_elem. eauto.
Qed.

Example computeLevels_sample :
  sorted_values sample_counts = [0; 1; 3; 7] ∧
  computeLevels sample_counts !! "2024-02-26" = Some 0 ∧
  computeLevels sample_counts !! "2024-02-27" = Some 3 ∧
  computeLevels sample_counts !! "2024-02-28" = Some 2 ∧
  computeLevels sample_counts !! "2024-02-29" = Some 4 ∧
  computeLevels sample_counts !! "2024-03-01" = None.
Proof. repeat split; reflexivity. Qed.

(** One active day among idle ones: all cut points are 0, the active day
    gets level 4 and the idle days level 0. *)
Example computeLevels_outlier :
  let values : gmap string Z :=
    <["2024-01-01" := 5]> (<["2024-01-02" := 0]> (<["2024-01-03" := 0]>
      (<["2024-01-04" := 0]> ∅))) in
  sorted_values values = [0; 0; 0; 5] ∧
  computeLevels values !! "2024-01-01" = Some 4 ∧
  computeLevels values !! "2024-01-02" = Some 0.
Proof. repeat split; reflexivity. Qed.

(** With no entry there is no cut point ([arr[-1]] is [undefined]) and
    nothing to classify. *)
Example computeLevels_empty : computeLevels ∅ = ∅.
Proof. reflexivity. Qed.







Lemma palette_in_bounds lvl : 0 <= lvl <= 4 -> is_Some (array_get palette lvl).
Proof.
  intros H. unfold array_get. destruct (Z.ltb_spec lvl 0); [lia|].
  apply lookup_lt_is_Some. cbn. lia.
Qed.


(** ** [mergeCalendars] *)

Lemma get_property_plain (o : gmap string value) name :
  Object_prototype name = None -> get_property o name = o !! name.
Proof. intros H. unfold get_property. rewrite H. by destruct (o !! name). Qed.

Lemma get_property_own (o : gmap string value) name v :
  o !! name = Some v -> get_property o name = Some v.
Proof. intros H. unfold get_property. by rewrite H. Qed.

Lemma set_property_insert (o : gmap string value) name v :
  is_Some (o !! name) ∨ Object_prototype name = None ->
  set_property o name v = <[name := v]> o.
Proof.
  intros H. unfold set_property.
  destruct (String.eqb_spec name "__proto__") as [->|]; [|done].
  case_bool_decide as Hn; [|done]. destruct H as [[? H]|H]; [congruence|].
  by vm_compute in H.
Qed.

(** One step of a loop of [mergeCalendars], seen from a property [k]: it is
    as the map lookup tells, for a date that is an own property and for a
    date that is not the name of an inherited one. *)
Lemma merge_entry_lookup (base : gmap string value) date cnt k :
  is_Some (base !! k) ∨ Object_prototype date = None ->
  merge_entry base (date, cnt) !! k
  = (λ b, if decide (date = k) then js_add b cnt else b) <$> base !! k.
Proof.
  intros H. unfold merge_entry. destruct (decide (date = k)) as [->|Hne].
  - destruct (base !! k) as [b|] eqn:E.
    + rewrite (get_property_own _ _ _ E).
      rewrite set_property_insert by (left; by rewrite E).
      by rewrite lookup_insert_eq.
    + destruct H as [[? [=]]|H]. rewrite get_property_plain, E by done. by rewrite E.
  - assert (R : (λ b : value, b) <$> base !! k = base !! k) by (by destruct (base !! k)).
    rewrite R. destruct (get_property base date) as [b|]; [|done].
    unfold set_property. destruct (_ && _); [done|]. by rewrite lookup_insert_ne.
Qed.

(** One loop of [mergeCalendars] adds to a date of [base] the count its
    source has for it, in whatever order the entries of the source are
    enumerated; it creates no key when no key of the source is the name of
    an inherited property. *)
Lemma merge_loop_lookup_entries (base : gmap string value) (src : gmap string Z) es k :
  es ≡ₚ Object_entries src ->
  is_Some (base !! k) ∨ plain_keys src ->
  foldl merge_entry base es !! k = add_count (src !! k) <$> base !! k.
Proof.
  intros Hes Hk. pose proof (entries_NoDup src es Hes) as Hnd.
  assert (Hin : ∀ v, (k, v) ∈ es <-> src !! k = Some v)
    by (intros v; by apply entries_elem).
  assert (Hplain : is_Some (base !! k) ∨ Forall (λ e, Object_prototype e.1 = None) es).
  { destruct Hk as [Hk|Hk]; [by left|right]. apply Forall_forall. intros [k' v'] Hin'.
    apply Hk, elem_of_dom. exists v'. by apply (entries_elem src es). }
  clear Hes Hk. revert src Hnd Hin Hplain.
  induction es as [|[k' v'] l IH] using rev_ind; intros src Hnd Hin Hplain.
  - cbn. destruct (src !! k) as [v|] eqn:E.
    + exfalso. apply (elem_of_nil (k, v)). by apply Hin.
    + by destruct (base !! k).
  - rewrite foldl_app. cbn [foldl].
    rewrite fmap_app in Hnd. apply NoDup_app in Hnd as (Hnd & Hfresh & _).
    assert (Hplain' : is_Some (base !! k) ∨ Forall (λ e, Object_prototype e.1 = None) l).
    { destruct Hplain as [?|[? _]%Forall_app]; [by left|by right]. }
    assert (Hstep : ∀ src' : gmap string Z,
              foldl merge_entry base l !! k = add_count (src' !! k) <$> base !! k ->
              is_Some (foldl merge_entry base l !! k) ∨ Object_prototype k' = None).
    { intros src' E. destruct Hplain as [Hs|[_ Hp]%Forall_app].
      - left. rewrite E. by apply fmap_is_Some.
      - right. by inversion Hp. }
    destruct (decide (k' = k)) as [->|Hne].
    + assert (E : foldl merge_entry base l !! k = add_count (delete k src !! k) <$> base !! k).
      { apply IH; [done| |done].
        intros v. rewrite lookup_delete_eq. split; [|done].
        intros Hkv. exfalso. apply (Hfresh k).
        - apply list_elem_of_fmap. by exists (k, v).
        - cbn. by apply list_elem_of_singleton. }
      rewrite merge_entry_lookup by (by eapply Hstep). rewrite E.
      rewrite lookup_delete_eq. rewrite (proj1 (Hin v')).
      * destruct (base !! k) as [b|]; [|done]. cbn. by rewrite decide_True.
      * apply elem_of_app. right. by apply list_elem_of_singleton.
    + assert (E : foldl merge_entry base l !! k = add_count (src !! k) <$> base !! k).
      { apply IH; [done| |done].
        intros v. rewrite <- Hin. rewrite elem_of_app, list_elem_of_singleton.
        split; [by left|]. intros [?|[=]]; [done|]. congruence. }
      rewrite merge_entry_lookup by (by eapply Hstep). rewrite E.
      destruct (base !! k) as [b|]; [|done]. cbn. by rewrite decide_False.
Qed.

Lemma mergeCalendars_lookup_entries (base : gmap string value) (gh gl : gmap string Z)
    es_gh es_gl k :
  es_gh ≡ₚ Object_entries gh -> es_gl ≡ₚ Object_entries gl ->
  is_Some (base !! k) ∨ (plain_keys gh ∧ plain_keys gl) ->
  foldl merge_entry (foldl merge_entry base es_gh) es_gl !! k
  = (λ b, add_count (gl !! k) (add_count (gh !! k) b)) <$> base !! k.
Proof.
  intros Hgh Hgl Hk.
  assert (E : foldl merge_entry base es_gh !! k = add_count (gh !! k) <$> base !! k).
  { apply merge_loop_lookup_entries; [done|]. destruct Hk as [?|[? _]]; [by left|by right]. }
  rewrite (merge_loop_lookup_entries _ gl es_gl k Hgl).
  - rewrite E. by destruct (base !! k).
  - destruct Hk as [Hk|[_ ?]]; [left|by right]. rewrite E. by apply fmap_is_Some.
Qed.

Lemma mergeCalendars_lookup (base : gmap string value) (gh gl : gmap string Z) k :
  is_Some (base !! k) ∨ (plain_keys gh ∧ plain_keys gl) ->
  mergeCalendars base gh gl !! k
  = (λ b, add_count (gl !! k) (add_count (gh !! k) b)) <$> base !! k.
Proof. by apply mergeCalendars_lookup_entries. Qed.

(** With numbers in the base, the order in which the entries of the sources
    are enumerated does not matter. *)
Lemma mergeCalendars_any_order (base gh gl : gmap string Z) es_gh es_gl :
  plain_keys gh -> plain_keys gl ->
  es_gh ≡ₚ Object_entries gh -> es_gl ≡ₚ Object_entries gl ->
  foldl merge_entry (foldl merge_entry (Num <$> base) es_gh) es_gl
  = mergeCalendars (Num <$> base) gh gl.
Proof.
  intros Pgh Pgl Hgh Hgl. apply map_eq. intros k.
  rewrite (mergeCalendars_lookup_entries _ gh gl) by (done || by right).
  by rewrite mergeCalendars_lookup by (by right).
Qed.

Lemma merged_counts_lookup (base gh gl : gmap string Z) k :
  merged_counts base gh gl !! k
  = (λ b, b + default 0 (gh !! k) + default 0 (gl !! k)) <$> base !! k.
Proof. unfold merged_counts. rewrite map_lookup_imap. by destruct (base !! k). Qed.

Lemma merged_counts_dom (base gh gl : gmap string Z) :
  dom (merged_counts base gh gl) = dom base.
Proof.
  apply set_eq. intros k. rewrite !elem_of_dom, merged_counts_lookup. by rewrite fmap_is_Some.
Qed.

Lemma add_count_Num gh gl b :
  add_count gl (add_count gh (Num b)) = Num (b + default 0 gh + default 0 gl).
Proof. destruct gh, gl; cbn; f_equal; lia. Qed.

(** The dates of a base of numbers get the two counts added, whatever the
    sources. *)
Lemma mergeCalendars_lookup_own (base gh gl : gmap string Z) k b :
  base !! k = Some b ->
  mergeCalendars (Num <$> base) gh gl !! k
  = Some (Num (b + default 0 (gh !! k) + default 0 (gl !! k))).
Proof.
  intros Hb. rewrite mergeCalendars_lookup.
  - rewrite lookup_fmap, Hb. cbn. by rewrite add_count_Num.
  - left. rewrite lookup_fmap, Hb. by eexists.
Qed.

(** Without inherited names among the keys of the sources, the merged
    object holds numbers only: the counts of the base, each increased by
    what the sources hold for its date. *)
Lemma mergeCalendars_merged_counts (base gh gl : gmap string Z) :
  plain_keys gh -> plain_keys gl ->
  mergeCalendars (Num <$> base) gh gl = Num <$> merged_counts base gh gl.
Proof.
  intros Pgh Pgl. apply map_eq. intros k.
  rewrite mergeCalendars_lookup by (by right).
  rewrite !lookup_fmap, merged_counts_lookup.
  destruct (base !! k) as [b|]; [|done]. cbn. by rewrite add_count_Num.
Qed.

Lemma numbers_Num (m : gmap string Z) : numbers (Num <$> m) = Some m.
Proof.
  unfold numbers. rewrite decide_True.
  - f_equal. apply map_eq. intros k. rewrite lookup_omap, lookup_fmap.
    by destruct (m !! k).
  - intros k v. rewrite lookup_fmap. destruct (m !! k); intros [= <-]. by eexists.
Qed.

Lemma numbers_Some (o : gmap string value) (m : gmap string Z) :
  numbers o = Some m <-> o = Num <$> m.
Proof.
  split; [|intros ->; apply numbers_Num].
  unfold numbers. case_decide as H; [|done]. intros [= <-].
  apply map_eq. intros k. rewrite lookup_fmap, lookup_omap.
  destruct (o !! k) as [v|] eqn:E; [|done]. destruct (H k v E) as [n Hn].
  destruct v; [done|discriminate Hn].
Qed.

Lemma mergeCalendars_numbers (base gh gl : gmap string Z) :
  plain_keys gh -> plain_keys gl ->
  numbers (mergeCalendars (Num <$> base) gh gl) = Some (merged_counts base gh gl).
Proof. intros Pgh Pgl. rewrite mergeCalendars_merged_counts by done. apply numbers_Num. Qed.

Lemma plain_keys_empty : plain_keys ∅.
Proof. intros k Hk. by rewrite dom_empty in Hk. Qed.

(** A source passes when its keys, run through the test, all do. *)
Lemma plain_keys_check (src : gmap string Z) :
  forallb (λ e, bool_decide (Object_prototype e.1 = None)) (map_to_list src) = true ->
  plain_keys src.
Proof.
  intros H k [v Hk]%elem_of_dom. rewrite forallb_forall in H.
  specialize (H (k, v)). cbn in H. apply bool_decide_eq_true in H; [done|].
  apply list_elem_of_In. by apply elem_of_map_to_list.
Qed.

Lemma plain_keys_subseteq (src src' : gmap string Z) :
  src' ⊆ src -> plain_keys src -> plain_keys src'.
Proof.
  intros Hsub H k [v Hk]%elem_of_dom. apply H, elem_of_dom. exists v.
  by eapply lookup_weaken.
Qed.

(** A calendar date, as [iso] writes it, is not the name of an inherited
    property: it starts with a digit or a sign. *)
Lemma Object_prototype_not_letter (c : ascii) (s : string) :
  (N_of_ascii c < 65)%N -> Object_prototype (String c s) = None.
Proof.
  intros Hc. unfold Object_prototype.
  rewrite bool_decide_eq_false_2.
  - destruct (String.eqb_spec (String c s) "constructor") as [[= -> _]|_]; [by vm_compute in Hc|].
    destruct (String.eqb_spec (String c s) "__proto__") as [[= -> _]|_]; [|done].
    by vm_compute in Hc.
  - intros Hin.
    repeat (apply elem_of_cons in Hin as [[= -> _]|Hin]; [by vm_compute in Hc|]).
    by apply elem_of_nil in Hin.
Qed.

Lemma digit_code n : N_of_ascii (digit n) = (48 + Z.to_N (n mod 10))%N.
Proof. unfold digit. apply N_ascii_embedding. divmod. Qed.

Lemma iso_plain t : Object_prototype (iso t) = None.
Proof.
  rewrite iso_isoDate. unfold isoDate.
  destruct ((0 <=? YearFromTime t) && (YearFromTime t <=? 9999)).
  - unfold pad4. apply Object_prototype_not_letter. rewrite digit_code. divmod.
  - by destruct (YearFromTime t <? 0).
Qed.

Example mergeCalendars_sample :
  mergeCalendars (Num <$> sample_base) sample_gh sample_gl !! "2024-02-28" = Some (Num 3) ∧
  mergeCalendars (Num <$> sample_base) sample_gh sample_gl !! "2024-02-29" = Some (Num 4) ∧
  mergeCalendars (Num <$> sample_base) sample_gh sample_gl !! "2023-01-25" = None ∧
  numbers (mergeCalendars (Num <$> sample_base) sample_gh sample_gl)
  = Some (<["2024-02-28" := 3]> (<["2024-02-29" := 4]> ∅)).
Proof. repeat split; vm_compute; reflexivity. Qed.

Lemma sample_plain : plain_keys sample_gh ∧ plain_keys sample_gl.
Proof. split; by apply plain_keys_check. Qed.

Lemma sample_base_zero : ∀ date b, sample_base !! date = Some b -> b = 0.
Proof. intros k v Hk. apply (values_forallb (λ v, v =? 0)) in Hk; [lia|reflexivity]. Qed.

(** C3, as amended.  For a zeroed base range and any two fetched maps,
    [mergeCalendars] binds every date of the base to the sum of the two
    sources' counts for that date (0 for a source without the date).  When
    no key of the sources is the name of a property that objects inherit
    from [Object.prototype], as when the keys are calendar dates, the result
    has exactly the keys of the base and holds numbers only, and entries of
    the sources for dates outside the base change nothing: two pairs of such
    sources that agree on the dates of the base merge to the same map. *)
Theorem mergeCalendars_sums (base gh gl : gmap string Z) :
  (∀ date b, base !! date = Some b -> b = 0) ->
  (∀ date, date ∈ dom base ->
     mergeCalendars (Num <$> base) gh gl !! date
     = Some (Num (default 0 (gh !! date) + default 0 (gl !! date)))) ∧
  (plain_keys gh -> plain_keys gl ->
   dom (mergeCalendars (Num <$> base) gh gl) = dom base ∧
   (∃ merged, numbers (mergeCalendars (Num <$> base) gh gl) = Some merged) ∧
   (∀ gh' gl' : gmap string Z,
      plain_keys gh' -> plain_keys gl' ->
      (∀ date, date ∈ dom base -> gh' !! date = gh !! date ∧ gl' !! date = gl !! date) ->
      mergeCalendars (Num <$> base) gh' gl' = mergeCalendars (Num <$> base) gh gl)).
Proof.
  intros Hzero. split.
  - intros date [b Hb]%elem_of_dom. rewrite (mergeCalendars_lookup_own _ _ _ _ b Hb).
    by rewrite (Hzero _ _ Hb).
  - intros Pgh Pgl. split; [|split].
    + rewrite mergeCalendars_merged_counts by done. by rewrite dom_fmap_L, merged_counts_dom.
    + eexists. by apply mergeCalendars_numbers.
    + intros gh' gl' Pgh' Pgl' Hagree. rewrite !mergeCalendars_merged_counts by done.
      f_equal. apply map_eq. intros k. rewrite !merged_counts_lookup.
      destruct (base !! k) as [b|] eqn:Hb; [|done]. cbn.
      destruct (Hagree k) as [-> ->]; [|done]. apply elem_of_dom. eauto.
Qed.

Lemma mergeCalendars_sums_witness :
  (∀ date b, sample_base !! date = Some b -> b = 0) ∧
  mergeCalendars (Num <$> sample_base) sample_gh sample_gl !! "2024-02-28"
  = Some (Num (2 + 1)) ∧
  dom (mergeCalendars (Num <$> sample_base) sample_gh sample_gl) = dom sample_base ∧
  mergeCalendars (Num <$> sample_base) (delete "2023-01-25" sample_gh) sample_gl
  = mergeCalendars (Num <$> sample_base) sample_gh sample_gl.
Proof.
  split; [exact sample_base_zero|].
  destruct (mergeCalendars_sums sample_base sample_gh sample_gl sample_base_zero)
    as (Hsum & Hplain).
  destruct (Hplain (proj1 sample_plain) (proj2 sample_plain)) as (Hdom & _ & Hout).
  split; [|split; [exact Hdom|]].
  - apply (Hsum "2024-02-28"). apply elem_of_dom. by eexists.
  - apply Hout.
    + apply (plain_keys_subseteq sample_gh); [apply delete_subseteq|apply sample_plain].
    + apply sample_plain.
    + intros date Hd. split; [|done].
      apply lookup_delete_ne. intros <-. apply elem_of_dom in Hd as [b Hb]. discriminate Hb.
Defined.

(** [base[date]] also finds what the object inherits: a source with the key
    [toString] makes the merge write that key, with a string; the key set of
    the base is extended, the merged object no longer holds numbers only,
    and the two sources no longer commute. *)
Lemma mergeCalendars_inherited_name :
  (∀ date b, sample_base !! date = Some b -> b = 0) ∧
  ¬ ("toString" ∈ dom sample_base) ∧
  mergeCalendars (Num <$> sample_base) ∅ (<["toString" := 1]> ∅) !! "toString"
  = Some (Str "function toString() { [native code] }1") ∧
  dom (mergeCalendars (Num <$> sample_base) ∅ (<["toString" := 1]> ∅))
  ≠ dom sample_base ∧
  numbers (mergeCalendars (Num <$> sample_base) ∅ (<["toString" := 1]> ∅)) = None ∧
  mergeCalendars (Num <$> sample_base) (<["toString" := 2]> ∅) (<["toString" := 1]> ∅)
    !! "toString"
  = Some (Str "function toString() { [native code] }21") ∧
  mergeCalendars (Num <$> sample_base) (<["toString" := 1]> ∅) (<["toString" := 2]> ∅)
    !! "toString"
  = Some (Str "function toString() { [native code] }12").
Proof.
  split; [exact sample_base_zero|]. split; [by vm_compute|].
  assert (H : mergeCalendars (Num <$> sample_base) ∅ (<["toString" := 1]> ∅) !! "toString"
              = Some (Str "function toString() { [native code] }1"))
    by (vm_compute; reflexivity).
  split; [exact H|]. split.
  - intros Hdom. assert (Hin : "toString" ∈ dom sample_base).
    { rewrite <- Hdom. apply elem_of_dom. rewrite H. by eexists. }
    by vm_compute in Hin.
  - repeat split; vm_compute; reflexivity.
Qed.

(** ** [dateRangeMap] *)

Lemma fromDate_eq tz today : fromDate (fixedOffset tz) today = today - 364 * msPerDay.
Proof. unfold fromDate. cbv zeta. apply setDate_getDate_minus. Qed.

(** [n] iterations remain when the cursor is [d]: the loop runs them, one
    calendar day each, and stops on its condition. *)
Lemma range_loop tz to (n : nat) : ∀ fuel d (map : gmap string Z),
  (n < fuel)%nat ->
  to < d + Z.of_nat n * msPerDay ->
  (∀ i, 0 <= i < Z.of_nat n -> d + i * msPerDay <= to) ->
  while_loop fuel
    (λ '(d, _), d <=? to)
    (λ '(d, map), let map := <[iso d := 0]> map in
                  let d := setDate (fixedOffset tz) d (getDate (fixedOffset tz) d + 1) in
                  (d, map))
    (d, map)
  = Some (d + Z.of_nat n * msPerDay,
          foldl (λ m i, <[isoDay i := 0]> m) map (seqZ (Day d) (Z.of_nat n))).
Proof.
  induction n as [|n IH]; intros fuel d map Hfuel Hstop Hrun.
  - destruct fuel as [|fuel]; [lia|]. cbn [while_loop].
    destruct (Z.leb_spec d to); [lia|]. cbn. do 2 f_equal. lia.
  - destruct fuel as [|fuel]; [lia|]. cbn [while_loop].
    destruct (Z.leb_spec d to) as [_|Hgt]; [|specialize (Hrun 0); lia].
    cbv zeta. rewrite setDate_getDate, Z.mul_1_l.
    rewrite (IH fuel).
    + replace (d + msPerDay) with (d + 1 * msPerDay) at 2 by lia.
      rewrite Day_add_days.
      rewrite (seqZ_cons (Day d) (Z.of_nat (S n))) by lia. cbn [foldl].
      rewrite <- iso_isoDay. do 2 f_equal; [lia|].
      do 2 f_equal; lia.
    + lia.
    + lia.
    + intros i Hi. specialize (Hrun (i + 1)). lia.
Qed.

Lemma foldl_zero_lookup (f : Z -> string) (l : list Z) (map : gmap string Z) key :
  foldl (λ m i, <[f i := 0]> m) map l !! key
  = if decide (key ∈ f <$> l) then Some 0 else map !! key.
Proof.
  revert map. induction l as [|i l IH]; intros map; cbn [foldl].
  - rewrite decide_False; [done|]. apply not_elem_of_nil.
  - rewrite IH. rewrite fmap_cons.
    destruct (decide (key ∈ f <$> l)) as [Hin|Hnin].
    + rewrite decide_True; [done|]. apply elem_of_cons. by right.
    + destruct (decide (f i = key)) as [<-|Hne].
      * rewrite lookup_insert_eq. rewrite decide_True; [done|]. apply elem_of_cons. by left.
      * rewrite lookup_insert_ne by done. rewrite decide_False; [done|].
        intros [?|?]%elem_of_cons; congruence.
Qed.

(** When the end is not earlier in its day than the start, [dateRangeMap]
    returns the zeroed map of the calendar dates from the start's through
    the end's. *)
Lemma dateRangeMap_result tz fuel from to :
  from <= to -> TimeWithinDay from <= TimeWithinDay to ->
  (Z.to_nat (Day to - Day from) + 1 < fuel)%nat ->
  ∃ m, dateRangeMap (fixedOffset tz) fuel from to = Some m ∧
       dom m = calendar_dates (Day from) (Day to) ∧
       (∀ k v, m !! k = Some v -> v = 0).
Proof.
  intros Hle Htod Hfuel.
  assert (Hday : Day from <= Day to) by (unfold Day, msPerDay; divmod).
  pose proof (Day_TimeWithinDay from) as Hf. pose proof (Day_TimeWithinDay to) as Ht.
  pose proof (TimeWithinDay_range from). pose proof (TimeWithinDay_range to).
  set (n := Z.to_nat (Day to - Day from + 1)).
  unfold dateRangeMap. cbv zeta. rewrite (range_loop tz to n).
  - cbn. eexists; split; [done|].
    replace (Z.of_nat n) with (Day to - Day from + 1) by lia. split.
    + apply set_eq. intros key. rewrite elem_of_dom, foldl_zero_lookup, lookup_empty.
      unfold calendar_dates. rewrite elem_of_list_to_set.
      case_decide as Hin; (split; [|by eauto]); [done | by intros [? [=]]].
    + intros k v. rewrite foldl_zero_lookup, lookup_empty. by case_decide; intros [=].
  - lia.
  - unfold msPerDay in *. lia.
  - intros i Hi. unfold msPerDay in *. nia.
Qed.

(** The range the driver asks for: from 364 days before [today]. *)
Lemma dateRangeMap_today tz today fuel :
  (365 < fuel)%nat ->
  ∃ m, dateRangeMap (fixedOffset tz) fuel (fromDate (fixedOffset tz) today) today = Some m ∧
       dom m = calendar_dates (Day today - 364) (Day today) ∧
       (∀ k v, m !! k = Some v -> v = 0).
Proof.
  intros Hfuel. rewrite fromDate_eq.
  destruct (dateRangeMap_result tz fuel (today - 364 * msPerDay) today) as (m & Hm & Hd & Hz).
  - unfold msPerDay. lia.
  - by rewrite TimeWithinDay_sub_days.
  - rewrite Day_sub_days. lia.
  - exists m. by rewrite Day_sub_days in Hd.
Qed.

(** C4, as amended.  In a zone with a fixed offset of local time from UTC:
    when the end date is not earlier in its (UTC) day than the start date,
    as when the two are a whole number of days apart, [dateRangeMap from to]
    returns the map whose keys are exactly the consecutive calendar dates
    from the start's through the end's, each bound to 0: one key per day
    while the dates lie in the years 0000 to 9999, whose date strings are
    distinct.  With the start at [fromDate], which is then 364 days before
    [today], the keys are the 365 consecutive calendar dates ending at
    today's. *)
Theorem dateRangeMap_calendar_dates tz fuel :
  (∀ from to,
     from <= to -> TimeWithinDay from <= TimeWithinDay to ->
     (Z.to_nat (Day to - Day from) + 1 < fuel)%nat ->
     ∃ m, dateRangeMap (fixedOffset tz) fuel from to = Some m ∧
          dom m = calendar_dates (Day from) (Day to) ∧
          (∀ key v, m !! key = Some v -> v = 0) ∧
          (0 <= YearFromTime from -> YearFromTime to <= 9999 ->
           size m = Z.to_nat (Day to - Day from + 1))) ∧
  (∀ today,
     (365 < fuel)%nat ->
     ∃ m, dateRangeMap (fixedOffset tz) fuel (fromDate (fixedOffset tz) today) today
          = Some m ∧
          dom m = calendar_dates (Day today - 364) (Day today) ∧
          (∀ key v, m !! key = Some v -> v = 0) ∧
          (0 <= YearFromTime (fromDate (fixedOffset tz) today) -> YearFromTime today <= 9999 ->
           size m = 365%nat)).
Proof.
  split.
  - intros from to Hle Htod Hfuel.
    destruct (dateRangeMap_result tz fuel from to Hle Htod Hfuel) as (m & Hm & Hdom & Hzero).
    assert (Hday : Day from <= Day to) by (unfold Day, msPerDay; divmod).
    exists m. repeat split; try done.
    intros Hy1%year_lower Hy2%year_upper. rewrite <- size_dom, Hdom.
    apply calendar_dates_size; lia.
  - intros today Hfuel.
    destruct (dateRangeMap_today tz today fuel Hfuel) as (m & Hm & Hdom & Hzero).
    exists m. repeat split; try done.
    rewrite fromDate_eq. intros Hy1%year_lower Hy2%year_upper.
    rewrite Day_sub_days in Hy1. rewrite <- size_dom, Hdom.
    rewrite calendar_dates_size by lia. lia.
Qed.

Lemma dateRangeMap_calendar_dates_witness :
  ∃ m, dateRangeMap (fixedOffset 0) 400 (fromDate (fixedOffset 0) sample_today) sample_today
       = Some m ∧
       dom m = calendar_dates (Day sample_today - 364) (Day sample_today) ∧
       size m = 365%nat.
Proof.
  destruct (dateRangeMap_calendar_dates 0 400) as [_ H].
  destruct (H sample_today) as (m & Hm & Hdom & _ & Hsize); [lia|].
  exists m. split; [exact Hm|]. split; [exact Hdom|].
  apply Hsize; vm_compute; discriminate.
Defined.

(** Dates that [dateRangeMap] leaves out.
    - With a fixed offset, the end date when the end is earlier in its day
      than the start: from 1970-01-01T18:00Z to 1970-01-03T06:00Z the loop
      stops after 1970-01-02.
    - In New York, the end date of a range a whole number of days apart, when
      daylight-saving time ends in between: from 2026-10-30T03:30Z to
      2026-11-03T03:30Z the cursor keeps its local time, 23:30, which is an
      hour later in UTC from 1 November on, and the loop stops after
      2026-11-02.
    - In New York, the first date of the window of the driver: started at
      2027-11-03T23:30Z, [fromDate] is 2026-11-05T00:30Z, a day after the
      first of the 365 dates that end today, and the map has 364 keys. *)
Lemma dateRangeMap_misses_dates :
  (64800000 <= 194400000 ∧
   iso 64800000 = "1970-01-01" ∧ iso 194400000 = "1970-01-03" ∧
   size <$> dateRangeMap (fixedOffset 0) 10 64800000 194400000 = Some 2%nat ∧
   (dateRangeMap (fixedOffset 0) 10 64800000 194400000 ≫= λ m, m !! "1970-01-01")
   = Some 0 ∧
   (dateRangeMap (fixedOffset 0) 10 64800000 194400000 ≫= λ m, m !! "1970-01-02")
   = Some 0 ∧
   (dateRangeMap (fixedOffset 0) 10 64800000 194400000 ≫= λ m, m !! iso 194400000)
   = None) ∧
  (toISOString 1793331000000 = "2026-10-30T03:30:00.000Z" ∧
   toISOString 1793676600000 = "2026-11-03T03:30:00.000Z" ∧
   1793676600000 = 1793331000000 + 4 * msPerDay ∧
   size <$> dateRangeMap America_New_York 10 1793331000000 1793676600000 = Some 4%nat ∧
   (dateRangeMap America_New_York 10 1793331000000 1793676600000 ≫= λ m, m !! "2026-11-02")
   = Some 0 ∧
   (dateRangeMap America_New_York 10 1793331000000 1793676600000 ≫= λ m, m !! "2026-11-03")
   = None) ∧
  (toISOString new_york_evening = "2027-11-03T23:30:00.000Z" ∧
   toISOString (fromDate America_New_York new_york_evening) = "2026-11-05T00:30:00.000Z" ∧
   isoDay (Day new_york_evening - 364) = "2026-11-04" ∧
   size <$> dateRangeMap America_New_York 400
              (fromDate America_New_York new_york_evening) new_york_evening
   = Some 364%nat ∧
   (dateRangeMap America_New_York 400
      (fromDate America_New_York new_york_evening) new_york_evening
      ≫= λ m, m !! "2026-11-04")
   = None).
Proof.
  split; [split; [lia|]; repeat split; vm_compute; reflexivity|].
  split; repeat split; vm_compute; reflexivity.
Qed.

(** ** The renderers *)

Lemma append_assoc (a b c : string) : (a +:+ b) +:+ c = a +:+ (b +:+ c).
Proof.
  induction a as [|x a IH]; [done|].
  change (String x ((a +:+ b) +:+ c) = String x (a +:+ (b +:+ c))). by f_equal.
Qed.

Lemma append_nil_r (a : string) : a +:+ "" = a.
Proof.
  induction a as [|x a IH]; [done|]. change (String x (a +:+ "") = String x a). by f_equal.
Qed.

Lemma concat_strings_app l1 l2 :
  concat_strings (l1 ++ l2) = concat_strings l1 +:+ concat_strings l2.
Proof.
  induction l1 as [|s l1 IH]; simpl; [done|]. by rewrite IH, append_assoc.
Qed.

Lemma for_loop_ext {S : Type} (body1 body2 : Z -> S -> S) n i s :
  (∀ j st, body1 j st = body2 j st) -> for_loop n i body1 s = for_loop n i body2 s.
Proof.
  intros Hext. revert i s. induction n as [|n IH]; intros i s; cbn; [done|].
  by rewrite Hext, IH.
Qed.

(** A loop that appends one piece per iteration and advances the cursor by
    a fixed stride. *)
Lemma for_loop_append (piece : Z -> Z -> string) (stride : Z) (n : nat) :
  ∀ i rects cursor,
    for_loop n i (λ j '(rects, cursor), (rects +:+ piece j cursor, cursor + stride))
             (rects, cursor)
    = (rects +:+ concat_strings
                   ((λ k, piece (i + k) (cursor + k * stride)) <$> seqZ 0 (Z.of_nat n)),
       cursor + Z.of_nat n * stride).
Proof.
  induction n as [|n IH]; intros i rects cursor.
  - cbn. rewrite append_nil_r. f_equal. lia.
  - cbn [for_loop]. rewrite IH.
    rewrite (seqZ_cons 0 (Z.of_nat (S n))) by lia. rewrite fmap_cons.
    cbn [concat_strings foldr]. rewrite append_assoc.
    f_equal; [|lia]. do 2 f_equal.
    + f_equal; lia.
    + replace (Z.pred (Z.of_nat (S n))) with (Z.of_nat n) by lia.
      replace (Z.succ 0) with (1 + 0) by lia. rewrite <- (fmap_add_seqZ 1 0).
      rewrite <- list_fmap_compose. f_equal. apply list_fmap_ext. intros _ k _. cbn.
      f_equal; lia.
Qed.

Lemma concat_rows (f : Z -> string) (g : Z * Z -> string) (ws : list Z) :
  (∀ w, f w = concat_strings (g <$> (seqZ 0 7 ≫= λ d, [(w, d)]))) ->
  concat_strings (f <$> ws)
  = concat_strings (g <$> (ws ≫= λ w, seqZ 0 7 ≫= λ d, [(w, d)])).
Proof.
  intros Hrow. induction ws as [|w ws IH]; [done|].
  cbn [fmap list_fmap concat_strings foldr mbind list_bind].
  rewrite fmap_app, concat_strings_app. by rewrite <- IH, Hrow.
Qed.

Section Grid.
Variables tz today : Z.

Lemma grid_start_eq :
  grid_start (fixedOffset tz) today
  = fromDate (fixedOffset tz) today - WeekDay (fromDate (fixedOffset tz) today) * msPerDay.
Proof. unfold grid_start, getUTCDay. cbv zeta. apply setDate_getDate_minus. Qed.

Lemma grid_end_eq : grid_end (fixedOffset tz) today = today + (6 - WeekDay today) * msPerDay.
Proof. unfold grid_end, getUTCDay. cbv zeta. apply setDate_getDate. Qed.

Lemma WeekDay_fromDate : WeekDay (fromDate (fixedOffset tz) today) = WeekDay today.
Proof.
  rewrite fromDate_eq.
  replace (today - 364 * msPerDay) with (today + (-364) * msPerDay) by lia.
  rewrite WeekDay_add_days. pose proof (WeekDay_range today). divmod.
Qed.

Lemma grid_start_sunday :
  getUTCDay (grid_start (fixedOffset tz) today) = 0 ∧
  Day (fromDate (fixedOffset tz) today) - 6 <= Day (grid_start (fixedOffset tz) today)
    <= Day (fromDate (fixedOffset tz) today).
Proof. rewrite grid_start_eq. apply sunday_on_or_before. Qed.

Lemma grid_end_saturday :
  getUTCDay (grid_end (fixedOffset tz) today) = 6 ∧
  Day today <= Day (grid_end (fixedOffset tz) today) <= Day today + 6.
Proof. rewrite grid_end_eq. apply saturday_on_or_after. Qed.

(** From the Sunday to the Saturday there are always 370 days: 53 whole
    weeks less one day. *)
Lemma grid_span :
  grid_end (fixedOffset tz) today - grid_start (fixedOffset tz) today = 370 * msPerDay.
Proof.
  rewrite grid_end_eq, grid_start_eq, WeekDay_fromDate, fromDate_eq. lia.
Qed.

(** So [weeks] is always 54, one column more than the 53 weeks from
    [grid_start] to [grid_end]: the last column holds the seven days after
    [grid_end]. *)
Lemma weeks_eq : weeks (fixedOffset tz) today = 54.
Proof. unfold weeks. rewrite grid_span. reflexivity. Qed.

Lemma last_cell_after_grid_end :
  cell_date (fixedOffset tz) today (weeks (fixedOffset tz) today - 1) 6
  = grid_end (fixedOffset tz) today + 7 * msPerDay.
Proof.
  unfold cell_date. rewrite weeks_eq. pose proof grid_span. unfold msPerDay in *. lia.
Qed.

Lemma Math_ceil_div_spec a b :
  0 < b -> (Math_ceil_div a b - 1) * b < a <= Math_ceil_div a b * b.
Proof. intros Hb. unfold Math_ceil_div. divmod. Qed.

(** The nested loops of either renderer, for any cell text [piece w d cursor]. *)
Lemma grid_loops (piece : Z -> Z -> Z -> string) :
  (for_range 0 (weeks (fixedOffset tz) today)
     (λ w st, for_range 0 7
                (λ d '(rects, cursor),
                   (rects +:+ piece w d cursor,
                    setDate (fixedOffset tz) cursor (getDate (fixedOffset tz) cursor + 1)))
                st)
     ("", grid_start (fixedOffset tz) today)).1
  = concat_strings ((λ '(w, d), piece w d (cell_date (fixedOffset tz) today w d))
                      <$> grid_cells (fixedOffset tz) today).
Proof.
  unfold for_range. rewrite !Z.sub_0_r.
  rewrite (for_loop_ext _
    (λ w '(rects, cursor),
       (rects +:+ concat_strings ((λ d, piece w d (cursor + d * msPerDay)) <$> seqZ 0 7),
        cursor + 7 * msPerDay))).
  - rewrite for_loop_append. cbn [fst].
    change (String.append "" ?x) with x.
    unfold grid_cells.
    replace (Z.of_nat (Z.to_nat (weeks (fixedOffset tz) today)))
      with (Z.max 0 (weeks (fixedOffset tz) today)) by lia.
    replace (seqZ 0 (Z.max 0 (weeks (fixedOffset tz) today)))
      with (seqZ 0 (weeks (fixedOffset tz) today)).
    2:{ destruct (Z.max_spec 0 (weeks (fixedOffset tz) today)) as [[? ->]|[? ->]]; [done|].
        by rewrite !seqZ_nil by lia. }
    apply concat_rows. intros w. rewrite Z.add_0_l.
    replace (seqZ 0 7 ≫= λ d, [(w, d)]) with ((λ d, (w, d)) <$> seqZ 0 7) by done.
    rewrite <- list_fmap_compose. f_equal. apply list_fmap_ext. intros _ d _.
    cbn. unfold cell_date. f_equal. generalize (grid_start (fixedOffset tz) today). intros g.
    unfold msPerDay. lia.
  - intros w [rects cursor].
    rewrite (for_loop_ext _
      (λ d '(rects, cursor), (rects +:+ piece w d cursor, cursor + msPerDay))).
    + rewrite for_loop_append. reflexivity.
    + intros d [r c]. by rewrite setDate_getDate, Z.mul_1_l.
Qed.

Lemma render_rects_cells levels :
  render_rects (fixedOffset tz) today levels
  = concat_strings (cell_rect (fixedOffset tz) today levels
                      <$> grid_cells (fixedOffset tz) today).
Proof.
  exact (grid_loops (λ w d cursor,
    rect (gap + w * (cell + gap)) (gap + d * (cell + gap))
         (array_get palette (lookup_or_0 levels (iso cursor))) (iso cursor)
         (lookup_or_0 levels (iso cursor)))).
Qed.

Lemma render_rects_counts_cells levels counts :
  render_rects_counts (fixedOffset tz) today levels counts
  = concat_strings (cell_rect_counts (fixedOffset tz) today levels counts
                      <$> grid_cells (fixedOffset tz) today).
Proof.
  exact (grid_loops (λ w d cursor,
    rect_counts (gap + w * (cell + gap)) (headerH + gap + d * (cell + gap))
         (array_get palette (lookup_or_0 levels (iso cursor))) (iso cursor)
         (lookup_or_0 counts (iso cursor)))).
Qed.

Lemma grid_cells_length :
  length (grid_cells (fixedOffset tz) today) = Z.to_nat (weeks (fixedOffset tz) today * 7).
Proof. unfold grid_cells. rewrite weeks_eq. reflexivity. Qed.

End Grid.




Example cell_rect_sample :
  iso (grid_start (fixedOffset 0) sample_today) = "2023-02-26" ∧
  iso (grid_end (fixedOffset 0) sample_today) = "2024-03-02" ∧
  cell_rect (fixedOffset 0) sample_today (computeLevels sample_counts) (52, 4)
  = rect 626 50 (Some "#196127") "2024-02-29" 4 ∧
  cell_rect_counts (fixedOffset 0) sample_today (computeLevels sample_counts) sample_counts
    (52, 4)
  = rect_counts 626 76 (Some "#196127") "2024-02-29" 7 ∧
  cell_rect (fixedOffset 0) sample_today (computeLevels sample_counts) (0, 0)
  = rect 2 2 (Some "#ebedf0") "2023-02-26" 0.
Proof. repeat split; vm_compute; reflexivity. Qed.

(** C5, as amended.  In a zone with a fixed offset of local time from UTC,
    in both renderers and whatever the levels (and counts): [grid_start]
    (the local [start]) is a Sunday, on or at most six days before the first
    day of the 365-day window; [grid_end] (the local [end]) is a Saturday, on
    or at most six days after today; [weeks] is one more than the ceiling of
    their distance in weeks, which makes 54: one column more than the 53
    that reach [grid_end]; the loops emit one rectangle per cell of
    [grid_cells], which has [weeks * 7] cells, for consecutive days from
    [grid_start] on, so that the last cell is the Saturday one week after
    [grid_end]; and a cell whose date has no entry in [levels] is drawn with
    level 0, the first palette colour. *)
Theorem renderSVG_grid (tz : Z) today (levels counts : gmap string Z) (totals : Totals) :
  (getUTCDay (grid_start (fixedOffset tz) today) = 0 ∧
   Day today - 364 - 6 <= Day (grid_start (fixedOffset tz) today) <= Day today - 364) ∧
  (getUTCDay (grid_end (fixedOffset tz) today) = 6 ∧
   Day today <= Day (grid_end (fixedOffset tz) today) <= Day today + 6) ∧
  (∃ c, weeks (fixedOffset tz) today = c + 1 ∧
        (c - 1) * (7 * msPerDay)
          < grid_end (fixedOffset tz) today - grid_start (fixedOffset tz) today
          <= c * (7 * msPerDay)) ∧
  weeks (fixedOffset tz) today = 54 ∧
  length (grid_cells (fixedOffset tz) today) = Z.to_nat (weeks (fixedOffset tz) today * 7) ∧
  renderSVG (fixedOffset tz) today levels
    = svg_open (width (fixedOffset tz) today) (7 * (cell + gap) + gap) +:+ "  "
        +:+ concat_strings (cell_rect (fixedOffset tz) today levels
                              <$> grid_cells (fixedOffset tz) today)
        +:+ nl +:+ "</svg>" ∧
  renderSVG_counts (fixedOffset tz) today levels counts totals
    = svg_open (width (fixedOffset tz) today) (headerH + 7 * (cell + gap) + gap)
        +:+ svg_labels (fixedOffset tz) today totals +:+ "  "
        +:+ concat_strings (cell_rect_counts (fixedOffset tz) today levels counts
                              <$> grid_cells (fixedOffset tz) today)
        +:+ nl +:+ "</svg>" ∧
  cell_date (fixedOffset tz) today 0 0 = grid_start (fixedOffset tz) today ∧
  (∀ w d, cell_date (fixedOffset tz) today w d
          = grid_start (fixedOffset tz) today + (7 * w + d) * msPerDay) ∧
  last (grid_cells (fixedOffset tz) today) = Some (weeks (fixedOffset tz) today - 1, 6) ∧
  cell_date (fixedOffset tz) today (weeks (fixedOffset tz) today - 1) 6
    = grid_end (fixedOffset tz) today + 7 * msPerDay ∧
  (∀ w d, levels !! iso (cell_date (fixedOffset tz) today w d) = None ->
     cell_rect (fixedOffset tz) today levels (w, d)
     = rect (gap + w * (cell + gap)) (gap + d * (cell + gap)) (Some "#ebedf0")
            (iso (cell_date (fixedOffset tz) today w d)) 0 ∧
     cell_rect_counts (fixedOffset tz) today levels counts (w, d)
     = rect_counts (gap + w * (cell + gap)) (headerH + gap + d * (cell + gap))
                   (Some "#ebedf0") (iso (cell_date (fixedOffset tz) today w d))
                   (lookup_or_0 counts (iso (cell_date (fixedOffset tz) today w d)))).
Proof.
  split.
  { pose proof (grid_start_sunday tz today) as [H1 H2].
    rewrite fromDate_eq, Day_sub_days in H2. split; [done|lia]. }
  split; [apply grid_end_saturday|].
  split.
  { eexists. split; [reflexivity|]. by apply Math_ceil_div_spec. }
  split; [apply weeks_eq|].
  split; [apply grid_cells_length|].
  split; [unfold renderSVG; cbv zeta; by rewrite render_rects_cells|].
  split; [unfold renderSVG_counts; cbv zeta; by rewrite render_rects_counts_cells|].
  split; [unfold cell_date; lia|]. split; [done|].
  split; [unfold grid_cells; rewrite weeks_eq; reflexivity|].
  split; [apply last_cell_after_grid_end|].
  intros w d Hnone. unfold cell_rect, cell_rect_counts, lookup_or_0 at 1 2 3.
  by rewrite Hnone.
Qed.

(** Where the grid is off.
    - With a fixed offset, started on Thursday 2024-02-29: the Saturday on
      or after today is 2024-03-02, but the document has 378 cells and its
      last cell is dated 2024-03-09.
    - In New York, started at 2027-11-03T23:30Z: [start] is moved back by
      the week day of the UTC date, in local time, and lands on
      2026-10-31T23:30Z, a Saturday, which is the date of the first cell. *)
Lemma renderSVG_grid_off :
  (iso sample_today = "2024-02-29" ∧ getUTCDay sample_today = 4 ∧
   iso (grid_end (fixedOffset 0) sample_today) = "2024-03-02" ∧
   weeks (fixedOffset 0) sample_today * 7 = 378 ∧
   includes (rect 638 74 (Some "#ebedf0") "2024-03-09" 0 +:+ nl +:+ "</svg>")
            (renderSVG (fixedOffset 0) sample_today ∅) = true) ∧
  (toISOString (fromDate America_New_York new_york_evening) = "2026-11-05T00:30:00.000Z" ∧
   toISOString (grid_start America_New_York new_york_evening) = "2026-10-31T23:30:00.000Z" ∧
   getUTCDay (grid_start America_New_York new_york_evening) = 6 ∧
   includes ("  " +:+ rect 2 2 (Some "#ebedf0") "2026-10-31" 0)
            (renderSVG America_New_York new_york_evening ∅) = true).
Proof. split; repeat split; vm_compute; reflexivity. Qed.




(** ** The fetchers *)

Lemma prefix_append (sub post : string) : String.prefix sub (sub +:+ post) = true.
Proof.
  induction sub as [|c sub IH]; [by destruct post|].
  change (String.prefix (String c sub) (String c (sub +:+ post)) = true).
  cbn. by destruct (ascii_dec c c).
Qed.

Lemma includes_prefix (sub s : string) :
  String.prefix sub s = true -> includes sub s = true.
Proof.
  intros H. destruct s as [|c s].
  - change (String.prefix sub "" || false = true). by rewrite H.
  - change (String.prefix sub (String c s) || includes sub s = true). by rewrite H.
Qed.

Lemma includes_suffix (sub : string) (c : ascii) (s : string) :
  includes sub s = true -> includes sub (String c s) = true.
Proof.
  intros H. change (String.prefix sub (String c s) || includes sub s = true).
  rewrite H. apply orb_true_r.
Qed.

Lemma includes_append (pre sub post : string) :
  includes sub (pre +:+ sub +:+ post) = true.
Proof.
  induction pre as [|c pre IH].
  - change (includes sub (sub +:+ post) = true).
    apply includes_prefix, prefix_append.
  - change (includes sub (String c (pre +:+ sub +:+ post)) = true).
    by apply includes_suffix.
Qed.

Lemma includes_append_end (pre sub : string) : includes sub (pre +:+ sub) = true.
Proof.
  pose proof (includes_append pre sub "") as H. by rewrite append_nil_r in H.
Qed.

Example fetchGitHubCalendar_403 :
  fetchGitHubCalendar reply_403 = inl (Error "GitHub GraphQL error: 403 Forbidden").
Proof. reflexivity. Qed.

Example fetchGitHubCalendar_flattens :
  fetchGitHubCalendar
    (inr (mkResponse true 200 ""
            (inr (Some [mkWeek [mkDay "2024-02-28" 2; mkDay "2024-02-29" 1];
                        mkWeek [mkDay "2024-02-28" 3]]))))
  ≫= (λ out, mret (out !! "2024-02-28", out !! "2024-02-29"))
  = inr (Some 5, Some 1).
Proof. reflexivity. Qed.

(** C7. For a reply with a response: when [res.ok] is false each fetcher
    throws an [Error] whose message contains the status code and the body
    text; when [res.ok] is true the status check throws nothing: the fetcher
    fails only if [res.json()] does, with that error, and returns a map
    whenever the body parses. *)
Theorem fetchers_status_check
    (gh_res : Response (option (list Week))) (gl_res : Response (option (gmap string Z))) :
  (ok gh_res = false ->
     ∃ msg, fetchGitHubCalendar (inr gh_res) = inl (Error msg) ∧
            includes (pretty (status gh_res)) msg = true ∧
            includes (text gh_res) msg = true) ∧
  (ok gh_res = true ->
     (∀ e, fetchGitHubCalendar (inr gh_res) = inl e -> json gh_res = inl e) ∧
     (∀ j, json gh_res = inr j -> ∃ out, fetchGitHubCalendar (inr gh_res) = inr out)) ∧
  (ok gl_res = false ->
     ∃ msg, fetchGitLabCalendar (inr gl_res) = inl (Error msg) ∧
            includes (pretty (status gl_res)) msg = true ∧
            includes (text gl_res) msg = true) ∧
  (ok gl_res = true ->
     (∀ e, fetchGitLabCalendar (inr gl_res) = inl e -> json gl_res = inl e) ∧
     (∀ j, json gl_res = inr j -> fetchGitLabCalendar (inr gl_res) = inr (default ∅ j))).
Proof.
  split; [|split; [|split]].
  - intros Hok. unfold fetchGitHubCalendar. cbn. rewrite Hok. cbn.
    eexists. split; [reflexivity|]. split.
    + apply includes_append.
    + rewrite <- !append_assoc. apply includes_append_end.
  - intros Hok. unfold fetchGitHubCalendar. cbn. rewrite Hok. cbn. split.
    + intros e. unfold mbind, exn_bind, mret, exn_ret.
      destruct (json gh_res); intros [=]; by subst.
    + intros j ->. cbn. eauto.
  - intros Hok. unfold fetchGitLabCalendar. cbn. rewrite Hok. cbn.
    eexists. split; [reflexivity|]. split.
    + apply includes_append.
    + rewrite <- !append_assoc. apply includes_append_end.
  - intros Hok. unfold fetchGitLabCalendar. cbn. rewrite Hok. cbn. split.
    + intros e. unfold mbind, exn_bind, mret, exn_ret.
      destruct (json gl_res); intros [=]; by subst.
    + by intros j ->.
Qed.

(** ** The driver *)

Example outPath_sample :
  outPath "/work" = "/work/public/contrib.svg" ∧
  outPath "/" = "/public/contrib.svg" ∧
  outPath "/srv//site/./build/.." = "/srv/site/public/contrib.svg" ∧
  outPath "" = "public/contrib.svg".
Proof. repeat split; reflexivity. Qed.

(** [Promise.all] reports the rejection of the first promise when it comes
    first or is the only one, and of the second likewise. *)
Lemma Promise_all_first {A B : Type} (a_first : bool) (a : exn + A) (b : exn + B) e :
  a = inl e -> a_first = true ∨ (∃ y, b = inr y) -> Promise_all a_first a b = inl e.
Proof. intros -> [->|[y ->]]; [by destruct b|done]. Qed.

Lemma Promise_all_second {A B : Type} (a_first : bool) (a : exn + A) (b : exn + B) e :
  b = inl e -> a_first = false ∨ (∃ x, a = inr x) -> Promise_all a_first a b = inl e.
Proof. intros -> [->|[x ->]]; [by destruct a|done]. Qed.

Lemma Promise_all_inr {A B : Type} (a_first : bool) (a : exn + A) (b : exn + B) x y :
  Promise_all a_first a b = inr (x, y) <-> a = inr x ∧ b = inr y.
Proof. destruct a, b, a_first; cbn; split; (intros [[=] [=]] || intros [=]); by subst. Qed.

Section Driver.
Variable tz : TimeZone.
Variable today : Z.
Variable cwd : string.

Lemma pipeline_rejected base gh_reply gl_reply gh_first e :
  Promise_all gh_first (fetchGitHubCalendar gh_reply) (fetchGitLabCalendar gl_reply) = inl e ->
  pipeline tz today base gh_reply gl_reply gh_first = Some (inl e) ∧
  pipeline_counts tz today base gh_reply gl_reply gh_first = Some (inl e).
Proof. intros H. unfold pipeline, pipeline_counts. by rewrite H. Qed.

Lemma pipeline_fulfilled base gh_reply gl_reply gh_first ghMap glMap :
  fetchGitHubCalendar gh_reply = inr ghMap -> fetchGitLabCalendar gl_reply = inr glMap ->
  plain_keys ghMap -> plain_keys glMap ->
  let merged := merged_counts base ghMap glMap in
  pipeline tz today base gh_reply gl_reply gh_first
    = Some (inr (renderSVG tz today (computeLevels merged))) ∧
  pipeline_counts tz today base gh_reply gl_reply gh_first
    = Some (inr (renderSVG_counts tz today (computeLevels merged) merged
                   (mkTotals (sum ghMap) (sum glMap) (sum merged)))).
Proof.
  intros Hgh Hgl Pgh Pgl. unfold pipeline, pipeline_counts. rewrite Hgh, Hgl. cbn.
  by rewrite mergeCalendars_numbers.
Qed.

(** The pipeline throws only what [Promise.all] rejects with: the stages
    after the fetches throw nothing. *)
Lemma pipeline_throws base gh_reply gl_reply gh_first e :
  pipeline tz today base gh_reply gl_reply gh_first = Some (inl e)
  ∨ pipeline_counts tz today base gh_reply gl_reply gh_first = Some (inl e) ->
  Promise_all gh_first (fetchGitHubCalendar gh_reply) (fetchGitLabCalendar gl_reply) = inl e.
Proof.
  unfold pipeline, pipeline_counts.
  destruct (Promise_all gh_first _ _) as [e'|[gh gl]]; [by intros [[= ->]|[= ->]]|].
  destruct (numbers _); cbn; by intros [?|?].
Qed.

Lemma pipeline_returns base gh_reply gl_reply gh_first svg :
  pipeline tz today base gh_reply gl_reply gh_first = Some (inr svg)
  ∨ pipeline_counts tz today base gh_reply gl_reply gh_first = Some (inr svg) ->
  ∃ ghMap glMap,
    fetchGitHubCalendar gh_reply = inr ghMap ∧ fetchGitLabCalendar gl_reply = inr glMap.
Proof.
  unfold pipeline, pipeline_counts.
  destruct (Promise_all gh_first _ _) as [e'|[gh gl]] eqn:E; [by intros [?|?]|].
  intros _. exists gh, gl. by apply (Promise_all_inr gh_first).
Qed.

(** A run whose fetches reject with [e] logs [e], exits with status 1 and
    leaves the output file as it was. *)
Lemma main_rejected fuel fs file0 gh_reply gl_reply gh_first e :
  is_Some (dateRangeMap tz fuel (fromDate tz today) today) ->
  Promise_all gh_first (fetchGitHubCalendar gh_reply) (fetchGitLabCalendar gl_reply) = inl e ->
  main tz today cwd fuel fs file0 gh_reply gl_reply gh_first
    = Some {| exitCode := 1; stderr := [e]; stdout := []; contrib_svg := file0 |} ∧
  main_counts tz today cwd fuel fs file0 gh_reply gl_reply gh_first
    = Some {| exitCode := 1; stderr := [e]; stdout := []; contrib_svg := file0 |}.
Proof.
  intros [base Hbase] He. unfold main, main_counts. rewrite Hbase. cbn.
  destruct (pipeline_rejected base gh_reply gl_reply gh_first e He) as [-> ->]. done.
Qed.

(** C6, as amended.  In both drivers, for a run whose date loop ends (it
    does, within 366 rounds, in every zone with a fixed offset):
    - if [Promise.all] rejects, the run logs exactly the error it rejects
      with, exits with status 1 and leaves public/contrib.svg as it was;
    - that error is the one of the GitHub fetch when it rejects first or
      alone, and the one of the GitLab fetch when that rejects first or
      alone;
    - when GitHub answers 403 and its rejection is the one reported, the
      logged message contains 403;
    - when both fetchers return maps without inherited names among their
      keys, the file is written, [Wrote ...] is printed and the status is 0
      if the calls to the host return; if one of them throws, its error is
      logged and the status is 1, and the file is as it was unless the
      throwing call is [writeFileSync];
    - a run ends with status 0 or 1, and a run that ends with status 0 or
      with the file changed is one in which both fetchers returned;
    - whatever a run logs is the error [Promise.all] rejects with or the
      error a call to the host throws: the stages between the fetches and
      the write raise nothing. *)
Theorem main_fails_closed fuel fs file0 gh_reply gl_reply gh_first :
  (∀ offset, (365 < fuel)%nat ->
     is_Some (dateRangeMap (fixedOffset offset) fuel
                (fromDate (fixedOffset offset) today) today)) ∧
  (is_Some (dateRangeMap tz fuel (fromDate tz today) today) ->
   let run := main tz today cwd fuel fs file0 gh_reply gl_reply gh_first in
   let run_counts := main_counts tz today cwd fuel fs file0 gh_reply gl_reply gh_first in
   let rejected := Promise_all gh_first (fetchGitHubCalendar gh_reply)
                                        (fetchGitLabCalendar gl_reply) in
   let failed e file :=
     Some {| exitCode := 1; stderr := [e]; stdout := []; contrib_svg := file |} in
   (∀ e, rejected = inl e -> run = failed e file0 ∧ run_counts = failed e file0) ∧
   (∀ e, fetchGitHubCalendar gh_reply = inl e ->
      gh_first = true ∨ (∃ glMap, fetchGitLabCalendar gl_reply = inr glMap) ->
      rejected = inl e) ∧
   (∀ e, fetchGitLabCalendar gl_reply = inl e ->
      gh_first = false ∨ (∃ ghMap, fetchGitHubCalendar gh_reply = inr ghMap) ->
      rejected = inl e) ∧
   (∀ res, gh_reply = inr res -> ok res = false -> status res = 403 ->
      gh_first = true ∨ (∃ glMap, fetchGitLabCalendar gl_reply = inr glMap) ->
      ∃ msg, includes "403" msg = true ∧
             run = failed (Error msg) file0 ∧ run_counts = failed (Error msg) file0) ∧
   (∀ ghMap glMap,
      fetchGitHubCalendar gh_reply = inr ghMap -> fetchGitLabCalendar gl_reply = inr glMap ->
      plain_keys ghMap -> plain_keys glMap ->
      ∃ svg svg',
        (fs = Written ->
           run = Some {| exitCode := 0; stderr := []; stdout := ["Wrote " +:+ outPath cwd];
                         contrib_svg := Some svg |} ∧
           run_counts
             = Some {| exitCode := 0; stderr := []; stdout := ["Wrote " +:+ outPath cwd];
                       contrib_svg := Some svg' |}) ∧
        (∀ e, fs = ThrowsBeforeWrite e ->
           run = failed e file0 ∧ run_counts = failed e file0) ∧
        (∀ e remains, fs = WriteThrows e remains ->
           run = failed e remains ∧ run_counts = failed e remains)) ∧
   (∀ o, run = Some o ∨ run_counts = Some o ->
      (exitCode o = 0 ∨ exitCode o = 1) ∧
      (exitCode o = 0 ∨ contrib_svg o ≠ file0 ->
       ∃ ghMap glMap, fetchGitHubCalendar gh_reply = inr ghMap ∧
                      fetchGitLabCalendar gl_reply = inr glMap) ∧
      (∀ e, e ∈ stderr o ->
         rejected = inl e ∨ fs = ThrowsBeforeWrite e ∨
         ∃ remains, fs = WriteThrows e remains))).
Proof.
  split.
  { intros offset Hfuel.
    destruct (dateRangeMap_today offset today fuel Hfuel) as (base & -> & _). by eexists. }
  intros Hloop run run_counts rejected failed.
  assert (Hrej : ∀ e, rejected = inl e ->
            run = failed e file0 ∧ run_counts = failed e file0).
  { intros e He. by apply main_rejected. }
  split; [exact Hrej|].
  split; [intros e He Hfirst; by apply Promise_all_first|].
  split; [intros e He Hfirst; by apply Promise_all_second|].
  split; [|split].
  - intros res -> Hok Hst Hfirst.
    exists ("GitHub GraphQL error: " +:+ pretty (status res) +:+ " " +:+ text res).
    split; [rewrite Hst; apply includes_append|].
    apply Hrej. apply Promise_all_first; [|done].
    unfold fetchGitHubCalendar. cbn. by rewrite Hok.
  - intros ghMap glMap Hgh Hgl Pgh Pgl. destruct Hloop as [base Hbase].
    subst run run_counts. unfold main, main_counts. rewrite Hbase. cbn [mbind option_bind].
    destruct (pipeline_fulfilled base gh_reply gl_reply gh_first ghMap glMap Hgh Hgl Pgh Pgl)
      as [-> ->].
    cbn [mbind option_bind]. eexists _, _.
    split; [by intros ->|]. split; [by intros e ->|by intros e remains ->].
  - intros o Ho. destruct Hloop as [base Hbase].
    subst run run_counts. unfold main, main_counts in Ho. rewrite Hbase in Ho.
    cbn [mbind option_bind] in Ho.
    assert (Hcases : ∃ attempt, o = finish cwd fs file0 attempt ∧
              (pipeline tz today base gh_reply gl_reply gh_first = Some attempt
               ∨ pipeline_counts tz today base gh_reply gl_reply gh_first = Some attempt)).
    { destruct Ho as [Ho|Ho].
      - destruct (pipeline tz today base gh_reply gl_reply gh_first) as [a|]; [|done].
        injection Ho as <-. eauto.
      - destruct (pipeline_counts tz today base gh_reply gl_reply gh_first) as [a|]; [|done].
        injection Ho as <-. eauto. }
    destruct Hcases as ([e|svg] & -> & Hp).
    + split; [by right|]. cbn. split; [intros [[=]|Hne]; by destruct Hne|].
      intros e' ->%list_elem_of_singleton. left. by eapply pipeline_throws.
    + split; [destruct fs; cbn; eauto|]. split; [intros _; by eapply pipeline_returns|].
      intros e. destruct fs as [|e'|e' remains]; cbn.
      * by intros ?%elem_of_nil.
      * intros ->%list_elem_of_singleton. right. by left.
      * intros ->%list_elem_of_singleton. right. right. by eexists.
Qed.
End Driver.

Lemma main_fails_closed_witness :
  ∃ msg, includes "403" msg = true ∧
         main (fixedOffset 0) sample_today "/work" 400 Written (Some "old")
              reply_403 reply_gitlab_ok false
         = Some {| exitCode := 1; stderr := [Error msg]; stdout := [];
                   contrib_svg := Some "old" |}.
Proof.
  destruct (main_fails_closed (fixedOffset 0) sample_today "/work" 400 Written (Some "old")
              reply_403 reply_gitlab_ok false) as (Hloop & H).
  destruct (H (Hloop 0 ltac:(lia))) as (_ & _ & _ & H403 & _).
  destruct (H403 (mkResponse false 403 "Forbidden" (inr None)))
    as (msg & Hmsg & Hmain & _); [reflexivity..| |].
  - right. eexists. reflexivity.
  - exists msg. split; [exact Hmsg | exact Hmain].
Defined.

(** Source A answers 403, source B answers 500 and rejects first: the run
    exits with status 1 without writing, but the one logged message is
    source B's and does not contain 403. *)
Lemma main_403_masked :
  fetchGitHubCalendar reply_403 = inl (Error "GitHub GraphQL error: 403 Forbidden") ∧
  main (fixedOffset 0) sample_today "/work" 400 Written None reply_403 reply_500 false
    = Some {| exitCode := 1;
              stderr := [Error "GitLab calendar error: 500 Internal Server Error"];
              stdout := []; contrib_svg := None |} ∧
  includes "403" "GitLab calendar error: 500 Internal Server Error" = false.
Proof.
  split; [reflexivity|]. split; [|reflexivity].
  destruct (main_rejected (fixedOffset 0) sample_today "/work" 400 Written None
              reply_403 reply_500 false
              (Error "GitLab calendar error: 500 Internal Server Error")) as [H _].
  - destruct (dateRangeMap_today 0 sample_today 400) as (base & -> & _); [lia|]. by eexists.
  - reflexivity.
  - exact H.
Qed.

(** * Further properties *)

(** ** The window of dates and its keys *)

(** X1. [d.setDate(d.getDate() + k)] moves a date by exactly [k] days for
    every integer [k], across month and year ends, whatever the fixed offset
    of local time.  So [fromDate] is [today] minus 364 days: its day number
    is 364 lower, its time of day and its week day are those of [today]. *)
Theorem fromDate_whole_days tz today :
  (∀ d k, setDate (fixedOffset tz) d (getDate (fixedOffset tz) d + k) = d + k * msPerDay) ∧
  fromDate (fixedOffset tz) today = today - 364 * msPerDay ∧
  Day (fromDate (fixedOffset tz) today) = Day today - 364 ∧
  TimeWithinDay (fromDate (fixedOffset tz) today) = TimeWithinDay today ∧
  getUTCDay (fromDate (fixedOffset tz) today) = getUTCDay today.
Proof.
  split; [intros d k; apply setDate_getDate|].
  rewrite fromDate_eq. split; [done|]. split; [apply Day_sub_days|].
  split; [apply TimeWithinDay_sub_days|].
  unfold getUTCDay. rewrite <- (fromDate_eq tz). apply WeekDay_fromDate.
Qed.

(** X2. Within the years 0000 to 9999, two instants get the same key from
    [iso] exactly when they fall on the same UTC day. *)
Theorem iso_same_day_iff t1 t2 :
  0 <= YearFromTime t1 <= 9999 -> 0 <= YearFromTime t2 <= 9999 ->
  iso t1 = iso t2 <-> Day t1 = Day t2.
Proof.
  intros [Hl1%year_lower Hu1%year_upper] [Hl2%year_lower Hu2%year_upper].
  rewrite !iso_isoDay. split; [|by intros ->].
  apply isoDay_inj; lia.
Qed.

Lemma iso_same_day_iff_witness :
  iso sample_today = iso (sample_today + 1000) <-> Day sample_today = Day (sample_today + 1000).
Proof.
  apply (iso_same_day_iff sample_today (sample_today + 1000)); vm_compute; split; discriminate.
Defined.

(** X3. Within the years 0000 to 9999 the key [iso t] is ten characters
    long and reads YYYY-MM-DD for a year, a month 1..12 and a day 1..31 that
    denote the UTC day of [t]: the day number of that civil date is
    [Day t]. *)
Theorem iso_fields_round_trip t :
  0 <= YearFromTime t <= 9999 ->
  ∃ y m d, iso t = pad4 y +:+ "-" +:+ pad2 m +:+ "-" +:+ pad2 d ∧
           String.length (iso t) = 10%nat ∧
           0 <= y <= 9999 ∧ 1 <= m <= 12 ∧ 1 <= d <= 31 ∧
           days_from_civil y m d = Day t.
Proof.
  intros Hy. exists (YearFromTime t), (MonthFromTime t + 1), (DateFromTime t).
  assert (E : iso t = pad4 (YearFromTime t) +:+ "-" +:+ pad2 (MonthFromTime t + 1) +:+ "-"
                        +:+ pad2 (DateFromTime t)).
  { rewrite iso_isoDate. unfold isoDate.
    by rewrite (proj2 (andb_true_iff _ _)) by (split; apply Z.leb_le; lia). }
  split; [exact E|]. split; [by rewrite E|]. split; [done|].
  unfold YearFromTime, MonthFromTime, DateFromTime in *.
  pose proof (civil_month_range (Day t)). pose proof (civil_day_range (Day t)).
  split; [lia|]. split; [lia|].
  replace ((civil_from_days (Day t)).1.2 - 1 + 1) with ((civil_from_days (Day t)).1.2) by lia.
  rewrite days_from_civil_from_days. lia.
Qed.

Lemma iso_fields_round_trip_witness :
  ∃ y m d, iso sample_today = pad4 y +:+ "-" +:+ pad2 m +:+ "-" +:+ pad2 d ∧
           String.length (iso sample_today) = 10%nat ∧
           0 <= y <= 9999 ∧ 1 <= m <= 12 ∧ 1 <= d <= 31 ∧
           days_from_civil y m d = Day sample_today.
Proof. apply (iso_fields_round_trip sample_today). vm_compute. split; discriminate. Defined.

(** X4. Outside the years 0000 to 9999 [toISOString] writes the year with a
    sign and six digits, so the ten characters kept by [iso] end with the
    month: the key no longer holds the day, and all instants of one month get
    the same key. *)
Theorem iso_expanded_year_drops_day t1 t2 :
  ¬ (0 <= YearFromTime t1 <= 9999) ->
  YearFromTime t2 = YearFromTime t1 -> MonthFromTime t2 = MonthFromTime t1 ->
  iso t1 = (if YearFromTime t1 <? 0 then "-" else "+") +:+ pad6 (Z.abs (YearFromTime t1))
             +:+ "-" +:+ pad2 (MonthFromTime t1 + 1) ∧
  iso t2 = iso t1.
Proof.
  intros Hy Ey Em.
  assert (E : ∀ t, YearFromTime t = YearFromTime t1 -> MonthFromTime t = MonthFromTime t1 ->
            iso t = (if YearFromTime t1 <? 0 then "-" else "+") +:+ pad6 (Z.abs (YearFromTime t1))
                      +:+ "-" +:+ pad2 (MonthFromTime t1 + 1)).
  { intros t Hy' Hm'. rewrite iso_isoDate, Hy', Hm'. unfold isoDate.
    rewrite (proj2 (andb_false_iff _ _)); [done|].
    rewrite !Z.leb_gt. lia. }
  split; [by apply E|]. by rewrite (E t2), (E t1).
Qed.

Lemma iso_expanded_year_drops_day_witness :
  iso 253402300800000 = "+010000-01" ∧ iso (253402300800000 + msPerDay) = iso 253402300800000.
Proof.
  apply (iso_expanded_year_drops_day 253402300800000 (253402300800000 + msPerDay));
    vm_compute; [intros [_ H]; by apply H|reflexivity..].
Defined.

(** ** [dateRangeMap] for any two dates *)

(** X5. In a zone with a fixed offset of local time from UTC, for any start
    and end, [dateRangeMap] stops after floor((to - from) / 1 day) + 1
    iterations (none when the end precedes the start, which gives the empty
    map) and returns a zeroed map whose keys are the dates of that many
    consecutive days from the start's.  When the start is not after the end,
    the last key is the end's date if the start is not later in its day than
    the end, and the date before it otherwise. *)
Theorem dateRangeMap_steps tz fuel from to :
  let n := (to - from) / msPerDay + 1 in
  (Z.to_nat n < fuel)%nat ->
  ∃ m, dateRangeMap (fixedOffset tz) fuel from to = Some m ∧
       dom m = calendar_dates (Day from) (Day from + n - 1) ∧
       (∀ key v, m !! key = Some v -> v = 0) ∧
       (to < from -> m = ∅) ∧
       (from <= to ->
        Day from + n - 1 = if TimeWithinDay from <=? TimeWithinDay to then Day to else Day to - 1).
Proof.
  intros n Hfuel.
  pose proof (Day_TimeWithinDay from) as Hf. pose proof (Day_TimeWithinDay to) as Ht.
  pose proof (TimeWithinDay_range from). pose proof (TimeWithinDay_range to).
  assert (Hn : (n - 1) * msPerDay <= to - from < n * msPerDay)
    by (subst n; unfold msPerDay; divmod).
  unfold dateRangeMap. cbv zeta. rewrite (range_loop tz to (Z.to_nat n)).
  - cbn. eexists; split; [done|]. split; [|split; [|split]].
    + apply set_eq. intros key. rewrite elem_of_dom, foldl_zero_lookup, lookup_empty.
      unfold calendar_dates. rewrite elem_of_list_to_set.
      replace (Day from + n - 1 - Day from + 1) with n by lia.
      replace (Z.of_nat (Z.to_nat n)) with (Z.max 0 n) by lia.
      replace (seqZ (Day from) (Z.max 0 n)) with (seqZ (Day from) n).
      2:{ destruct (Z.max_spec 0 n) as [[? ->]|[? ->]]; [done|]. by rewrite !seqZ_nil by lia. }
      case_decide as Hin; (split; [|by eauto]); [done | by intros [? [=]]].
    + intros k v. rewrite foldl_zero_lookup, lookup_empty. by case_decide; intros [=].
    + intros Hlt. replace (Z.to_nat n) with 0%nat; [done|]. unfold msPerDay in *. lia.
    + intros Hle. destruct (Z.leb_spec (TimeWithinDay from) (TimeWithinDay to));
        unfold msPerDay in *; lia.
  - lia.
  - unfold msPerDay in *. lia.
  - intros i Hi. unfold msPerDay in *. nia.
Qed.

Lemma dateRangeMap_steps_witness :
  ∃ m, dateRangeMap (fixedOffset 0) 10 64800000 194400000 = Some m ∧
       dom m = calendar_dates 0 1 ∧ Day 194400000 = 2.
Proof.
  destruct (dateRangeMap_steps 0 10 64800000 194400000) as (m & Hm & Hdom & _); [vm_compute; lia|].
  exists m. split; [exact Hm|]. split; [exact Hdom|reflexivity].
Defined.

(** ** Merging and totals *)

(** X6. For any base of numbers, zeroed or not, and any two sources none
    of whose keys is the name of a property inherited from
    [Object.prototype], [mergeCalendars] keeps the keys of the base and adds
    to each count what the two sources hold for that date.  Merging does not
    depend on which source comes first, merging the two sources one after
    the other gives the same map as merging them together, and merging two
    empty sources changes nothing. *)
Theorem mergeCalendars_compose (base gh gl : gmap string Z) :
  plain_keys gh -> plain_keys gl ->
  dom (mergeCalendars (Num <$> base) gh gl) = dom base ∧
  (∀ date b, base !! date = Some b ->
     mergeCalendars (Num <$> base) gh gl !! date
     = Some (Num (b + default 0 (gh !! date) + default 0 (gl !! date)))) ∧
  mergeCalendars (Num <$> base) gh gl = mergeCalendars (Num <$> base) gl gh ∧
  mergeCalendars (mergeCalendars (Num <$> base) gh ∅) ∅ gl
    = mergeCalendars (Num <$> base) gh gl ∧
  mergeCalendars (Num <$> base) ∅ ∅ = Num <$> base.
Proof.
  intros Pgh Pgl. pose proof plain_keys_empty as Pe.
  split; [|split; [|split; [|split]]].
  - rewrite mergeCalendars_merged_counts by done. by rewrite dom_fmap_L, merged_counts_dom.
  - intros date b Hb. by apply mergeCalendars_lookup_own.
  - rewrite !mergeCalendars_merged_counts by done. f_equal.
    apply map_eq. intros k. rewrite !merged_counts_lookup.
    destruct (base !! k); [|done]. cbn. f_equal. lia.
  - rewrite !mergeCalendars_merged_counts by done. f_equal.
    apply map_eq. intros k. rewrite !merged_counts_lookup, !lookup_empty.
    destruct (base !! k); [|done]. cbn. f_equal. lia.
  - rewrite !mergeCalendars_merged_counts by done. f_equal.
    apply map_eq. intros k. rewrite !merged_counts_lookup, !lookup_empty.
    destruct (base !! k); [|done]. cbn. f_equal. lia.
Qed.

Lemma mergeCalendars_compose_witness :
  mergeCalendars (Num <$> sample_base) sample_gh sample_gl
  = mergeCalendars (Num <$> sample_base) sample_gl sample_gh.
Proof.
  destruct (mergeCalendars_compose sample_base sample_gh sample_gl
              (proj1 sample_plain) (proj2 sample_plain)) as (_ & _ & H & _).
  exact H.
Defined.

Lemma foldl_add_foldr a (l : list Z) : foldl (λ a b, a + b) a l = a + foldr Z.add 0 l.
Proof. revert a. induction l as [|x l IH]; intros a; cbn; [lia|]. rewrite IH. lia. Qed.

Lemma foldr_add_perm (l1 l2 : list Z) : l1 ≡ₚ l2 -> foldr Z.add 0 l1 = foldr Z.add 0 l2.
Proof. induction 1; cbn; lia. Qed.

Lemma sum_empty : sum ∅ = 0.
Proof. reflexivity. Qed.

Lemma sum_insert (m : gmap string Z) k v : m !! k = None -> sum (<[k := v]> m) = v + sum m.
Proof.
  intros Hk. unfold sum, Object_values. rewrite !foldl_add_foldr.
  rewrite (foldr_add_perm _ ((k, v) :: map_to_list m).*2); [cbn; lia|].
  by rewrite map_to_list_insert.
Qed.

Lemma lookup_insert_fresh (m : gmap string Z) k v k' v' :
  m !! k = None -> m !! k' = Some v' -> <[k := v]> m !! k' = Some v'.
Proof. intros Hk Hk'. rewrite lookup_insert_ne; [done|]. intros ->. congruence. Qed.

Lemma sum_nonneg (m : gmap string Z) : (∀ k v, m !! k = Some v -> 0 <= v) -> 0 <= sum m.
Proof.
  induction m as [|k v m Hk IH] using map_ind; intros Hnn; [by rewrite sum_empty|].
  rewrite sum_insert by done.
  pose proof (Hnn k v (lookup_insert_eq _ _ _)) as Hv.
  assert (0 <= sum m) as Hs.
  { apply IH. intros k' v' Hk'. apply (Hnn k' v'). by apply lookup_insert_fresh. }
  lia.
Qed.

Lemma sum_zero (m : gmap string Z) : (∀ k v, m !! k = Some v -> v = 0) -> sum m = 0.
Proof.
  induction m as [|k v m Hk IH] using map_ind; intros Hz; [done|].
  rewrite sum_insert by done. rewrite (Hz k v (lookup_insert_eq _ _ _)).
  rewrite IH; [done|]. intros k' v' Hk'. apply (Hz k' v'). by apply lookup_insert_fresh.
Qed.

Lemma within_lookup base src k :
  within base src !! k = if decide (is_Some (base !! k)) then src !! k else None.
Proof.
  unfold within. apply option_eq. intros v. rewrite map_lookup_filter_Some. cbn.
  case_decide; [tauto|]. split; [tauto|done].
Qed.

Lemma within_empty src : within ∅ src = ∅.
Proof.
  apply map_eq. intros k. rewrite within_lookup, lookup_empty.
  rewrite decide_False; [done|]. by intros [? [=]].
Qed.

Lemma sum_within_insert base src k b :
  base !! k = None ->
  sum (within (<[k := b]> base) src) = default 0 (src !! k) + sum (within base src).
Proof.
  intros Hk. destruct (src !! k) as [v|] eqn:E; cbn.
  - rewrite <- (sum_insert (within base src) k v).
    + f_equal. apply map_eq. intros k'. rewrite within_lookup.
      destruct (decide (k = k')) as [<-|Hne].
      * rewrite !lookup_insert_eq. by rewrite decide_True by eauto.
      * rewrite !lookup_insert_ne by done. by rewrite within_lookup.
    + rewrite within_lookup, Hk. rewrite decide_False; [done|]. by intros [? [=]].
  - replace (within (<[k:=b]> base) src) with (within base src); [lia|].
    apply map_eq. intros k'. rewrite !within_lookup.
    destruct (decide (k = k')) as [<-|Hne].
    + rewrite E. by repeat case_decide.
    + by rewrite lookup_insert_ne.
Qed.

Lemma merged_counts_insert base gh gl k b :
  base !! k = None ->
  merged_counts (<[k := b]> base) gh gl
  = <[k := b + default 0 (gh !! k) + default 0 (gl !! k)]> (merged_counts base gh gl).
Proof.
  intros Hk. apply map_eq. intros k'. rewrite merged_counts_lookup.
  destruct (decide (k = k')) as [<-|Hne].
  - by rewrite !lookup_insert_eq.
  - rewrite !lookup_insert_ne by done. by rewrite merged_counts_lookup.
Qed.

(** The sum of the merged counts: what the base held, and what each source
    holds for the dates of the base. *)
Lemma sum_merged_counts base gh gl :
  sum (merged_counts base gh gl) = sum base + sum (within base gh) + sum (within base gl).
Proof.
  induction base as [|k b base Hk IH] using map_ind.
  - replace (merged_counts ∅ gh gl) with (∅ : gmap string Z).
    2:{ apply map_eq. intros k. by rewrite merged_counts_lookup, lookup_empty. }
    rewrite !within_empty, sum_empty. lia.
  - rewrite merged_counts_insert by done.
    rewrite !sum_insert, !sum_within_insert, IH; try done; [lia|].
    by rewrite merged_counts_lookup, Hk.
Qed.

Lemma sum_within_le base src :
  (∀ k v, src !! k = Some v -> 0 <= v) -> sum (within base src) <= sum src.
Proof.
  induction src as [|k v src Hk IH] using map_ind; intros Hnn.
  - unfold within. by rewrite map_filter_empty.
  - rewrite sum_insert by done.
    pose proof (Hnn k v (lookup_insert_eq _ _ _)) as Hv.
    assert (sum (within base src) <= sum src) as IH'.
    { apply IH. intros k' v' Hk'. apply (Hnn k' v'). by apply lookup_insert_fresh. }
    unfold within in *. destruct (decide (is_Some (base !! k))) as [Hin|Hout].
    + rewrite map_filter_insert_True by done. rewrite sum_insert; [lia|].
      apply map_lookup_filter_None. by left.
    + rewrite map_filter_insert_not'; [lia|done|]. intros y. congruence.
Qed.

Lemma within_all base (src : gmap string Z) : dom src ⊆ dom base -> within base src = src.
Proof.
  intros Hsub. apply map_eq. intros k. rewrite within_lookup.
  case_decide as Hk; [done|]. symmetry. apply not_elem_of_dom. intros Hin.
  apply Hk, elem_of_dom. by apply Hsub.
Qed.

(** X7. The totals of the variant with totals.  For a zeroed base and
    sources none of whose keys is the name of a property inherited from
    [Object.prototype], the merged object holds numbers only and their sum
    is the sum of what the two sources hold for the dates of the base.  It
    equals the sum of the two sources' own totals when all their dates lie
    in the base; for sources with non-negative counts it is never more than
    that, since contributions dated outside the base are dropped by the
    merge but counted in the totals of the sources. *)
Theorem totals_of_merge (base ghMap glMap : gmap string Z) :
  (∀ date b, base !! date = Some b -> b = 0) ->
  plain_keys ghMap -> plain_keys glMap ->
  ∃ merged,
    numbers (mergeCalendars (Num <$> base) ghMap glMap) = Some merged ∧
    sum merged = sum (within base ghMap) + sum (within base glMap) ∧
    (dom ghMap ⊆ dom base -> dom glMap ⊆ dom base -> sum merged = sum ghMap + sum glMap) ∧
    ((∀ k v, ghMap !! k = Some v -> 0 <= v) -> (∀ k v, glMap !! k = Some v -> 0 <= v) ->
     0 <= sum merged <= sum ghMap + sum glMap).
Proof.
  intros Hz Pgh Pgl. exists (merged_counts base ghMap glMap).
  split; [by apply mergeCalendars_numbers|].
  assert (E : sum (merged_counts base ghMap glMap)
              = sum (within base ghMap) + sum (within base glMap)).
  { rewrite sum_merged_counts, (sum_zero base Hz). lia. }
  split; [exact E|]. split.
  - intros H1 H2. by rewrite E, !within_all.
  - intros H1 H2. rewrite E.
    pose proof (sum_within_le base ghMap H1). pose proof (sum_within_le base glMap H2).
    assert (0 <= sum (within base ghMap)) as Hgh.
    { apply sum_nonneg. intros k v. rewrite within_lookup. case_decide; [apply H1|done]. }
    assert (0 <= sum (within base glMap)) as Hgl.
    { apply sum_nonneg. intros k v. rewrite within_lookup. case_decide; [apply H2|done]. }
    lia.
Qed.

Lemma totals_of_merge_witness :
  ∃ merged,
    numbers (mergeCalendars (Num <$> sample_base) sample_gh sample_gl) = Some merged ∧
    sum merged = 2 + 5 ∧ sum sample_gh + sum sample_gl = 11 + 5.
Proof.
  destruct (totals_of_merge sample_base sample_gh sample_gl sample_base_zero
              (proj1 sample_plain) (proj2 sample_plain)) as (merged & Hm & H & _).
  exists merged. split; [exact Hm|]. split; [exact H|reflexivity].
Defined.

(** ** The map built from the GraphQL reply *)










(** ** More on [computeLevels] *)

Lemma computeLevels_dom values : dom (computeLevels values) = dom values.
Proof.
  apply set_eq. intros k. rewrite !elem_of_dom, computeLevels_lookup. by rewrite fmap_is_Some.
Qed.

Lemma computeLevels_range values k lvl :
  computeLevels values !! k = Some lvl -> 0 <= lvl <= 4.
Proof.
  rewrite computeLevels_lookup. destruct (values !! k) as [v|]; [|done].
  intros [= <-]. apply level_range.
Qed.

Lemma computeLevels_fmap values :
  computeLevels values
  = level (array_get (sorted_values values) (Math_floor_mul (Z.of_nat (size values) - 1) 1 4))
          (array_get (sorted_values values) (Math_floor_mul (Z.of_nat (size values) - 1) 1 2))
          (array_get (sorted_values values) (Math_floor_mul (Z.of_nat (size values) - 1) 3 4))
      <$> values.
Proof. apply map_eq. intros k. by rewrite computeLevels_lookup, lookup_fmap. Qed.

Lemma Object_values_insert (m : gmap string Z) k v :
  m !! k = None -> Object_values (<[k := v]> m) ≡ₚ v :: Object_values m.
Proof. intros Hk. unfold Object_values. by rewrite map_to_list_insert. Qed.

(** Counting the entries of a map by a property of their values is counting
    in the array of its values. *)
Lemma size_filter_values (Q : Z -> Prop) `{HQ : ∀ v, Decision (Q v)} (m : gmap string Z) :
  size (filter (λ kv, Q kv.2) m) = length (filter Q (Object_values m)).
Proof.
  induction m as [|k v m Hk IH] using map_ind.
  - by rewrite map_filter_empty.
  - rewrite (Permutation_length (filter_Permutation _ _ _ (Object_values_insert m k v Hk))).
    rewrite filter_cons. destruct (decide (Q v)) as [Hq|Hq].
    + rewrite map_filter_insert_True by done.
      rewrite map_size_insert_None by (apply map_lookup_filter_None; by left).
      cbn. by rewrite IH.
    + rewrite map_filter_insert_not'; [done|done|]. intros y. congruence.
Qed.

Lemma size_filter_impl (P Q : string * Z -> Prop) `{∀ x, Decision (P x)} `{∀ x, Decision (Q x)}
    (m : gmap string Z) :
  (∀ x, P x -> Q x) -> (size (filter P m) <= size (filter Q m))%nat.
Proof.
  intros HPQ. apply map_subseteq_size, map_filter_subseteq_ext. intros k v _. apply HPQ.
Qed.

Lemma level_4 q1 q2 q3 v : level q1 q2 q3 v = 4 -> js_gt v q3 = true.
Proof. unfold level. repeat case_match; (done || lia). Qed.

(** In an ascending array, only the entries after index [i] can exceed the
    entry at [i]. *)
Lemma sorted_count_above (l : list Z) : ∀ (i : nat) (q : Z),
  StronglySorted Z.le l -> l !! i = Some q ->
  (length (filter (λ x, (q < x)%Z) l) + i + 1 <= length l)%nat.
Proof.
  induction l as [|a l IH]; intros i q Hs Hi; [done|].
  apply StronglySorted_inv in Hs as [Hs Ha].
  destruct i as [|i]; cbn in Hi.
  - injection Hi as ->. rewrite filter_cons, decide_False by lia.
    pose proof (length_filter (λ x, q < x) l). cbn. lia.
  - rewrite Forall_forall in Ha.
    assert (a <= q) by (apply Ha; eapply list_elem_of_lookup_2, Hi).
    rewrite filter_cons, decide_False by lia.
    specialize (IH i q Hs Hi). cbn. lia.
Qed.







(** X12. Whatever the counts, the dates that get level 4 number at most
    (n - 1) - floor(3(n-1)/4), n being the number of dates: never all of the
    dates of a non-empty map, and at most 91 of 365. *)
Theorem computeLevels_darkest_at_most_quarter (values : gmap string Z) :
  let n := Z.of_nat (size values) in
  let darkest := Z.of_nat (size (filter (λ kv, kv.2 = 4) (computeLevels values))) in
  darkest <= (n - 1) - 3 * (n - 1) / 4 ∧
  (0 < n -> darkest < n) ∧
  (n = 365 -> darkest <= 91).
Proof.
  intros n darkest.
  assert (Hmain : darkest <= (n - 1) - 3 * (n - 1) / 4).
  { subst darkest.
    destruct (decide (size values = 0%nat)) as [E|Hsz].
    { apply map_size_empty_iff in E. subst values n. vm_compute. discriminate. }
    destruct (quantile_lookup values 3 4) as (q3 & G3 & L3 & _); [lia..|].
    rewrite computeLevels_fmap, G3.
    set (f := level _ _ (Some q3)).
    rewrite (map_filter_fmap (λ kv : string * Z, kv.2 = 4) f values), map_size_fmap.
    pose proof (size_filter_impl (λ '(i, x), (i, f x).2 = 4) (λ kv, q3 < kv.2) values) as Hle.
    assert (size (filter (λ kv : string * Z, q3 < kv.2) values)
            = length (filter (λ v, q3 < v) (Object_values values))) as Hcount
      by exact (size_filter_values (λ v, q3 < v) values).
    rewrite Hcount in Hle.
    pose proof (sorted_count_above (sorted_values values) _ q3
                  (Array_sort_sorted _) L3) as Hcnt.
    unfold sorted_values in Hcnt at 1.
    rewrite (Permutation_length (filter_Permutation _ _ _ (Array_sort_perm _ _))) in Hcnt.
    rewrite sorted_values_length in Hcnt.
    assert (0 <= (Z.of_nat (size values) - 1) * 3 / 4) as Hidx by (apply Z.div_pos; lia).
    replace (3 * (n - 1)) with ((Z.of_nat (size values) - 1) * 3) by lia.
    subst n.
    assert (size (filter (λ '(i, x), ((i, f x).2 = 4)%Z) values)
            <= length (filter (λ v : Z, (q3 < v)%Z) (Object_values values)))%nat as Hfin; [|lia].
    apply Hle. intros [i x]. cbn. intros H4%level_4. cbn in H4. lia. }
  split; [exact Hmain|]. split.
  - intros Hn. assert (0 <= 3 * (n - 1) / 4) by (apply Z.div_pos; lia). lia.
  - intros Hn. rewrite Hn in Hmain. exact Hmain.
Qed.

Lemma Object_values_fmap (f : Z -> Z) (values : gmap string Z) :
  Object_values (f <$> values) = f <$> Object_values values.
Proof.
  unfold Object_values. rewrite map_to_list_fmap, <- !list_fmap_compose.
  apply list_fmap_ext. by intros _ [k v] _.
Qed.

Lemma Sorted_fmap_mono (f : Z -> Z) (l : list Z) :
  (∀ a b, a <= b -> f a <= f b) -> StronglySorted Z.le l -> StronglySorted Z.le (f <$> l).
Proof.
  intros Hf Hs. induction Hs as [|x l Hl IH Hx]; [constructor|].
  rewrite fmap_cons. constructor; [done|].
  apply Forall_fmap. eapply Forall_impl; [exact Hx|]. intros y Hy. by apply Hf.
Qed.

Lemma sorted_values_fmap (f : Z -> Z) (values : gmap string Z) :
  (∀ a b, a <= b -> f a <= f b) ->
  sorted_values (f <$> values) = f <$> sorted_values values.
Proof.
  intros Hf. unfold sorted_values. rewrite Object_values_fmap. symmetry.
  apply Array_sort_unique.
  - apply StronglySorted_Sorted, Sorted_fmap_mono; [done|]. apply Array_sort_sorted.
  - by rewrite Array_sort_perm.
Qed.

Lemma array_get_fmap (f : Z -> Z) (arr : list Z) i :
  array_get (f <$> arr) i = f <$> array_get arr i.
Proof. unfold array_get. destruct (i <? 0); [done|]. apply list_lookup_fmap. Qed.

Lemma level_fmap (f : Z -> Z) (q1 q2 q3 : option Z) v :
  (∀ a b, a < b -> f a < f b) -> f 0 = 0 ->
  level (f <$> q1) (f <$> q2) (f <$> q3) (f v) = level q1 q2 q3 v.
Proof.
  intros Hf H0.
  assert (Hlt : ∀ a b, (f a <? f b) = (a <? b)).
  { intros a b. destruct (Z.ltb_spec a b) as [H|H].
    - apply Z.ltb_lt. by apply Hf.
    - apply Z.ltb_ge. destruct (decide (a = b)) as [->|]; [lia|].
      assert (f b < f a) by (apply Hf; lia). lia. }
  assert (Hle : ∀ a b, (f a <=? f b) = (a <=? b)).
  { intros a b. rewrite !Z.leb_antisym. by rewrite Hlt. }
  unfold level, js_le, js_gt. rewrite <- H0 at 1. rewrite Hlt.
  destruct q1 as [q1|], q2 as [q2|], q3 as [q3|]; cbn; by rewrite ?Hlt, ?Hle.
Qed.

(** X13. The levels depend on the counts only through their order and
    their sign: applying to every count a strictly increasing function that
    keeps 0 (doubling all counts, say) changes no level. *)
Theorem computeLevels_rank_invariant (f : Z -> Z) (values : gmap string Z) :
  (∀ a b, a < b -> f a < f b) -> f 0 = 0 ->
  computeLevels (f <$> values) = computeLevels values.
Proof.
  intros Hf H0.
  assert (Hmono : ∀ a b, a <= b -> f a <= f b).
  { intros a b Hab. destruct (decide (a = b)) as [->|]; [lia|].
    assert (f a < f b) by (apply Hf; lia). lia. }
  apply map_eq. intros k. rewrite !computeLevels_lookup, lookup_fmap.
  rewrite map_size_fmap, sorted_values_fmap by done. rewrite !array_get_fmap.
  destruct (values !! k) as [v|]; [|done]. cbn. f_equal. by apply level_fmap.
Qed.

Lemma computeLevels_rank_invariant_witness :
  computeLevels ((λ v, 2 * v) <$> sample_counts) = computeLevels sample_counts.
Proof. apply (computeLevels_rank_invariant (λ v, 2 * v) sample_counts); [lia..]. Defined.

(** ** The grid on the canvas *)

Lemma elem_of_grid_cells tz today w d :
  (w, d) ∈ grid_cells (fixedOffset tz) today
  <-> 0 <= w < weeks (fixedOffset tz) today ∧ 0 <= d < 7.
Proof.
  unfold grid_cells. rewrite list_elem_of_bind. split.
  - intros (w' & (d' & Hin & Hd)%list_elem_of_bind & Hw).
    apply list_elem_of_singleton in Hin as [= -> ->].
    apply elem_of_seqZ in Hw, Hd. lia.
  - intros [Hw Hd]. exists w. split; [|apply elem_of_seqZ; lia].
    apply list_elem_of_bind. exists d. split; [by apply list_elem_of_singleton|].
    apply elem_of_seqZ. lia.
Qed.

Lemma Day_grid_start tz today :
  Day (grid_start (fixedOffset tz) today) = Day today - 364 - WeekDay today.
Proof.
  rewrite grid_start_eq, Day_sub_days, WeekDay_fromDate, fromDate_eq, Day_sub_days. lia.
Qed.

Lemma Day_cell_date tz today w d :
  Day (cell_date (fixedOffset tz) today w d) = Day today - 364 - WeekDay today + (7 * w + d).
Proof. unfold cell_date. by rewrite Day_add_days, Day_grid_start. Qed.

Lemma elem_of_calendar_dates first last key :
  key ∈ calendar_dates first last <-> ∃ n, first <= n <= last ∧ key = isoDay n.
Proof.
  unfold calendar_dates. rewrite elem_of_list_to_set, list_elem_of_fmap.
  split; intros (n & H1 & H2).
  - apply elem_of_seqZ in H2. exists n. split; [lia|done].
  - exists n. split; [done|]. apply elem_of_seqZ. lia.
Qed.

(** X14. Whatever the date and the fixed offset of local time, both
    renderers draw 54 columns of 7 cells, 378 rectangles, on a canvas 650
    wide and 86 high (112 with the header of the variant with totals). *)
Theorem renderSVG_fixed_size tz today :
  weeks (fixedOffset tz) today = 54 ∧ width (fixedOffset tz) today = 650 ∧
  length (grid_cells (fixedOffset tz) today) = 378%nat ∧
  (∀ levels, renderSVG (fixedOffset tz) today levels
     = svg_open 650 86 +:+ "  "
         +:+ concat_strings (cell_rect (fixedOffset tz) today levels
                               <$> grid_cells (fixedOffset tz) today)
         +:+ nl +:+ "</svg>") ∧
  (∀ levels counts totals, renderSVG_counts (fixedOffset tz) today levels counts totals
     = svg_open 650 112 +:+ svg_labels (fixedOffset tz) today totals +:+ "  "
         +:+ concat_strings (cell_rect_counts (fixedOffset tz) today levels counts
                               <$> grid_cells (fixedOffset tz) today)
         +:+ nl +:+ "</svg>").
Proof.
  assert (Hw : width (fixedOffset tz) today = 650) by (unfold width; by rewrite weeks_eq).
  split; [apply weeks_eq|]. split; [exact Hw|].
  split; [unfold grid_cells; by rewrite weeks_eq|]. split.
  - intros levels. unfold renderSVG. cbv zeta. by rewrite render_rects_cells, Hw.
  - intros levels counts totals. unfold renderSVG_counts. cbv zeta.
    by rewrite render_rects_counts_cells, Hw.
Qed.

(** X15. Every rectangle of the grid lies on the canvas with a margin of
    [gap] on each side (below the header band in the variant with totals),
    and no two rectangles of the grid overlap. *)
Theorem rects_inside_canvas tz today w d :
  (w, d) ∈ grid_cells (fixedOffset tz) today ->
  let x := gap + w * (cell + gap) in
  let y := gap + d * (cell + gap) in
  let y' := headerH + gap + d * (cell + gap) in
  (gap <= x ∧ x + cell + gap <= width (fixedOffset tz) today) ∧
  (gap <= y ∧ y + cell + gap <= 7 * (cell + gap) + gap) ∧
  (headerH + gap <= y' ∧ y' + cell + gap <= headerH + 7 * (cell + gap) + gap) ∧
  (∀ w2 d2, (w2, d2) ∈ grid_cells (fixedOffset tz) today -> (w2, d2) ≠ (w, d) ->
     let x2 := gap + w2 * (cell + gap) in
     let y2 := gap + d2 * (cell + gap) in
     let y2' := headerH + gap + d2 * (cell + gap) in
     (x + cell <= x2 ∨ x2 + cell <= x ∨ y + cell <= y2 ∨ y2 + cell <= y) ∧
     (x + cell <= x2 ∨ x2 + cell <= x ∨ y' + cell <= y2' ∨ y2' + cell <= y')).
Proof.
  intros [Hw Hd]%elem_of_grid_cells. cbv zeta. unfold width, cell, gap, headerH.
  split; [lia|]. split; [lia|]. split; [lia|].
  intros w2 d2 [Hw2 Hd2]%elem_of_grid_cells Hne.
  destruct (decide (w2 = w)) as [->|]; [|lia].
  destruct (decide (d2 = d)) as [->|]; [done|lia].
Qed.

Lemma rects_inside_canvas_witness :
  gap <= gap + 53 * (cell + gap) ∧
  gap + 53 * (cell + gap) + cell + gap <= width (fixedOffset 0) sample_today.
Proof.
  assert (Hin : (53, 6) ∈ grid_cells (fixedOffset 0) sample_today).
  { apply elem_of_grid_cells. rewrite weeks_eq. lia. }
  exact (proj1 (rects_inside_canvas 0 sample_today 53 6 Hin)).
Defined.

(** X16. In a zone with a fixed offset of local time from UTC, every day
    of the 365-day window, from 364 days before today's UTC day through
    today's, is the day of exactly one cell of the grid, in one of the first
    53 columns: no day of the window is left undrawn or drawn twice. *)
Theorem grid_covers_window tz today n :
  Day today - 364 <= n <= Day today ->
  ∃ w d, (w, d) ∈ grid_cells (fixedOffset tz) today ∧
         Day (cell_date (fixedOffset tz) today w d) = n ∧
         w <= 52 ∧
         (∀ w' d', (w', d') ∈ grid_cells (fixedOffset tz) today ->
            Day (cell_date (fixedOffset tz) today w' d') = n -> (w', d') = (w, d)).
Proof.
  intros Hn. pose proof (WeekDay_range today) as Hwd.
  set (j := n - (Day today - 364 - WeekDay today)).
  exists (j / 7), (j mod 7). split; [|split; [|split]].
  - apply elem_of_grid_cells. rewrite weeks_eq. subst j. divmod.
  - rewrite Day_cell_date. subst j. divmod.
  - subst j. divmod.
  - intros w' d' [Hw' Hd']%elem_of_grid_cells. rewrite Day_cell_date. intros E.
    f_equal; subst j; divmod.
Qed.

Lemma grid_covers_window_witness :
  ∃ w d, (w, d) ∈ grid_cells (fixedOffset 0) sample_today ∧
         Day (cell_date (fixedOffset 0) sample_today w d) = Day sample_today ∧ w <= 52.
Proof.
  destruct (grid_covers_window 0 sample_today (Day sample_today)) as (w & d & H1 & H2 & H3 & _);
    [lia|].
  exists w, d. split; [exact H1|]. split; [exact H2|exact H3].
Defined.

(** ** What a run draws and writes *)

(** X17. In a zone with a fixed offset and for sources none of whose keys
    is the name of an inherited property: in a run, a cell of the grid whose
    day lies in the 365-day window is drawn from the merged count of its
    date: the count is the sum of what the two sources hold for the date,
    the level is the one [computeLevels] gives it, between 0 and 4, the fill
    is the palette colour of that level, and the tooltip of the variant with
    totals shows the merged count. *)
Theorem cells_inside_window tz today fuel base ghMap glMap w d :
  (365 < fuel)%nat ->
  dateRangeMap (fixedOffset tz) fuel (fromDate (fixedOffset tz) today) today = Some base ->
  plain_keys ghMap -> plain_keys glMap ->
  Day today - 364 <= Day (cell_date (fixedOffset tz) today w d) <= Day today ->
  let key := iso (cell_date (fixedOffset tz) today w d) in
  let cnt := default 0 (ghMap !! key) + default 0 (glMap !! key) in
  ∃ merged lvl colour,
    numbers (mergeCalendars (Num <$> base) ghMap glMap) = Some merged ∧
    merged !! key = Some cnt ∧
    computeLevels merged !! key = Some lvl ∧ 0 <= lvl <= 4 ∧
    palette !! Z.to_nat lvl = Some colour ∧
    cell_rect (fixedOffset tz) today (computeLevels merged) (w, d)
      = rect (gap + w * (cell + gap)) (gap + d * (cell + gap)) (Some colour) key lvl ∧
    cell_rect_counts (fixedOffset tz) today (computeLevels merged) merged (w, d)
      = rect_counts (gap + w * (cell + gap)) (headerH + gap + d * (cell + gap))
                    (Some colour) key cnt.
Proof.
  intros Hfuel Hbase Pgh Pgl Hin. cbv zeta.
  destruct (dateRangeMap_today tz today fuel Hfuel) as (base' & Hbase' & Hdom & Hzero).
  rewrite Hbase in Hbase'. injection Hbase' as <-.
  set (key := iso (cell_date (fixedOffset tz) today w d)).
  assert (Hkey : key ∈ dom base).
  { rewrite Hdom. apply elem_of_calendar_dates. eexists. split; [exact Hin|].
    subst key. apply iso_isoDay. }
  apply elem_of_dom in Hkey as [b Hb].
  exists (merged_counts base ghMap glMap).
  assert (Hm : merged_counts base ghMap glMap !! key
               = Some (default 0 (ghMap !! key) + default 0 (glMap !! key))).
  { rewrite merged_counts_lookup, Hb. cbn. by rewrite (Hzero _ _ Hb). }
  assert (Hl : is_Some (computeLevels (merged_counts base ghMap glMap) !! key)).
  { apply elem_of_dom. rewrite computeLevels_dom. apply elem_of_dom. eauto. }
  destruct Hl as [lvl Hl].
  assert (Hr : 0 <= lvl <= 4) by (by eapply computeLevels_range).
  destruct (palette_in_bounds lvl Hr) as [colour Hc].
  exists lvl, colour. split; [by apply mergeCalendars_numbers|].
  split; [done|]. split; [done|]. split; [done|].
  split.
  { unfold array_get in Hc. destruct (Z.ltb_spec lvl 0); [lia|done]. }
  unfold cell_rect, cell_rect_counts, lookup_or_0. fold key. rewrite Hl, Hm.
  cbn [default from_option id]. by rewrite Hc.
Qed.

Lemma cells_inside_window_witness :
  ∃ base merged lvl colour,
    dateRangeMap (fixedOffset 0) 400 (fromDate (fixedOffset 0) sample_today) sample_today
      = Some base ∧
    numbers (mergeCalendars (Num <$> base) sample_gh sample_gl) = Some merged ∧
    merged !! "2024-02-29" = Some 4 ∧
    cell_rect_counts (fixedOffset 0) sample_today (computeLevels merged) merged (52, 4)
    = rect_counts 626 76 (Some colour) "2024-02-29" 4 ∧ 0 <= lvl <= 4.
Proof.
  destruct (dateRangeMap_today 0 sample_today 400) as (base & Hbase & _); [lia|].
  destruct (cells_inside_window 0 sample_today 400 base sample_gh sample_gl 52 4)
    as (merged & lvl & colour & Hn & Hm & _ & Hr & _ & _ & Hc).
  - lia.
  - exact Hbase.
  - apply sample_plain.
  - apply sample_plain.
  - vm_compute. split; discriminate.
  - exists base, merged, lvl, colour. split; [exact Hbase|]. split; [exact Hn|].
    split; [exact Hm|]. split; [exact Hc|exact Hr].
Defined.

(** X18. In a zone with a fixed offset and for sources none of whose keys
    is the name of an inherited property: in a run whose grid lies within
    the years 0000 to 9999, a cell of the grid whose day is outside the
    365-day window (the days before the window in the first column, and the
    days after today, among them the whole last column) has no entry in the
    merged map: it is drawn with level 0, the first palette colour and, in
    the variant with totals, a count of 0, whatever the sources report for
    its date. *)
Theorem cells_outside_window_blank tz today fuel base ghMap glMap w d :
  (365 < fuel)%nat ->
  dateRangeMap (fixedOffset tz) fuel (fromDate (fixedOffset tz) today) today = Some base ->
  plain_keys ghMap -> plain_keys glMap ->
  0 <= YearFromTime (grid_start (fixedOffset tz) today) ->
  YearFromTime (cell_date (fixedOffset tz) today 53 6) <= 9999 ->
  (w, d) ∈ grid_cells (fixedOffset tz) today ->
  ¬ (Day today - 364 <= Day (cell_date (fixedOffset tz) today w d) <= Day today) ->
  let key := iso (cell_date (fixedOffset tz) today w d) in
  ∃ merged,
    numbers (mergeCalendars (Num <$> base) ghMap glMap) = Some merged ∧
    merged !! key = None ∧
    cell_rect (fixedOffset tz) today (computeLevels merged) (w, d)
      = rect (gap + w * (cell + gap)) (gap + d * (cell + gap)) (Some "#ebedf0") key 0 ∧
    cell_rect_counts (fixedOffset tz) today (computeLevels merged) merged (w, d)
      = rect_counts (gap + w * (cell + gap)) (headerH + gap + d * (cell + gap))
                    (Some "#ebedf0") key 0.
Proof.
  intros Hfuel Hbase Pgh Pgl Hlo%year_lower Hhi%year_upper [Hw Hd]%elem_of_grid_cells Hout.
  cbv zeta. rewrite weeks_eq in Hw.
  rewrite Day_grid_start in Hlo. rewrite (Day_cell_date tz today 53 6) in Hhi.
  destruct (dateRangeMap_today tz today fuel Hfuel) as (base' & Hbase' & Hdom & _).
  rewrite Hbase in Hbase'. injection Hbase' as <-.
  exists (merged_counts base ghMap glMap). split; [by apply mergeCalendars_numbers|].
  assert (Hnone : merged_counts base ghMap glMap
                    !! iso (cell_date (fixedOffset tz) today w d) = None).
  { apply not_elem_of_dom. rewrite merged_counts_dom, Hdom, elem_of_calendar_dates.
    intros (n & Hn & E). rewrite iso_isoDay in E. apply isoDay_inj in E; [lia| |].
    - rewrite Day_cell_date. lia.
    - pose proof (WeekDay_range today). lia. }
  assert (Hnone' : computeLevels (merged_counts base ghMap glMap)
                     !! iso (cell_date (fixedOffset tz) today w d) = None).
  { apply not_elem_of_dom. rewrite computeLevels_dom. by apply not_elem_of_dom. }
  split; [done|]. unfold cell_rect, cell_rect_counts, lookup_or_0. by rewrite Hnone, Hnone'.
Qed.

Lemma cells_outside_window_blank_witness :
  ∃ base merged,
    dateRangeMap (fixedOffset 0) 400 (fromDate (fixedOffset 0) sample_today) sample_today
      = Some base ∧
    numbers (mergeCalendars (Num <$> base) sample_gh sample_gl) = Some merged ∧
    cell_rect (fixedOffset 0) sample_today (computeLevels merged) (53, 0)
    = rect 638 2 (Some "#ebedf0") "2024-03-03" 0.
Proof.
  destruct (dateRangeMap_today 0 sample_today 400) as (base & Hbase & _); [lia|].
  destruct (cells_outside_window_blank 0 sample_today 400 base sample_gh sample_gl 53 0)
    as (merged & Hn & _ & Hc & _).
  - lia.
  - exact Hbase.
  - apply sample_plain.
  - apply sample_plain.
  - vm_compute. discriminate.
  - vm_compute. discriminate.
  - apply elem_of_grid_cells. rewrite weeks_eq. lia.
  - vm_compute. intros [_ H]. by apply H.
  - exists base, merged. split; [exact Hbase|]. split; [exact Hn|exact Hc].
Defined.

(** X19. In a zone with a fixed offset, a run in which both fetchers
    return maps without inherited names among their keys, and in which the
    calls to the host ([process.cwd], [mkdirSync], [writeFileSync]) return,
    exits with status 0, logs nothing to the error stream, prints the path
    and leaves in the file, whatever it held before, the rendering of the
    levels of the merged map; the merged map has the 365 dates of the window
    as keys, each bound to the sum of the two sources' counts for the date.
    The variant with totals renders the same levels with the merged counts
    and the three sums. *)
Theorem main_success_output tz today cwd fuel file0 gh_reply gl_reply gh_first ghMap glMap :
  (365 < fuel)%nat ->
  fetchGitHubCalendar gh_reply = inr ghMap -> fetchGitLabCalendar gl_reply = inr glMap ->
  plain_keys ghMap -> plain_keys glMap ->
  ∃ base merged o o',
    dateRangeMap (fixedOffset tz) fuel (fromDate (fixedOffset tz) today) today = Some base ∧
    numbers (mergeCalendars (Num <$> base) ghMap glMap) = Some merged ∧
    dom merged = calendar_dates (Day today - 364) (Day today) ∧
    (∀ key, key ∈ dom merged ->
       merged !! key = Some (default 0 (ghMap !! key) + default 0 (glMap !! key))) ∧
    main (fixedOffset tz) today cwd fuel Written file0 gh_reply gl_reply gh_first = Some o ∧
    exitCode o = 0 ∧ stderr o = [] ∧ stdout o = ["Wrote " +:+ outPath cwd] ∧
    contrib_svg o = Some (renderSVG (fixedOffset tz) today (computeLevels merged)) ∧
    main_counts (fixedOffset tz) today cwd fuel Written file0 gh_reply gl_reply gh_first
      = Some o' ∧
    exitCode o' = 0 ∧ stderr o' = [] ∧ stdout o' = ["Wrote " +:+ outPath cwd] ∧
    contrib_svg o'
      = Some (renderSVG_counts (fixedOffset tz) today (computeLevels merged) merged
                (mkTotals (sum ghMap) (sum glMap) (sum merged))).
Proof.
  intros Hfuel Hgh Hgl Pgh Pgl.
  destruct (dateRangeMap_today tz today fuel Hfuel) as (base & Hbase & Hdom & Hzero).
  unfold main, main_counts. rewrite Hbase. cbn [mbind option_bind].
  destruct (pipeline_fulfilled (fixedOffset tz) today base gh_reply gl_reply gh_first
              ghMap glMap Hgh Hgl Pgh Pgl) as [-> ->].
  cbn [mbind option_bind].
  eexists base, (merged_counts base ghMap glMap), _, _.
  split; [done|]. split; [by apply mergeCalendars_numbers|].
  split; [by rewrite merged_counts_dom|]. split.
  - intros key. rewrite merged_counts_dom. intros [b Hb]%elem_of_dom.
    rewrite merged_counts_lookup, Hb. cbn. by rewrite (Hzero _ _ Hb).
  - repeat split.
Qed.

Lemma reply_github_ok_map :
  fetchGitHubCalendar reply_github_ok
  = inr (<["2024-02-29" := 1]> (<["2024-02-28" := 5]> ∅)).
Proof. reflexivity. Qed.

Lemma main_success_output_witness :
  ∃ merged o,
    main (fixedOffset 0) sample_today "/work" 400 Written (Some "old")
         reply_github_ok reply_gitlab_ok true = Some o ∧
    exitCode o = 0 ∧
    contrib_svg o = Some (renderSVG (fixedOffset 0) sample_today (computeLevels merged)).
Proof.
  destruct (main_success_output 0 sample_today "/work" 400 (Some "old")
              reply_github_ok reply_gitlab_ok true
              (<["2024-02-29" := 1]> (<["2024-02-28" := 5]> ∅)) ∅)
    as (base & merged & o & o' & _ & _ & _ & _ & H & He & _ & _ & Hf & _);
    [lia|reflexivity|reflexivity| | |].
  - by apply plain_keys_check.
  - apply plain_keys_empty.
  - exists merged, o. split; [exact H|]. split; [exact He|exact Hf].
Defined.

(** X20. A GraphQL reply that is accepted but whose body has no [weeks]
    array (no [data], an unknown user, an error reported in the body) is not
    treated as a failure: [fetchGitHubCalendar] returns the empty map, and
    if the GitLab fetch returns a map without inherited names among its keys
    and the calls to the host ([process.cwd], [mkdirSync], [writeFileSync])
    return, the run (in a zone with a fixed offset) exits with status 0,
    logs no error and writes a calendar in which every date of the window
    holds the GitLab count only. *)
Theorem main_github_data_missing tz today cwd fuel file0
    (res : Response (option (list Week))) gl_reply gh_first glMap :
  (365 < fuel)%nat ->
  ok res = true -> json res = inr None -> fetchGitLabCalendar gl_reply = inr glMap ->
  plain_keys glMap ->
  fetchGitHubCalendar (inr res) = inr ∅ ∧
  ∃ merged o,
    dom merged = calendar_dates (Day today - 364) (Day today) ∧
    (∀ key, key ∈ calendar_dates (Day today - 364) (Day today) ->
       merged !! key = Some (default 0 (glMap !! key))) ∧
    main (fixedOffset tz) today cwd fuel Written file0 (inr res) gl_reply gh_first = Some o ∧
    exitCode o = 0 ∧ stderr o = [] ∧
    contrib_svg o = Some (renderSVG (fixedOffset tz) today (computeLevels merged)).
Proof.
  intros Hfuel Hok Hjson Hgl Pgl.
  assert (Hgh : fetchGitHubCalendar (inr res) = inr ∅).
  { unfold fetchGitHubCalendar. cbn. by rewrite Hok, Hjson. }
  split; [exact Hgh|].
  destruct (dateRangeMap_today tz today fuel Hfuel) as (base & Hbase & Hdom & Hzero).
  unfold main. rewrite Hbase. cbn [mbind option_bind].
  destruct (pipeline_fulfilled (fixedOffset tz) today base (inr res) gl_reply gh_first
              ∅ glMap Hgh Hgl plain_keys_empty Pgl) as [-> _].
  cbn [mbind option_bind].
  eexists (merged_counts base ∅ glMap), _.
  split; [by rewrite merged_counts_dom|]. split; [|repeat split].
  intros key. rewrite <- Hdom. intros [b Hb]%elem_of_dom.
  rewrite merged_counts_lookup, Hb, lookup_empty. cbn. by rewrite (Hzero _ _ Hb).
Qed.

Lemma main_github_data_missing_witness :
  fetchGitHubCalendar (inr (mkResponse true 200 "" (inr None))) = inr ∅ ∧
  ∃ o, main (fixedOffset 0) sample_today "/work" 400 Written None
         (inr (mkResponse true 200 "" (inr None))) reply_gitlab_ok true = Some o ∧
       exitCode o = 0.
Proof.
  destruct (main_github_data_missing 0 sample_today "/work" 400 None
              (mkResponse true 200 "" (inr None)) reply_gitlab_ok true ∅)
    as (Hgh & merged & o & _ & _ & H & He & _); [lia|reflexivity..|apply plain_keys_empty|].
  split; [exact Hgh|]. exists o. split; [exact H|exact He].
Defined.

Lemma WeekDay_Day t1 t2 : Day t1 = Day t2 -> WeekDay t1 = WeekDay t2.
Proof. unfold WeekDay. by intros ->. Qed.

Lemma iso_cell_date tz1 tz2 today1 today2 w d :
  Day today1 = Day today2 ->
  iso (cell_date (fixedOffset tz1) today1 w d) = iso (cell_date (fixedOffset tz2) today2 w d).
Proof.
  intros Hday. rewrite !iso_isoDay, !Day_cell_date. by rewrite Hday, (WeekDay_Day _ _ Hday).
Qed.

Lemma grid_cells_eq tz1 tz2 today1 today2 :
  grid_cells (fixedOffset tz1) today1 = grid_cells (fixedOffset tz2) today2.
Proof. unfold grid_cells. by rewrite !weeks_eq. Qed.

Lemma width_eq tz1 tz2 today1 today2 :
  width (fixedOffset tz1) today1 = width (fixedOffset tz2) today2.
Proof. unfold width. by rewrite !weeks_eq. Qed.

Lemma renderSVG_utc_day tz1 tz2 today1 today2 levels :
  Day today1 = Day today2 ->
  renderSVG (fixedOffset tz1) today1 levels = renderSVG (fixedOffset tz2) today2 levels.
Proof.
  intros Hday. unfold renderSVG. cbv zeta. rewrite !render_rects_cells.
  rewrite (width_eq tz1 tz2 today1 today2), (grid_cells_eq tz1 tz2 today1 today2).
  do 4 f_equal. apply list_fmap_ext. intros _ [w d] _. unfold cell_rect.
  by rewrite (iso_cell_date tz1 tz2 today1 today2 w d Hday).
Qed.

Lemma renderSVG_counts_utc_day tz1 tz2 today1 today2 levels counts totals :
  Day today1 = Day today2 ->
  renderSVG_counts (fixedOffset tz1) today1 levels counts totals
  = renderSVG_counts (fixedOffset tz2) today2 levels counts totals.
Proof.
  intros Hday. unfold renderSVG_counts. cbv zeta. rewrite !render_rects_counts_cells.
  rewrite (width_eq tz1 tz2 today1 today2), (grid_cells_eq tz1 tz2 today1 today2).
  f_equal. f_equal.
  - unfold svg_labels. cbv zeta.
    rewrite (width_eq tz1 tz2 today1 today2).
    rewrite (iso_isoDay (fromDate (fixedOffset tz1) today1)).
    rewrite (iso_isoDay (fromDate (fixedOffset tz2) today2)).
    rewrite (iso_isoDay today1), (iso_isoDay today2).
    rewrite !fromDate_eq, !Day_sub_days. by rewrite Hday.
  - do 3 f_equal. apply list_fmap_ext. intros _ [w d] _. unfold cell_rect_counts.
    by rewrite (iso_cell_date tz1 tz2 today1 today2 w d Hday).
Qed.

Lemma zero_map_eq (m1 m2 : gmap string Z) :
  dom m1 = dom m2 -> (∀ k v, m1 !! k = Some v -> v = 0) -> (∀ k v, m2 !! k = Some v -> v = 0) ->
  m1 = m2.
Proof.
  intros Hdom H1 H2. apply map_eq. intros k.
  destruct (m1 !! k) as [v1|] eqn:E1, (m2 !! k) as [v2|] eqn:E2.
  - by rewrite (H1 _ _ E1), (H2 _ _ E2).
  - apply not_elem_of_dom in E2. rewrite <- Hdom in E2. apply not_elem_of_dom in E2. congruence.
  - apply not_elem_of_dom in E1. rewrite Hdom in E1. apply not_elem_of_dom in E1. congruence.
  - done.
Qed.

(** X21. A run depends on the clock only through the UTC day: for any two
    fixed offsets of local time and any two start-up instants on the same
    UTC day, the zeroed base map, both renderers and, for the same replies,
    the whole outcome of the run (exit status, logs, file) are the same. *)
Theorem main_depends_on_utc_day tz1 tz2 today1 today2 cwd fuel fs file0
    gh_reply gl_reply gh_first :
  (365 < fuel)%nat -> Day today1 = Day today2 ->
  dateRangeMap (fixedOffset tz1) fuel (fromDate (fixedOffset tz1) today1) today1
    = dateRangeMap (fixedOffset tz2) fuel (fromDate (fixedOffset tz2) today2) today2 ∧
  (∀ levels,
     renderSVG (fixedOffset tz1) today1 levels = renderSVG (fixedOffset tz2) today2 levels) ∧
  (∀ levels counts totals,
     renderSVG_counts (fixedOffset tz1) today1 levels counts totals
     = renderSVG_counts (fixedOffset tz2) today2 levels counts totals) ∧
  main (fixedOffset tz1) today1 cwd fuel fs file0 gh_reply gl_reply gh_first
    = main (fixedOffset tz2) today2 cwd fuel fs file0 gh_reply gl_reply gh_first ∧
  main_counts (fixedOffset tz1) today1 cwd fuel fs file0 gh_reply gl_reply gh_first
    = main_counts (fixedOffset tz2) today2 cwd fuel fs file0 gh_reply gl_reply gh_first.
Proof.
  intros Hfuel Hday.
  destruct (dateRangeMap_today tz1 today1 fuel Hfuel) as (m1 & Hm1 & Hd1 & Hz1).
  destruct (dateRangeMap_today tz2 today2 fuel Hfuel) as (m2 & Hm2 & Hd2 & Hz2).
  assert (m1 = m2) as <-.
  { apply zero_map_eq; [|done..]. by rewrite Hd1, Hd2, Hday. }
  split; [by rewrite Hm1, Hm2|].
  split; [intros; by apply renderSVG_utc_day|].
  split; [intros; by apply renderSVG_counts_utc_day|].
  unfold main, main_counts. rewrite Hm1, Hm2. cbn [mbind option_bind].
  unfold pipeline, pipeline_counts.
  destruct (Promise_all gh_first (fetchGitHubCalendar gh_reply) (fetchGitLabCalendar gl_reply))
    as [e|[gh gl]]; [done|].
  destruct (numbers (mergeCalendars (Num <$> m1) gh gl)) as [merged|]; [|done].
  cbn [mbind option_bind].
  rewrite (renderSVG_utc_day tz1 tz2 today1 today2 _ Hday).
  by rewrite (renderSVG_counts_utc_day tz1 tz2 today1 today2 _ _ _ Hday).
Qed.

Lemma main_depends_on_utc_day_witness :
  main (fixedOffset 0) sample_today "/work" 400 Written None
       reply_github_ok reply_gitlab_ok true
  = main (fixedOffset 3600000) (sample_today + 1000) "/work" 400 Written None
         reply_github_ok reply_gitlab_ok true.
Proof.
  destruct (main_depends_on_utc_day 0 3600000 sample_today (sample_today + 1000) "/work" 400
              Written None reply_github_ok reply_gitlab_ok true) as (_ & _ & _ & H & _);
    [lia|reflexivity|exact H].
Defined.

(** ** Configuration and requests *)

Lemma truthy_provided x : truthy x = true <-> provided x.
Proof.
  unfold truthy, provided. destruct x as [s|].
  - destruct (String.eqb_spec s "") as [->|Hne]; cbn.
    + split; [done|]. by intros (s & [= <-] & Hs).
    + split; [eauto|done].
  - split; [done|]. by intros (s & [=] & _).
Qed.

Lemma GH_TOKEN_cases env :
  GH_TOKEN env =
    if truthy (env !! "GH_PAT") then env !! "GH_PAT"
    else if truthy (env !! "GITHUB_TOKEN") then env !! "GITHUB_TOKEN" else Some "".
Proof.
  unfold GH_TOKEN, js_or.
  destruct (truthy (env !! "GH_PAT")) eqn:E1; cbv iota.
  - by rewrite E1.
  - by destruct (truthy (env !! "GITHUB_TOKEN")).
Qed.

(** X22. The script reaches its driver exactly when GH_USERNAME and
    GITLAB_USERNAME are set to non-empty strings and GH_PAT or GITHUB_TOKEN
    is; a variable set to the empty string counts as missing.  A missing
    user name stops it with status 1 and the user-name message, whatever the
    tokens; with both names present, a missing token stops it with status 1
    and the token message.  The variant with totals, whose user names are
    fixed, only checks the token. *)
Theorem script_guards env tz today cwd fuel fs file0 gh_reply gl_reply gh_first :
  let run := script env tz today cwd fuel fs file0 gh_reply gl_reply gh_first in
  let run_counts :=
    script_counts env tz today cwd fuel fs file0 gh_reply gl_reply gh_first in
  let no_user := Aborted "Missing GH_USERNAME or GITLAB_USERNAME env vars." 1 in
  let no_token :=
    Aborted "Missing GitHub token (GH_PAT / GITHUB_TOKEN). Aborting to avoid 403." 1 in
  let token := provided (env !! "GH_PAT") ∨ provided (env !! "GITHUB_TOKEN") in
  let users := provided (env !! "GH_USERNAME") ∧ provided (env !! "GITLAB_USERNAME") in
  (¬ users -> run = Some no_user) ∧
  (users -> ¬ token -> run = Some no_token) ∧
  (users -> token ->
     run = Completed <$> main tz today cwd fuel fs file0 gh_reply gl_reply gh_first) ∧
  (¬ token -> run_counts = Some no_token) ∧
  (token ->
     run_counts
     = Completed <$> main_counts tz today cwd fuel fs file0 gh_reply gl_reply gh_first).
Proof.
  cbv zeta. unfold script, script_counts, check_config, GH_USERNAME, GITLAB_USERNAME,
    GH_USERNAME_counts, GITLAB_USERNAME_counts.
  rewrite GH_TOKEN_cases.
  rewrite <- !truthy_provided.
  destruct (truthy (env !! "GH_USERNAME")), (truthy (env !! "GITLAB_USERNAME")),
    (truthy (env !! "GH_PAT")) eqn:E1, (truthy (env !! "GITHUB_TOKEN")) eqn:E2;
    rewrite ?E1, ?E2; cbn; repeat split; intros; try done; exfalso; intuition congruence.
Qed.

(** X23. Whenever the guards let the script through, the GraphQL request
    carries the header [Authorization: Bearer <token>] with a non-empty
    token: GH_PAT when it is set and non-empty, GITHUB_TOKEN otherwise.  The
    branch of the request without that header is never taken, and the
    request to GitLab carries no header at all, so the token is sent to
    GitHub only. *)
Theorem github_request_authorized env fromDate today :
  check_config (GH_USERNAME env) (GITLAB_USERNAME env) (GH_TOKEN env) = None ->
  ∃ token,
    token ≠ "" ∧
    (provided (env !! "GH_PAT") -> env !! "GH_PAT" = Some token) ∧
    (¬ provided (env !! "GH_PAT") -> env !! "GITHUB_TOKEN" = Some token) ∧
    req_headers (github_request (GH_TOKEN env) fromDate today (GH_USERNAME env))
      !! "Authorization" = Some ("Bearer " +:+ token) ∧
    req_headers (gitlab_request (GITLAB_USERNAME env)) = ∅.
Proof.
  unfold check_config. rewrite GH_TOKEN_cases.
  destruct (truthy (GH_USERNAME env)), (truthy (GITLAB_USERNAME env)); try done; cbn.
  destruct (truthy (env !! "GH_PAT")) eqn:E1.
  - rewrite E1. cbn. intros _. apply truthy_provided in E1 as (t & Ht & Hne).
    exists t. rewrite Ht. split; [done|]. split; [done|].
    split; [intros Hn; exfalso; apply Hn; by exists t|]. split; [|done].
    rewrite lookup_insert_ne by done. by rewrite lookup_singleton_eq.
  - destruct (truthy (env !! "GITHUB_TOKEN")) eqn:E2; [|done].
    rewrite E2. cbn. intros _. apply truthy_provided in E2 as (t & Ht & Hne).
    exists t. rewrite Ht. split; [done|].
    split; [intros Hn%truthy_provided; congruence|].
    split; [done|]. split; [|done].
    rewrite lookup_insert_ne by done. by rewrite lookup_singleton_eq.
Qed.

Lemma github_request_authorized_witness :
  req_headers (github_request (GH_TOKEN sample_env) 0 0 (GH_USERNAME sample_env))
    !! "Authorization" = Some "Bearer s3cret".
Proof.
  destruct (github_request_authorized sample_env 0 0 eq_refl) as (token & _ & _ & H2 & Hh & _).
  assert (Ht : sample_env !! "GITHUB_TOKEN" = Some token).
  { apply H2. intros (s & [= <-] & Hs). by apply Hs. }
  injection Ht as <-. exact Hh.
Defined.

Lemma toISOString_iso_isoTime t :
  0 <= YearFromTime t <= 9999 -> toISOString t = iso t +:+ isoTime t.
Proof.
  intros Hy. unfold iso, toISOString, isoTime, isoYear.
  rewrite (proj2 (andb_true_iff _ _)) by (split; apply Z.leb_le; lia).
  generalize (YearFromTime t) (MonthFromTime t + 1) (DateFromTime t)
             (HourFromTime t) (MinFromTime t) (SecFromTime t) (msFromTime t).
  intros y m d hh mm ss ms.
  unfold pad4, pad3, pad2; abstract_digits; reflexivity.
Qed.

Lemma isoTime_sub_days t k : isoTime (t - k * msPerDay) = isoTime t.
Proof.
  unfold isoTime, HourFromTime, MinFromTime, SecFromTime, msFromTime.
  replace ((t - k * msPerDay) / msPerHour mod 24) with (t / msPerHour mod 24)
    by (unfold msPerDay, msPerHour; divmod).
  replace ((t - k * msPerDay) / msPerMinute mod 60) with (t / msPerMinute mod 60)
    by (unfold msPerDay, msPerMinute; divmod).
  replace ((t - k * msPerDay) / msPerSecond mod 60) with (t / msPerSecond mod 60)
    by (unfold msPerDay, msPerSecond; divmod).
  replace ((t - k * msPerDay) mod msPerSecond) with (t mod msPerSecond)
    by (unfold msPerDay, msPerSecond; divmod).
  done.
Qed.

(** X24. In a zone with a fixed offset of local time from UTC, while the
    window lies within the years 0000 to 9999, the GraphQL request is a POST
    to the GitHub endpoint that asks, for the given login, for the
    contributions between two instants with the same time of day: [from] on
    the first date of the window, 364 days before today's, and [to] on
    today's date, the last. *)
Theorem github_request_window tz today token username :
  0 <= YearFromTime (fromDate (fixedOffset tz) today) -> YearFromTime today <= 9999 ->
  let req := github_request token (fromDate (fixedOffset tz) today) today username in
  ∃ body, req_body req = Some body ∧
    var_login (variables body) = username ∧
    var_from (variables body) = isoDay (Day today - 364) +:+ isoTime today ∧
    var_to (variables body) = isoDay (Day today) +:+ isoTime today ∧
    req_method req = "POST" ∧ req_url req = "https://api.github.com/graphql".
Proof.
  intros Hlo Hhi req. eexists. split; [reflexivity|]. cbn.
  assert (Hday : Day (fromDate (fixedOffset tz) today) <= Day today)
    by (rewrite fromDate_eq, Day_sub_days; lia).
  rewrite !toISOString_iso_isoTime.
  - rewrite !iso_isoDay. rewrite fromDate_eq, Day_sub_days, isoTime_sub_days. done.
  - split; [|done]. apply year_lower. apply year_lower in Hlo. lia.
  - split; [done|]. apply year_upper. apply year_upper in Hhi. lia.
Qed.

Lemma github_request_window_witness :
  ∃ body, req_body (github_request (Some "t") (fromDate (fixedOffset 0) sample_today)
                      sample_today
                      (Some "yannklein")) = Some body ∧
    var_from (variables body) = "2023-03-02T12:34:56.789Z" ∧
    var_to (variables body) = "2024-02-29T12:34:56.789Z".
Proof.
  destruct (github_request_window 0 sample_today (Some "t") (Some "yannklein"))
    as (body & Hb & _ & Hf & Ht & _); [vm_compute; discriminate..|].
  exists body. split; [exact Hb|]. split; [exact Hf|exact Ht].
Defined.

Lemma hex_digit_unreserved n : (n < 16)%N -> uri_unreserved (hex_digit n) = true.
Proof.
  intros Hn.
  assert (n = 0 ∨ n = 1 ∨ n = 2 ∨ n = 3 ∨ n = 4 ∨ n = 5 ∨ n = 6 ∨ n = 7 ∨ n = 8 ∨ n = 9
          ∨ n = 10 ∨ n = 11 ∨ n = 12 ∨ n = 13 ∨ n = 14 ∨ n = 15)%N as Hc by lia.
  repeat (destruct Hc as [->|Hc]; [reflexivity|]). by subst.
Qed.

Lemma hex_digit_inj a b : (a < 16)%N -> (b < 16)%N -> hex_digit a = hex_digit b -> a = b.
Proof.
  intros Ha Hb H. apply (f_equal N_of_ascii) in H. unfold hex_digit in H.
  destruct (N.ltb_spec a 10), (N.ltb_spec b 10);
    rewrite !N_ascii_embedding in H by lia; lia.
Qed.

Lemma percent_encode_inj c1 c2 : percent_encode c1 = percent_encode c2 -> c1 = c2.
Proof.
  unfold percent_encode. cbv zeta. intros [= H1 H2].
  pose proof (N_ascii_bounded c1). pose proof (N_ascii_bounded c2).
  apply hex_digit_inj in H1; [|apply N.Div0.div_lt_upper_bound; lia..].
  apply hex_digit_inj in H2; [|apply N.mod_lt; lia..].
  rewrite <- (ascii_N_embedding c1), <- (ascii_N_embedding c2). f_equal.
  rewrite (N.div_mod (N_of_ascii c1) 16), (N.div_mod (N_of_ascii c2) 16) by lia. lia.
Qed.

Lemma encodeURIComponent_cons c s :
  encodeURIComponent (String c s)
  = if uri_unreserved c then String c (encodeURIComponent s)
    else String "%" (String (hex_digit (N_of_ascii c / 16))
           (String (hex_digit (N_of_ascii c mod 16)) (encodeURIComponent s))).
Proof. cbn [encodeURIComponent]. by destruct (uri_unreserved c). Qed.

Lemma encodeURIComponent_inj s1 s2 :
  encodeURIComponent s1 = encodeURIComponent s2 -> s1 = s2.
Proof.
  revert s2. induction s1 as [|c1 s1 IH]; intros [|c2 s2].
  - done.
  - rewrite encodeURIComponent_cons. cbn. by destruct (uri_unreserved c2).
  - rewrite encodeURIComponent_cons. cbn. by destruct (uri_unreserved c1).
  - rewrite !encodeURIComponent_cons.
    destruct (uri_unreserved c1) eqn:E1, (uri_unreserved c2) eqn:E2.
    + intros [= -> H]. f_equal. by apply IH.
    + intros [= -> H]. by vm_compute in E1.
    + intros [= <- H]. by vm_compute in E2.
    + intros [= H1 H2 H]. f_equal; [|by apply IH].
      apply percent_encode_inj. unfold percent_encode. cbv zeta. by rewrite H1, H2.
Qed.

Lemma encodeURIComponent_chars s :
  Forall url_char (list_ascii_of_string (encodeURIComponent s)).
Proof.
  induction s as [|c s IH]; [constructor|].
  rewrite encodeURIComponent_cons. pose proof (N_ascii_bounded c).
  destruct (uri_unreserved c) eqn:E; cbn [list_ascii_of_string].
  - constructor; [by left|done].
  - constructor; [by right|]. constructor.
    { left. apply hex_digit_unreserved, N.Div0.div_lt_upper_bound. lia. }
    constructor; [|done]. left. apply hex_digit_unreserved, N.mod_lt. lia.
Qed.

Lemma encodeURIComponent_unreserved s :
  Forall (λ c, uri_unreserved c = true) (list_ascii_of_string s) -> encodeURIComponent s = s.
Proof.
  induction s as [|c s IH]; [done|]. cbn [list_ascii_of_string].
  intros [Hc Hs]%Forall_cons. rewrite encodeURIComponent_cons, Hc. f_equal. by apply IH.
Qed.

Lemma length_append (a b : string) :
  String.length (a +:+ b) = (String.length a + String.length b)%nat.
Proof.
  induction a as [|x a IH]; [done|].
  change (S (String.length (a +:+ b)) = S (String.length a + String.length b)). by rewrite IH.
Qed.

Lemma append_inj_r (a b c : string) : a +:+ c = b +:+ c -> a = b.
Proof.
  revert b. induction a as [|x a IH]; intros [|y b] H.
  - done.
  - apply (f_equal String.length) in H. rewrite !length_append in H. cbn in H. lia.
  - apply (f_equal String.length) in H. rewrite !length_append in H. cbn in H. lia.
  - change (String x (a +:+ c) = String y (b +:+ c)) in H. injection H as -> H.
    f_equal. by apply IH.
Qed.

(** X25. Whatever the user name, the address fetched from GitLab is
    [https://gitlab.com/users/<segment>/calendar.json] where every character
    of the segment is an ASCII letter, a digit, one of [- _ . ! ~ * ' ( )] or
    a percent sign: the segment holds no slash, question mark or hash, so the
    user name cannot change the path or add a query.  A user name made of
    unreserved characters only is its own segment. *)
Theorem gitlab_url_segment (username : option string) :
  ∃ segment,
    gitlab_url username = "https://gitlab.com/users/" +:+ segment +:+ "/calendar.json" ∧
    Forall url_char (list_ascii_of_string segment) ∧
    ¬ ("/"%char ∈ list_ascii_of_string segment) ∧
    ¬ ("?"%char ∈ list_ascii_of_string segment) ∧
    ¬ ("#"%char ∈ list_ascii_of_string segment) ∧
    (Forall (λ c, uri_unreserved c = true) (list_ascii_of_string (template username)) ->
     segment = template username).
Proof.
  exists (encodeURIComponent (template username)). split; [done|].
  pose proof (encodeURIComponent_chars (template username)) as Hc.
  split; [exact Hc|].
  rewrite Forall_forall in Hc.
  repeat split.
  - intros [H|H]%Hc; by vm_compute in H.
  - intros [H|H]%Hc; by vm_compute in H.
  - intros [H|H]%Hc; by vm_compute in H.
  - apply encodeURIComponent_unreserved.
Qed.

(** X26. Two user names give the same GitLab address only if they are the
    same: the percent-encoding loses nothing. *)
Theorem gitlab_url_injective (u1 u2 : string) :
  gitlab_url (Some u1) = gitlab_url (Some u2) <-> u1 = u2.
Proof.
  split; [|by intros ->]. unfold gitlab_url. cbn [template default from_option id].
  intros H. apply String.app_inj in H.
  apply append_inj_r in H. by apply encodeURIComponent_inj.
Qed.

Example gitlab_url_sample :
  gitlab_url GITLAB_USERNAME_counts = "https://gitlab.com/users/yannklein/calendar.json" ∧
  gitlab_url (Some "a/b c") = "https://gitlab.com/users/a%2Fb%20c/calendar.json" ∧
  gitlab_url None = "https://gitlab.com/users/undefined/calendar.json".
Proof. repeat split; reflexivity. Qed.
